(** * KamiSetup backend: a shallow embedding of [backend_functions.py]

    The development follows the layout of the Python module: the text
    primitives the code relies on ([str.strip], [readline], text-mode file
    translation), the settings file shared by the selection store and the
    settings dictionary, the environment registry, the version resolver, the
    worker that runs an external process, and the activation launcher.  The
    slots of the pages in [ui_pages.py] that call into the module follow.

    Conventions.
    - A Python [str] is a Rocq [string]; characters are code points below 256.
    - A file is the text stored in it; the locale encoding is taken to
      represent every character written.  A file, or the output of a child
      process, whose bytes do not decode as text is marked as such, and
      reading it raises.
    - A function that may raise returns an [outcome]; the exception classes
      are the ones named by the module's [except] clauses and the ones the
      text and JSON layers raise past them.
    - What the operating system decides (does a path exist, does a process
      spawn, what does the child print) is an explicit argument. *)

From Stdlib Require Import String Ascii List ZArith Lia Bool.
From Stdlib Require Import DecimalString DecimalNat OrdersEx Sorted.
From Stdlib Require DecimalPos DecimalN DecimalFacts.
From stdpp Require Import gmap strings.
Import ListNotations.
Set Warnings "-register-all".
Arguments String.append !s1 s2 : simpl nomatch.
Open Scope string_scope.

(** ** Exceptions and outcomes *)

Inductive exn : Type :=
| FileNotFoundError
| JSONDecodeError
| TypeError
| CalledProcessError (returncode : Z)
| UnicodeDecodeError
| ValueError.

Inductive outcome (A : Type) : Type :=
| Ok (a : A)
| Raise (e : exn).
Arguments Ok {A} a.
Arguments Raise {A} e.

Definition is_raise {A : Type} (o : outcome A) : bool :=
  match o with Ok _ => false | Raise _ => true end.

(** ** Python text primitives *)

Definition LF : ascii := "010"%char.
Definition CR : ascii := "013"%char.
Definition dquote : ascii := "034"%char.
Definition backslash : ascii := "092"%char.

(** The string holding a single line feed, Python's ["\n"]. *)
Definition NL : string := String LF "".

Definition code (c : ascii) : N := N_of_ascii c.

(** [str.isspace] on one character, for code points below 256: tab to
    carriage return, the four separators 0x1c-0x1f, space, NEL and NBSP. *)
Definition isspace (c : ascii) : bool :=
  let n := code c in
  ((9 <=? n) && (n <=? 13) || (28 <=? n) && (n <=? 32)
   || (n =? 133) || (n =? 160))%N.

Fixpoint lstrip (s : string) : string :=
  match s with
  | EmptyString => EmptyString
  | String c s' => if isspace c then lstrip s' else s
  end.

Fixpoint rstrip (s : string) : string :=
  match s with
  | EmptyString => EmptyString
  | String c s' =>
      match rstrip s' with
      | EmptyString => if isspace c then EmptyString else String c EmptyString
      | r => String c r
      end
  end.

(** [s.strip()] *)
Definition strip (s : string) : string := lstrip (rstrip s).

(** Python truthiness of a string: [if s:] *)
Definition truthy (s : string) : bool :=
  match s with EmptyString => false | String _ _ => true end.

(** [f.readline()] on the text still to be read: the next line with its
    line feed, or what is left when no line feed follows, or [""] at the end
    of the stream; the second component is the text that stays unread. *)
Fixpoint readline (s : string) : string * string :=
  match s with
  | EmptyString => (EmptyString, EmptyString)
  | String c s' =>
      if Ascii.eqb c LF then (String c EmptyString, s')
      else let (l, r) := readline s' in (String c l, r)
  end.

(** Does character [c] occur in [s]? *)
Fixpoint occurs (c : ascii) (s : string) : bool :=
  match s with
  | EmptyString => false
  | String d s' => Ascii.eqb d c || occurs c s'
  end.

(** [str(n)] for a natural number, as the f-strings of the module print it. *)
Definition str_of_nat (n : nat) : string :=
  NilEmpty.string_of_uint (Nat.to_uint n).

(** ** Text-mode files

    [open(path, "w")] and [open(path, "r")] use the default [newline=None]:
    on writing every line feed becomes [os.linesep]; on reading, [\r\n] and a
    lone [\r] both become a line feed.  [nt] is [os.name == 'nt']. *)

Fixpoint write_translate (nt : bool) (s : string) : string :=
  match s with
  | EmptyString => EmptyString
  | String c s' =>
      if nt && Ascii.eqb c LF
      then String CR (String LF (write_translate nt s'))
      else String c (write_translate nt s')
  end.

Fixpoint universal_newlines (s : string) : string :=
  match s with
  | EmptyString => EmptyString
  | String c s' =>
      if Ascii.eqb c CR then
        match s' with
        | String d s'' =>
            if Ascii.eqb d LF then String LF (universal_newlines s'')
            else String LF (universal_newlines s')
        | EmptyString => String LF EmptyString
        end
      else String c (universal_newlines s')
  end.

(** The file system: the stored characters of each existing path, and the
    paths whose stored bytes do not decode as text in the locale encoding, so
    that the first read of such a file raises (a file that decodes at its
    start and stops decoding further on is not modelled).  Lookup, insertion,
    the empty file system and the one with a single file are written as for
    a finite map of the contents. *)
Record filesystem : Type :=
  { contents : gmap string string; undecodable : gset string }.

#[global] Instance filesystem_lookup : Lookup string string filesystem :=
  fun path fs => contents fs !! path.

(** A file that is written holds the text written, which decodes. *)
#[global] Instance filesystem_insert : Insert string string filesystem :=
  fun path data fs =>
    {| contents := <[path := data]> (contents fs);
       undecodable := undecodable fs ∖ {[path]} |}.

#[global] Instance filesystem_empty : Empty filesystem :=
  {| contents := ∅; undecodable := ∅ |}.

#[global] Instance filesystem_singleton : SingletonM string string filesystem :=
  fun path data => {| contents := {[path := data]}; undecodable := ∅ |}.

(** The two file-system effects of [with open(path, "w") as f: f.write(data)]:
    opening truncates (or creates) the file at once; the data reaches the
    file when the buffer is flushed on close. *)
Inductive file_op : Type :=
| OpenTruncate (path : string)
| WriteClose (path : string) (data : string).

Definition exec_op (nt : bool) (fs : filesystem) (op : file_op) : filesystem :=
  match op with
  | OpenTruncate path => <[path := EmptyString]> fs
  | WriteClose path data => <[path := write_translate nt data]> fs
  end.

Definition run_ops (nt : bool) (ops : list file_op) (fs : filesystem) : filesystem :=
  fold_left (exec_op nt) ops fs.

(** Do the bytes stored under [path] decode as text? *)
Definition decodes (path : string) (fs : filesystem) : bool :=
  negb (bool_decide (path ∈ undecodable fs)).

(** [open(path, "r")] followed by reading: the translated text;
    [FileNotFoundError] from [open] when the path does not exist;
    [UnicodeDecodeError] from the first read when the bytes stored do not
    decode.  Other failures of the operating system ([PermissionError] for a
    file that may not be opened, [IsADirectoryError] for a directory under
    that name) are not followed, on reading as on writing: every path that
    exists is taken to be a file the program may open. *)
Definition open_r (path : string) (fs : filesystem) : outcome string :=
  match fs !! path with
  | None => Raise FileNotFoundError
  | Some raw =>
      if decodes path fs then Ok (universal_newlines raw)
      else Raise UnicodeDecodeError
  end.

(** [os.path.exists] *)
Definition path_exists (path : string) (fs : filesystem) : bool :=
  match fs !! path with None => false | Some _ => true end.

(** ** Configuration *)

Definition SETTINGS_FILE : string := "settings.json".

(** ** Selection store *)

Definition save_selected_env_ops (env_type env_name : string) : list file_op :=
  [ OpenTruncate SETTINGS_FILE;
    WriteClose SETTINGS_FILE (env_type +:+ NL +:+ env_name) ].

Definition save_selected_env (nt : bool) (env_type env_name : string)
    (fs : filesystem) : filesystem :=
  run_ops nt (save_selected_env_ops env_type env_name) fs.

(** The result is the pair the Python function returns: two strings, or
    [(None, None)]. *)
Definition load_selected_env (fs : filesystem)
    : outcome (option string * option string) :=
  match open_r SETTINGS_FILE fs with
  | Ok f =>
      let (line1, f1) := readline f in
      let env_type := strip line1 in
      let (line2, _) := readline f1 in
      let env_name := strip line2 in
      Ok (Some env_type, Some env_name)
  | Raise FileNotFoundError => Ok (None, None)
  | Raise e => Raise e
  end.

(** ** Environment registry: name resolution *)

(** [env_name or "myenv"] *)
Definition base_name_of (env_name : string) : string :=
  if truthy env_name then env_name else "myenv".

(** [f"{base_name}_{num}" if num > 0 else base_name] *)
Definition numbered (base_name : string) (num : nat) : string :=
  if (0 <? num)%nat then base_name +:+ "_" +:+ str_of_nat num else base_name.

(** The [while] loop shared by [create_virtual_env] and [create_conda_env]:
    [taken] is the loop condition ([os.path.exists], or membership in
    [list_conda_envs()]).  [None] means the fuel ran out. *)
Fixpoint name_loop (taken : string -> bool) (base_name : string)
    (fuel num : nat) (final_name : string) : option string :=
  match fuel with
  | O => None
  | S fuel' =>
      if taken final_name then
        let num' := (num + 1)%nat in
        name_loop taken base_name fuel' num' (numbered base_name num')
      else Some final_name
  end.

(** [subprocess.check_call(cmd)]: [spawn_wait] is the operating system's
    answer, the exit code of the child or the failure to start it. *)
Definition check_call (spawn_wait : list string -> outcome Z)
    (cmd : list string) : outcome unit :=
  match spawn_wait cmd with
  | Raise e => Raise e
  | Ok 0%Z => Ok tt
  | Ok rc => Raise (CalledProcessError rc)
  end.

(** [exists_] is [os.path.exists]. *)
Definition create_virtual_env (exists_ : string -> bool)
    (spawn_wait : list string -> outcome Z) (fuel : nat)
    (env_name python_version : string) : option (outcome string) :=
  let base_name := base_name_of env_name in
  match name_loop exists_ base_name fuel 0 base_name with
  | None => None
  | Some final_name =>
      let py_cmd := ["py"; "-" +:+ python_version; "-m"; "venv"; final_name] in
      match check_call spawn_wait py_cmd with
      | Raise e => Some (Raise e)
      | Ok _ => Some (Ok final_name)
      end
  end.

(** [final_name in list_conda_envs()] *)
Definition in_list (x : string) (l : list string) : bool :=
  existsb (String.eqb x) l.

(** [list_conda_envs] is what each call of [list_conda_envs()] returns while
    the loop runs; the parameters [python_version] and [console] are not used
    by the function and are left out. *)
Definition create_conda_env (list_conda_envs : list string) (fuel : nat)
    (env_name : string) : option string :=
  let base_name := base_name_of env_name in
  name_loop (fun final_name => in_list final_name list_conda_envs)
    base_name fuel 0 base_name.

(** ** Version resolver *)

Definition isdigit (c : ascii) : bool := ((48 <=? code c) && (code c <=? 57))%N.

(** The longest run of digits at the start of [s], and what follows it. *)
Fixpoint span_digits (s : string) : string * string :=
  match s with
  | EmptyString => (EmptyString, EmptyString)
  | String c s' =>
      if isdigit c then let (d, r) := span_digits s' in (String c d, r)
      else (EmptyString, s)
  end.

(** [expect lit s]: [s] without its prefix [lit], when it has that prefix. *)
Fixpoint expect (lit s : string) : option string :=
  match lit with
  | EmptyString => Some s
  | String a lit' =>
      match s with
      | String b s' => if Ascii.eqb a b then expect lit' s' else None
      | EmptyString => None
      end
  end.

(** [\d+\.\d+\.\d+] anchored at the start of [s]: the text matched and the
    rest.  A digit run is never followed by a digit, so the greedy match is
    the only candidate. *)
Definition match_version (s : string) : option (string * string) :=
  let (a, r1) := span_digits s in
  if truthy a then
    match expect "." r1 with
    | None => None
    | Some r2 =>
        let (b, r3) := span_digits r2 in
        if truthy b then
          match expect "." r3 with
          | None => None
          | Some r4 =>
              let (c, r5) := span_digits r4 in
              if truthy c then Some (a +:+ "." +:+ b +:+ "." +:+ c, r5)
              else None
          end
        else None
    end
  else None.

(** The pattern [href="(\d+\.\d+\.\d+)/"] anchored at the start of [s]:
    group 1 and the length of the whole match. *)
Definition match_href (s : string) : option (string * nat) :=
  match expect ("href=" +:+ String dquote "") s with
  | None => None
  | Some r =>
      match match_version r with
      | None => None
      | Some (v, r') =>
          match expect ("/" +:+ String dquote "") r' with
          | None => None
          | Some _ => Some (v, (6 + String.length v + 2)%nat)
          end
      end
  end.

(** [re.findall]: scan left to right; after a match the search resumes
    behind it ([skip] counts the characters of the match still to pass). *)
Fixpoint findall_from (skip : nat) (s : string) : list string :=
  match s with
  | EmptyString => []
  | String _ s' =>
      match skip with
      | S k => findall_from k s'
      | O =>
          match match_href s with
          | Some (v, len) => v :: findall_from (len - 1) s'
          | None => findall_from 0 s'
          end
      end
  end.

Definition findall (text : string) : list string := findall_from 0 text.

(** [versions.sort(reverse=True)] on strings: descending code-point order.
    Strings that compare equal are identical, so the order among them is
    immaterial. *)
Fixpoint insert_desc (x : string) (l : list string) : list string :=
  match l with
  | [] => [x]
  | y :: l' => if String.ltb y x then x :: l else y :: insert_desc x l'
  end.

Definition sort_reverse (l : list string) : list string :=
  fold_right insert_desc [] l.

(** Descending order as [sort_reverse] produces it: nothing sorts before
    an element that follows it. *)
Definition descending (l : list string) : Prop :=
  StronglySorted (fun x y => String.ltb x y = false) l.

(** [s.split(".")] for a one-character separator. *)
Fixpoint split_char (sep : ascii) (s : string) : list string :=
  match s with
  | EmptyString => [EmptyString]
  | String c s' =>
      if Ascii.eqb c sep then EmptyString :: split_char sep s'
      else match split_char sep s' with
           | h :: t => String c h :: t
           | [] => [String c EmptyString]
           end
  end.

(** [".".join(full_version.split(".")[:2])] *)
Definition major_minor_of (full_version : string) : string :=
  String.concat "." (firstn 2 (split_char "." full_version)).

(** The [for] loop filling [version_map]: a later assignment to the same
    key replaces the earlier one. *)
Definition build_version_map (versions : list string) : gmap string string :=
  fold_left (fun version_map full_version =>
               <[major_minor_of full_version := full_version]> version_map)
            versions ∅.

Inductive request_exception : Type :=
| ConnectionError
| Timeout
| HTTPError.

Record response : Type := { status_code : Z; text : string }.

(** What [requests.get(base_url, timeout=10)] did. *)
Inductive fetched : Type :=
| GetRaised (e : request_exception)
| GetReturned (r : response).

(** [response.raise_for_status()] raises [HTTPError] for 4xx and 5xx. *)
Definition raise_for_status (r : response) : option request_exception :=
  if ((400 <=? status_code r) && (status_code r <? 600))%Z
  then Some HTTPError else None.

(** The log lines of [get_full_version] go to the terminal only and are left
    out. *)
Definition get_full_version (get : fetched) (version_display : string) : string :=
  match get with
  | GetRaised _ => version_display
  | GetReturned response =>
      match raise_for_status response with
      | Some _ => version_display
      | None =>
          let versions := findall (text response) in
          let versions := sort_reverse versions in
          let version_map := build_version_map versions in
          let latest_full_version :=
            default version_display (version_map !! version_display) in
          latest_full_version
      end
  end.

(** One line of the directory listing served by the index. *)
Definition index_line (v : string) : string :=
  "<a href=" +:+ String dquote "" +:+ v +:+ "/" +:+ String dquote ""
  +:+ ">" +:+ v +:+ "/</a>" +:+ NL.

Definition index_page (vs : list string) : string :=
  String.concat "" (map index_line vs).

(** ** The settings dictionary and its JSON file

    [save_setting] and [load_settings] go through the [json] module of the
    standard library.  The values covered are [None], booleans, integers,
    strings, lists and dictionaries with string keys; a dictionary keeps its
    insertion order. *)

Inductive json : Type :=
| JNull
| JBool (b : bool)
| JInt (n : Z)
| JStr (s : string)
| JArr (items : list json)
| JObj (pairs : list (string * json)).

(** [d[key] = value] on an insertion-ordered dictionary. *)
Fixpoint dict_set (key : string) (value : json) (d : list (string * json))
    : list (string * json) :=
  match d with
  | [] => [(key, value)]
  | (k, v) :: d' =>
      if String.eqb k key then (k, value) :: d'
      else (k, v) :: dict_set key value d'
  end.

(** *** Encoding: [json.dump(obj, f, indent=4)] *)

Definition hex_digit (n : N) : ascii :=
  if (n <? 10)%N then ascii_of_N (48 + n) else ascii_of_N (87 + n).

(** One character under [ensure_ascii=True]. *)
Definition escape_char (c : ascii) : string :=
  if Ascii.eqb c dquote then String backslash (String dquote "")
  else if Ascii.eqb c backslash then String backslash (String backslash "")
  else if Ascii.eqb c LF then String backslash "n"
  else if Ascii.eqb c CR then String backslash "r"
  else if Ascii.eqb c "009"%char then String backslash "t"
  else if Ascii.eqb c "008"%char then String backslash "b"
  else if Ascii.eqb c "012"%char then String backslash "f"
  else if ((32 <=? code c) && (code c <=? 126))%N then String c ""
  else String backslash
         (String "u" (String "0" (String "0"
            (String (hex_digit (code c / 16)) (String (hex_digit (code c mod 16)) ""))))).

Fixpoint escape (s : string) : string :=
  match s with
  | EmptyString => EmptyString
  | String c s' => escape_char c +:+ escape s'
  end.

Definition encode_string (s : string) : string :=
  String dquote (escape s) +:+ String dquote "".

Definition str_of_Z (n : Z) : string := NilEmpty.string_of_int (Z.to_int n).

Fixpoint spaces (n : nat) : string :=
  match n with O => EmptyString | S n' => String " " (spaces n') end.

(** [newline_indent] at nesting depth [level]. *)
Definition newline_indent (level : nat) : string := NL +:+ spaces (4 * level).

Fixpoint encode (level : nat) (v : json) : string :=
  match v with
  | JNull => "null"
  | JBool true => "true"
  | JBool false => "false"
  | JInt n => str_of_Z n
  | JStr s => encode_string s
  | JArr [] => "[]"
  | JArr items =>
      "[" +:+ newline_indent (S level)
      +:+ String.concat ("," +:+ newline_indent (S level))
            (map (encode (S level)) items)
      +:+ newline_indent level +:+ "]"
  | JObj [] => "{}"
  | JObj pairs =>
      "{" +:+ newline_indent (S level)
      +:+ String.concat ("," +:+ newline_indent (S level))
            (map (fun p => match p with
                           | (k, x) => encode_string k +:+ ": " +:+ encode (S level) x
                           end) pairs)
      +:+ newline_indent level +:+ "}"
  end.

Definition dumps (v : json) : string := encode 0 v.

(** *** Decoding: [json.load(f)]

    A scan ends with a value and the unread text, with [JSONDecodeError], or
    outside what is modelled here: a float, a code point above 255, an
    integer literal long enough to hit the interpreter's digit limit,
    arrays and objects nested deeper than [depth], or exhausted fuel. *)

(** The decoder and the encoder recurse once for every array or object
    inside another; nested deep enough they reach the recursion limit of the
    interpreter and raise [RecursionError], at a depth that depends on the
    limit and on the stack of the caller.  Up to [JSON_NESTING] levels the
    limit is out of reach; deeper values are outside the model. *)
Definition JSON_NESTING : nat := 100.

(** How deep the arrays and objects of a value are nested. *)
Fixpoint nesting (v : json) : nat :=
  match v with
  | JArr items => S (fold_right (fun x acc => Nat.max (nesting x) acc) 0%nat items)
  | JObj pairs =>
      S (fold_right (fun p acc => match p with (_, x) => Nat.max (nesting x) acc end)
                    0%nat pairs)
  | _ => 0%nat
  end.

Inductive scan (A : Type) : Type :=
| Scanned (a : A) (rest : string)
| DecodeError
| Unmodelled.
Arguments Scanned {A} a rest.
Arguments DecodeError {A}.
Arguments Unmodelled {A}.

(** The decoder's whitespace: space, tab, line feed, carriage return. *)
Definition is_ws (c : ascii) : bool :=
  Ascii.eqb c " " || Ascii.eqb c "009"%char || Ascii.eqb c LF || Ascii.eqb c CR.

Fixpoint skip_ws (s : string) : string :=
  match s with
  | EmptyString => EmptyString
  | String c s' => if is_ws c then skip_ws s' else s
  end.

Definition hex_value (c : ascii) : option N :=
  let n := code c in
  if ((48 <=? n) && (n <=? 57))%N then Some (n - 48)%N
  else if ((97 <=? n) && (n <=? 102))%N then Some (n - 87)%N
  else if ((65 <=? n) && (n <=? 70))%N then Some (n - 55)%N
  else None.

(** The character an escape letter stands for. *)
Definition unescape (e : ascii) : option ascii :=
  if Ascii.eqb e dquote then Some dquote
  else if Ascii.eqb e backslash then Some backslash
  else if Ascii.eqb e "/" then Some "/"%char
  else if Ascii.eqb e "b" then Some "008"%char
  else if Ascii.eqb e "f" then Some "012"%char
  else if Ascii.eqb e "n" then Some LF
  else if Ascii.eqb e "r" then Some CR
  else if Ascii.eqb e "t" then Some "009"%char
  else None.

Definition scan_cons (c : ascii) (r : scan string) : scan string :=
  match r with
  | Scanned str rest => Scanned (String c str) rest
  | DecodeError => DecodeError
  | Unmodelled => Unmodelled
  end.

(** [scanstring] in strict mode, entered behind the opening quote. *)
Fixpoint scanstring (s : string) : scan string :=
  match s with
  | EmptyString => DecodeError
  | String c s' =>
      if Ascii.eqb c dquote then Scanned EmptyString s'
      else if Ascii.eqb c backslash then
        match s' with
        | EmptyString => DecodeError
        | String e s'' =>
            if Ascii.eqb e "u" then
              match s'' with
              | String h1 (String h2 (String h3 (String h4 rest))) =>
                  match hex_value h1, hex_value h2, hex_value h3, hex_value h4 with
                  | Some a, Some b, Some c3, Some d =>
                      if ((a =? 0) && (b =? 0))%N
                      then scan_cons (ascii_of_N (16 * c3 + d)) (scanstring rest)
                      else Unmodelled
                  | _, _, _, _ => DecodeError
                  end
              | _ => DecodeError
              end
            else
              match unescape e with
              | Some ch => scan_cons ch (scanstring s'')
              | None => DecodeError
              end
        end
      else if (code c <? 32)%N then DecodeError
      else scan_cons c (scanstring s')
  end.

Fixpoint digits_value (acc : Z) (s : string) : Z :=
  match s with
  | EmptyString => acc
  | String c s' => digits_value (10 * acc + Z.of_N (code c - 48)) s'
  end.

(** The integer part of the number pattern, an optional minus followed by
    a lone 0 or by a digit run that does not start with 0: sign, digits,
    rest. *)
Definition match_integer (s : string) : option (bool * string * string) :=
  let (neg, s1) := match s with
                   | String "-" s' => (true, s')
                   | _ => (false, s)
                   end in
  match s1 with
  | String "0" r => Some (neg, "0", r)
  | String c _ =>
      if isdigit c then let (d, r) := span_digits s1 in Some (neg, d, r)
      else None
  | EmptyString => None
  end.

(** Does a fraction (a dot and a digit) or an exponent (e or E, an optional
    sign, a digit) follow? *)
Definition float_follows (r : string) : bool :=
  match r with
  | String "." (String c _) => isdigit c
  | String e r1 =>
      if Ascii.eqb e "e" || Ascii.eqb e "E" then
        match r1 with
        | String sg (String c _) =>
            if Ascii.eqb sg "-" || Ascii.eqb sg "+" then isdigit c else isdigit sg
        | String c EmptyString => isdigit c
        | EmptyString => false
        end
      else false
  | EmptyString => false
  end.

Definition scan_number (s : string) : option (scan json) :=
  match match_integer s with
  | None => None
  | Some (neg, d, r) =>
      if float_follows r then Some Unmodelled
      else if (4300 <? String.length d)%nat then Some Unmodelled
      else let n := digits_value 0 d in
           Some (Scanned (JInt (if neg then - n else n)%Z) r)
  end.

Definition starts_with (lit s : string) : bool :=
  match expect lit s with Some _ => true | None => false end.

Definition after (lit s : string) : string :=
  match expect lit s with Some r => r | None => s end.

Fixpoint scan_once (fuel depth : nat) (s : string) {struct fuel} : scan json :=
  match fuel with
  | O => Unmodelled
  | S fuel' =>
      match s with
      | EmptyString => DecodeError
      | String nextchar s' =>
          if Ascii.eqb nextchar dquote then
            match scanstring s' with
            | Scanned str rest => Scanned (JStr str) rest
            | DecodeError => DecodeError
            | Unmodelled => Unmodelled
            end
          else if Ascii.eqb nextchar "{" then
            match depth with
            | O => Unmodelled
            | S depth' =>
                match skip_ws s' with
                | String "}" rest => Scanned (JObj []) rest
                | String c rest =>
                    if Ascii.eqb c dquote then
                      match parse_members fuel' depth' rest with
                      | Scanned pairs rest' => Scanned (JObj pairs) rest'
                      | DecodeError => DecodeError
                      | Unmodelled => Unmodelled
                      end
                    else DecodeError
                | EmptyString => DecodeError
                end
            end
          else if Ascii.eqb nextchar "[" then
            match depth with
            | O => Unmodelled
            | S depth' =>
                match skip_ws s' with
                | String "]" rest => Scanned (JArr []) rest
                | s1 =>
                    match parse_items fuel' depth' s1 with
                    | Scanned items rest' => Scanned (JArr items) rest'
                    | DecodeError => DecodeError
                    | Unmodelled => Unmodelled
                    end
                end
            end
          else if starts_with "null" s then Scanned JNull (after "null" s)
          else if starts_with "true" s then Scanned (JBool true) (after "true" s)
          else if starts_with "false" s then Scanned (JBool false) (after "false" s)
          else
            match scan_number s with
            | Some r => r
            | None =>
                if starts_with "NaN" s || starts_with "Infinity" s
                   || starts_with "-Infinity" s
                then Unmodelled else DecodeError
            end
      end
  end

(** The [while True] loop of the object parser, entered behind the opening
    quote of a key; the pairs scanned are merged as [dict(pairs)] does. *)
with parse_members (fuel depth : nat) (s : string) {struct fuel}
    : scan (list (string * json)) :=
  match fuel with
  | O => Unmodelled
  | S fuel' =>
      match scanstring s with
      | DecodeError => DecodeError
      | Unmodelled => Unmodelled
      | Scanned key r1 =>
          match skip_ws r1 with
          | String ":" r2 =>
              match scan_once fuel' depth (skip_ws r2) with
              | DecodeError => DecodeError
              | Unmodelled => Unmodelled
              | Scanned value r3 =>
                  match skip_ws r3 with
                  | String "}" rest => Scanned [(key, value)] rest
                  | String "," r4 =>
                      match skip_ws r4 with
                      | String c r5 =>
                          if Ascii.eqb c dquote then
                            match parse_members fuel' depth r5 with
                            | Scanned pairs rest =>
                                Scanned ((key, value) :: pairs) rest
                            | DecodeError => DecodeError
                            | Unmodelled => Unmodelled
                            end
                          else DecodeError
                      | EmptyString => DecodeError
                      end
                  | _ => DecodeError
                  end
              end
          | _ => DecodeError
          end
      end
  end

(** The [while True] loop of the array parser. *)
with parse_items (fuel depth : nat) (s : string) {struct fuel} : scan (list json) :=
  match fuel with
  | O => Unmodelled
  | S fuel' =>
      match scan_once fuel' depth s with
      | DecodeError => DecodeError
      | Unmodelled => Unmodelled
      | Scanned value r1 =>
          match skip_ws r1 with
          | String "]" rest => Scanned [value] rest
          | String "," r2 =>
              match parse_items fuel' depth (skip_ws r2) with
              | Scanned items rest => Scanned (value :: items) rest
              | DecodeError => DecodeError
              | Unmodelled => Unmodelled
              end
          | _ => DecodeError
          end
      end
  end.

(** [dict(pairs)]: a repeated key keeps its first position and its last
    value.  Applied at every nesting depth. *)
Fixpoint as_dicts (v : json) : json :=
  match v with
  | JArr items => JArr (map as_dicts items)
  | JObj pairs =>
      JObj (fold_left (fun d p => match p with
                                  | (k, x) => dict_set k x d
                                  end)
                      (map (fun p => match p with (k, x) => (k, as_dicts x) end) pairs)
                      [])
  | _ => v
  end.

(** [str(n)] and [int(s)] raise [ValueError] beyond 4300 digits, the default
    of [sys.set_int_max_str_digits]. *)
Definition int_ok (n : Z) : bool :=
  (String.length (str_of_Z (Z.abs n)) <=? 4300)%nat.

(** Every integer in the value is within the digit limit. *)
Fixpoint ints_ok (v : json) : bool :=
  match v with
  | JInt n => int_ok n
  | JArr items => forallb ints_ok items
  | JObj pairs => forallb (fun p => match p with (_, x) => ints_ok x end) pairs
  | _ => true
  end.

(** [json.loads(text)]: one value between optional whitespace, nothing
    behind it.  [None] stands for a text outside the model. *)
Definition loads (text : string) : option (outcome json) :=
  match scan_once (2 * String.length text + 2) JSON_NESTING (skip_ws text) with
  | Unmodelled => None
  | DecodeError => Some (Raise JSONDecodeError)
  | Scanned obj rest =>
      match skip_ws rest with
      | EmptyString => Some (Ok (as_dicts obj))
      | String _ _ => Some (Raise JSONDecodeError)
      end
  end.

Definition load_settings (fs : filesystem) : option (outcome json) :=
  if negb (path_exists SETTINGS_FILE fs) then Some (Ok (JObj []))
  else
    match open_r SETTINGS_FILE fs with
    | Raise e => Some (Raise e)
    | Ok f => loads f
    end.

Definition save_setting_ops (settings : json) : list file_op :=
  [ OpenTruncate SETTINGS_FILE; WriteClose SETTINGS_FILE (dumps settings) ].

(** [settings[key] = value] raises [TypeError] when the file held a JSON
    value that is not an object.  [json.dump] writes while it walks the
    value: at an integer beyond the digit limit it raises [ValueError], by
    then the file has been opened for writing and holds only the text that
    came before.  The file system after an exception is not part of the
    result.  Settings nested deeper than [JSON_NESTING] are outside the
    model. *)
Definition save_setting (nt : bool) (key : string) (value : json)
    (fs : filesystem) : option (outcome filesystem) :=
  match load_settings fs with
  | None => None
  | Some (Raise e) => Some (Raise e)
  | Some (Ok (JObj pairs)) =>
      let settings := JObj (dict_set key value pairs) in
      if (JSON_NESTING <? nesting settings)%nat then None
      else if ints_ok settings
      then Some (Ok (run_ops nt (save_setting_ops settings) fs))
      else Some (Raise ValueError)
  | Some (Ok _) => Some (Raise TypeError)
  end.

(** ** Process runner: [InstallWorker]

    A spawned child is what it writes to the merged stdout/stderr pipe and
    the exit status [wait] returns.  The pipe is read as text ([text=True]),
    chunk by chunk: [stdout] holds the characters of the chunks that decode
    in the locale encoding, and [garbled] tells that a chunk follows them
    whose bytes do not decode; the characters of that chunk are lost with
    it. *)

Record process : Type := { stdout : string; garbled : bool; returncode : Z }.

(** The text without a carriage return at its very end. *)
Fixpoint without_last_cr (s : string) : string :=
  match s with
  | EmptyString => EmptyString
  | String c EmptyString => if Ascii.eqb c CR then EmptyString else s
  | String c s' => String c (without_last_cr s')
  end.

(** What [readline] gets to see of the output: the decoded characters, every
    line end (line feed, carriage return, or the two in a row) turned into a
    line feed.  While another chunk is to come, the decoder keeps a carriage
    return at the very end to itself until it has seen what follows. *)
Definition pipe_text (p : process) : string :=
  universal_newlines (if garbled p then without_last_cr (stdout p) else stdout p).

(** The two signals of the worker. *)
Inductive signal : Type :=
| output_signal (line : string)
| finished_signal (return_code : Z) (env_name : string).

(** What the worker thread does, in program order. *)
Inductive action : Type :=
| Readline (output_line : string)
| Emit (sig : signal)
| Wait (return_code : Z).

(** The [while True] loop of [run]; [pending] is the decoded text that has
    not been read yet, [more] tells that a chunk which does not decode comes
    after it.  [readline] hands out a line that is complete; for one that is
    not it asks for the next chunk, and decoding that one raises
    [UnicodeDecodeError] out of [readline]: the line is not returned.  The
    result is the trace and how the loop ended. *)
Fixpoint run_loop (fuel : nat) (more : bool) (pending : string)
    : option (list action * outcome unit) :=
  match fuel with
  | O => None
  | S fuel' =>
      let (output_line, pending') := readline pending in
      if more && negb (occurs LF output_line)
      then Some ([], Raise UnicodeDecodeError)
      else if truthy output_line then
        match run_loop fuel' more pending' with
        | Some (rest, ended) =>
            Some (Readline output_line
                  :: Emit (output_signal (strip output_line)) :: rest, ended)
        | None => None
        end
      else Some ([Readline output_line], Ok tt)
  end.

(** [run] from the loop on, once [Popen] has returned [process]: an
    exception out of the loop leaves [run], which has no handler, and
    neither [wait] nor [finished_signal] is reached. *)
Definition run_spawned (fuel : nat) (process : process) (env_name : string)
    : option (list action * outcome unit) :=
  match run_loop fuel (garbled process) (pipe_text process) with
  | None => None
  | Some (trace, Raise e) => Some (trace, Raise e)
  | Some (trace, Ok _) =>
      let return_code := returncode process in
      Some ((trace ++ [Wait return_code;
                       Emit (finished_signal return_code env_name)])%list,
            Ok tt)
  end.

(** [run]: [popen] is the operating system's answer to [subprocess.Popen].
    The result is the worker's trace and how [run] ended inside the worker
    thread; the caller of [start] only ever sees the signals. *)
Definition run (popen : list string -> outcome process) (fuel : nat)
    (command : list string) (env_name : string)
    : option (list action * outcome unit) :=
  match popen command with
  | Raise e => Some ([], Raise e)
  | Ok process => run_spawned fuel process env_name
  end.

(** The signals a connected listener receives, in emission order. *)
Fixpoint signals (trace : list action) : list signal :=
  match trace with
  | [] => []
  | Emit sig :: trace' => sig :: signals trace'
  | _ :: trace' => signals trace'
  end.

(** The lines of a text, each with its line feed; the last one lacks it when
    the text does not end in a line feed. *)
Fixpoint lines (s : string) : list string :=
  match s with
  | EmptyString => []
  | String c s' =>
      if Ascii.eqb c LF then String c EmptyString :: lines s'
      else match lines s' with
           | [] => [String c EmptyString]
           | l :: ls => String c l :: ls
           end
  end.



(** ** Activation launcher *)

Inductive level : Type := INFO | SUCCESS | ERROR.

(** The log lines of [launch_activated_cmd], by format string. *)
Inductive message : Type :=
| NoEnvironmentName
| LaunchingCmd (env_name env_type : string)
| CondaActivateCommand (conda_activate_command : string)
| ExecutingCommand (cmd : list string)
| PopenCalled
| ErrorLaunching (e : exn).

Inductive event : Type :=
| Log (lv : level) (msg : message)
| Spawned (cmd : list string) (creationflags : Z)
| MessageBoxCritical (title : string) (msg : message).

Definition CREATE_NEW_CONSOLE : Z := 16.

(** [nt] is [os.name == 'nt']; [path_join] is [os.path.join]; [popen] tells
    whether [subprocess.Popen] started the command ([None]) or raised.  The
    function returns [None] on every path, so the result is how the call
    ended together with the events it caused, in order. *)
Definition launch_activated_cmd (nt : bool)
    (path_join : list string -> string)
    (popen : list string -> Z -> option exn)
    (env_type env_name : string) : outcome unit * list event :=
  if negb (truthy env_name) then
    (Ok tt, [Log ERROR NoEnvironmentName])
  else
    let creationflags := if nt then CREATE_NEW_CONSOLE else 0%Z in
    let '(command_to_run, logged) :=
      if String.eqb env_type "venv" then
        let activation_script := path_join [env_name; "Scripts"; "activate.bat"] in
        ("call " +:+ activation_script +:+ " && where python && python --version",
         [])
      else if String.eqb env_type "conda" then
        let conda_activate_command :=
          "conda activate " +:+ env_name +:+ " && conda info --envs" in
        (conda_activate_command,
         [Log INFO (CondaActivateCommand conda_activate_command)])
      else ("echo Error: Unknown environment type && pause", []) in
    let cmd := if nt then ["cmd.exe"; "/K"; command_to_run]
               else ["/bin/bash"; "-c"; command_to_run] in
    (Ok tt,
     (Log INFO (LaunchingCmd env_name env_type) :: logged
      ++ Log INFO (ExecutingCommand cmd)
      :: match popen cmd creationflags with
         | None => [Spawned cmd creationflags; Log SUCCESS PopenCalled]
         | Some e => [Log ERROR (ErrorLaunching e);
                      MessageBoxCritical "Activation Error" (ErrorLaunching e)]
         end)%list).

Definition spawns (evs : list event) : list (list string) :=
  flat_map (fun ev => match ev with Spawned cmd _ => [cmd] | _ => [] end) evs.

(** ** Environment registry: conda

    [spawn_output] is the operating system's answer to running a command
    with its output captured: the exception raised when it cannot be started
    or its output does not decode, or the exit code and the decoded text the
    child wrote. *)

(** [subprocess.check_output(cmd, text=True, stderr=subprocess.STDOUT)] *)
Definition check_output (spawn_output : list string -> outcome (Z * string))
    (cmd : list string) : outcome string :=
  match spawn_output cmd with
  | Raise e => Raise e
  | Ok (0%Z, out) => Ok out
  | Ok (rc, _) => Raise (CalledProcessError rc)
  end.


(** The characters [str.splitlines] breaks at, for code points below 256. *)
Definition is_linebreak (c : ascii) : bool :=
  let n := code c in
  ((10 <=? n) && (n <=? 13) || (28 <=? n) && (n <=? 30) || (n =? 133))%N.

(** [s.splitlines()]: the lines without their line ends; [\r\n] is one
    line end. *)
Fixpoint splitlines (s : string) : list string :=
  match s with
  | EmptyString => []
  | String c s' =>
      if is_linebreak c then
        EmptyString ::
          (if Ascii.eqb c CR then
             match s' with
             | String d s'' => if Ascii.eqb d LF then splitlines s'' else splitlines s'
             | EmptyString => []
             end
           else splitlines s')
      else
        match s' with
        | EmptyString => [String c EmptyString]
        | String _ _ =>
            match splitlines s' with
            | l :: ls => String c l :: ls
            | [] => [String c EmptyString]
            end
        end
  end.

(** [s.split()]: the fields between runs of whitespace. *)
Fixpoint split_ws (s : string) : list string :=
  match s with
  | EmptyString => []
  | String c s' =>
      if isspace c then split_ws s'
      else
        match s' with
        | EmptyString => [String c EmptyString]
        | String d _ =>
            if isspace d then String c EmptyString :: split_ws s'
            else match split_ws s' with
                 | h :: t => String c h :: t
                 | [] => [String c EmptyString]
                 end
        end
  end.

(** One round of the [for] loop of [list_conda_envs].  A line that passes
    the test has a first field, so [line.split()[0]] cannot fail; the empty
    case only makes the function total. *)
Definition conda_env_step (envs : list string) (line : string) : list string :=
  if truthy (strip line) && negb (starts_with "#" line) && occurs " " line
  then match split_ws line with
       | field :: _ => let env_name := strip field in (envs ++ [env_name])%list
       | [] => envs
       end
  else envs.

(** The error line of the [except] branch goes to the terminal only. *)
Definition list_conda_envs (spawn_output : list string -> outcome (Z * string))
    : outcome (list string) :=
  match check_output spawn_output ["conda"; "env"; "list"] with
  | Ok result => Ok (fold_left conda_env_step (splitlines result) [])
  | Raise (CalledProcessError _) => Ok []
  | Raise FileNotFoundError => Ok []
  | Raise e => Raise e
  end.

(** ** Installing Python *)

(** [PYTHON_DOWNLOAD_URL.format(version_full=version_full)] *)
Definition PYTHON_DOWNLOAD_URL (version_full : string) : string :=
  "https://www.python.org/ftp/python/" +:+ version_full +:+ "/python-"
  +:+ version_full +:+ "-amd64.exe".

(** The log lines of [download_and_install_python], by format string. *)
Inductive install_message : Type :=
| DownloadingInstaller (version_full download_url : string)
| InstallerDownloaded (installer_path : string)
| ErrorDownloading (e : string)
| InstallingPython (version_full : string)
| InstalledSuccessfully (version_full : string)
| ErrorInstalling (version_full : string) (returncode : Z)
| ErrorDeletingInstaller (e : string).

Inductive install_event : Type :=
| InstallLog (lv : level) (msg : install_message)
| Urlretrieve (download_url installer_path : string)
| RunInstaller (cmd : list string)
| OsRemove (installer_path : string)
| InstallMessageBox (title : string) (msg : install_message).

(** [get] answers the request of [get_full_version]; [urlretrieve] and
    [os_remove] answer with [None] or with the text of the exception they
    raise; [spawn_wait] answers [subprocess.check_call].  The branch for
    [version_full is None] is left out: [get_full_version] returns a string.
    The result is how the call ended and what it did, in order. *)
Definition download_and_install_python (get : fetched)
    (urlretrieve : string -> string -> option string)
    (spawn_wait : list string -> outcome Z)
    (os_remove : string -> option string)
    (version_display : string) : outcome bool * list install_event :=
  let version_full := get_full_version get version_display in
  let download_url := PYTHON_DOWNLOAD_URL version_full in
  let installer_path := "python-" +:+ version_full +:+ "-installer.exe" in
  let started :=
    [InstallLog INFO (DownloadingInstaller version_full download_url);
     Urlretrieve download_url installer_path] in
  match urlretrieve download_url installer_path with
  | Some e =>
      (Ok false,
       (started ++ [InstallLog ERROR (ErrorDownloading e);
                    InstallMessageBox "Download Error" (ErrorDownloading e)])%list)
  | None =>
      let cmd := [installer_path; "/passive"; "/norestart"] in
      let downloaded :=
        (started ++ [InstallLog SUCCESS (InstallerDownloaded installer_path);
                     InstallLog INFO (InstallingPython version_full);
                     RunInstaller cmd])%list in
      let finally :=
        OsRemove installer_path
        :: match os_remove installer_path with
           | Some e => [InstallLog ERROR (ErrorDeletingInstaller e)]
           | None => []
           end in
      match check_call spawn_wait cmd with
      | Ok _ =>
          (Ok true,
           (downloaded ++ [InstallLog SUCCESS (InstalledSuccessfully version_full)]
            ++ finally)%list)
      | Raise (CalledProcessError rc) =>
          (Ok false,
           (downloaded
            ++ [InstallLog ERROR (ErrorInstalling version_full rc);
                InstallMessageBox "Installation Error" (ErrorInstalling version_full rc)]
            ++ finally)%list)
      | Raise e => (Raise e, (downloaded ++ finally)%list)
      end
  end.

(** ** The pages that use the backend *)

(** [c.lower()] and [c.isalnum()] on one character, for code points below
    256, the characters of the strings here.  Among them [str.lower] works
    character by character and keeps the length; beyond them it does not
    (U+0130 becomes two code points), and such text is outside the model. *)
Definition lower_char (c : ascii) : ascii :=
  let n := code c in
  if ((65 <=? n) && (n <=? 90) || (192 <=? n) && (n <=? 214)
      || (216 <=? n) && (n <=? 222))%N
  then ascii_of_N (n + 32) else c.

Definition isalnum (c : ascii) : bool :=
  let n := code c in
  ((48 <=? n) && (n <=? 57) || (65 <=? n) && (n <=? 90)
   || (97 <=? n) && (n <=? 122) || (n =? 170) || (178 <=? n) && (n <=? 179)
   || (n =? 181) || (185 <=? n) && (n <=? 186) || (188 <=? n) && (n <=? 190)
   || (192 <=? n) && (n <=? 214) || (216 <=? n) && (n <=? 246)
   || (248 <=? n) && (n <=? 255))%N.

Fixpoint lower (s : string) : string :=
  match s with
  | EmptyString => EmptyString
  | String c s' => String (lower_char c) (lower s')
  end.

(** ["".join(c if c.isalnum() or c == '_' else "_" for c in formatted_name)] *)
Fixpoint underscore_invalid (s : string) : string :=
  match s with
  | EmptyString => EmptyString
  | String c s' =>
      String (if isalnum c || Ascii.eqb c "_" then c else "_"%char)
             (underscore_invalid s')
  end.

(** [CreateVenvPage.format_venv_name]: the text it puts back into the line
    edit. *)
Definition format_venv_name (text : string) : string :=
  let formatted_name := lower text in
  underscore_invalid formatted_name.

(** [x == lit] and the truth value of [x] for what [load_selected_env]
    returns, a string or [None]. *)
Definition is_str (lit : string) (x : option string) : bool :=
  match x with Some s => String.eqb s lit | None => false end.

Definition truthy_opt (x : option string) : bool :=
  match x with Some s => truthy s | None => false end.

Definition shown (x : option string) : string :=
  match x with Some s => s | None => "None" end.


(** [CreateCondaPage.load_and_display] *)
Definition conda_load_and_display (fs : filesystem) : outcome string :=
  match load_selected_env fs with
  | Raise e => Raise e
  | Ok (env_type, env_name) =>
      if is_str "conda" env_type && truthy_opt env_name
      then Ok ("Selected conda env: " +:+ shown env_name)
      else Ok "No conda env selected"
  end.

(** Do all characters of [s] satisfy [p]? *)
Fixpoint all_chars (p : ascii -> bool) (s : string) : bool :=
  match s with
  | EmptyString => true
  | String c s' => p c && all_chars p s'
  end.

(** The characters [format_venv_name] lets through. *)
Definition name_char (c : ascii) : bool := isalnum c || Ascii.eqb c "_".

Definition not_space (c : ascii) : bool := negb (isspace c).

Definition not_linebreak (c : ascii) : bool := negb (is_linebreak c).

(** The text [conda env list] prints: comment lines, one line per
    environment with the name in the first column, and an empty line. *)
Definition conda_comment_line (c : string) : string := "#" +:+ c +:+ NL.

Definition conda_env_line (row : string * string) : string :=
  fst row +:+ " " +:+ snd row +:+ NL.

Definition conda_listing (comments : list string) (rows : list (string * string))
    : string :=
  String.concat "" (map conda_comment_line comments)
  +:+ String.concat "" (map conda_env_line rows) +:+ NL.

(** A row of the listing: a name without whitespace that does not start
    with [#], and the rest of the line. *)
Definition conda_row_ok (row : string * string) : bool :=
  truthy (fst row) && all_chars not_space (fst row)
  && negb (starts_with "#" (fst row)) && all_chars not_linebreak (snd row).

(** ** Values a settings file can hold and give back

    A value as Python holds it has no dictionary with the same key twice;
    an integer is written and read back only while its digits stay within
    the limit the interpreter puts on the conversion between strings and
    [int]. *)

Fixpoint distinct (keys : list string) : bool :=
  match keys with
  | [] => true
  | k :: rest => negb (in_list k rest) && distinct rest
  end.

Fixpoint storable (v : json) : bool :=
  match v with
  | JInt n => int_ok n
  | JArr items => forallb storable items
  | JObj pairs =>
      distinct (map fst pairs)
      && forallb (fun p => match p with (_, x) => storable x end) pairs
  | _ => true
  end.

(** The nesting and the number of values, a bound on what the decoder needs. *)
Fixpoint size (v : json) : nat :=
  match v with
  | JArr items => S (fold_right (fun x acc => S (size x) + acc)%nat 0%nat items)
  | JObj pairs =>
      S (fold_right (fun p acc => match p with (_, x) => S (size x) + acc end)%nat
                    0%nat pairs)
  | _ => 1%nat
  end.

(** What may follow a value in the text [encode] produces. *)
Definition follows (rest : string) : bool :=
  match rest with
  | EmptyString => true
  | String c _ => Ascii.eqb c "," || Ascii.eqb c LF
  end.

(** [save_setting] for each pair in turn, stopping at the first that does
    not succeed. *)
Fixpoint save_settings (nt : bool) (entries : list (string * json))
    (fs : filesystem) : option (outcome filesystem) :=
  match entries with
  | [] => Some (Ok fs)
  | (key, value) :: rest =>
      match save_setting nt key value fs with
      | Some (Ok fs') => save_settings nt rest fs'
      | other => other
      end
  end.

(** The dictionary built by [d[key] = value] for each pair in turn. *)
Definition dict_of (entries : list (string * json)) : list (string * json) :=
  fold_left (fun d p => match p with (k, x) => dict_set k x d end) entries [].

(** A value's text starts with a character that is no whitespace and that
    closes neither an array nor an object. *)
Definition opens_value (c : ascii) : bool :=
  negb (is_ws c) && negb (Ascii.eqb c "]") && negb (Ascii.eqb c "}").

(** The separator between the items of an array or of an object. *)
Definition item_separator (level : nat) : string := "," +:+ newline_indent level.

Definition encode_pair (level : nat) (p : string * json) : string :=
  match p with (k, x) => encode_string k +:+ ": " +:+ encode level x end.

(** What the decoder needs to read a value back. *)
Definition reads_back (v : json) : Prop :=
  forall (fuel depth level : nat) (rest : string),
    (size v <= fuel)%nat -> (nesting v <= depth)%nat -> follows rest = true ->
    scan_once fuel depth (encode level v +:+ rest) = Scanned v rest.

(** [d.get(key)] *)
Fixpoint dict_get (key : string) (d : list (string * json)) : option json :=
  match d with
  | [] => None
  | (k, x) :: d' => if String.eqb k key then Some x else dict_get key d'
  end.

(** The value of the last pair of [entries] that has the key [key]. *)
Fixpoint last_saved (key : string) (entries : list (string * json)) : option json :=
  match entries with
  | [] => None
  | (k, x) :: rest =>
      match last_saved key rest with
      | Some y => Some y
      | None => if String.eqb k key then Some x else None
      end
  end.

(** ** Slots of the pages

    A slot is what it does, in program order: log lines, status bar
    messages, dialogs, updates of widgets, calls into the backend.  The
    answers of the user and of the operating system are arguments.
    Messages are named by their format string, widgets by the attribute of
    the page that holds them. *)

Inductive widget : Type := install_btn | activate_btn | conda_env_combo.

Inductive icon : Type := Information | Question | Critical.

Inductive page_message : Type :=
| VenvCreated (final_name : string)
| PythonNotInstalledAsk (version_display : string)
| UserChoseInstall (version_display : string)
| InstalledProceeding (version_display : string)
| FailedVenvAfterInstall (e_venv : exn)
| InstallFailedAborted (version_display : string)
| InstallCancelled (version_display : string)
| LaunchingTerminal (venv_name : string)
| DownloadingAndInstalling (version : string)
| DownloadingInstallerStatus
| PythonInstalled (version : string)
| InstallationComplete
| FailedToInstall (version : string)
| InstallationFailed
| CondaSelected (selected : string)
| CondaCreationStarted (final_name : string)
| ErrorStartingConda (e : exn)
| CondaCreated (env_name : string)
| CondaCreatedStatus
| CondaFailed (env_name : string) (return_code : Z)
| CondaFailedStatus
| CondaFailedBox (return_code : Z).

(** The command an [InstallWorker] is given: a list of strings, or, on the
    page that installs Python, a function. *)
Inductive worker_command : Type :=
| Argv (cmd : list string)
| Callable (call : unit -> outcome bool * list install_event).

Inductive page_event : Type :=
| PageLog (lv : level) (msg : page_message)
| ShowMessage (msg : page_message) (timeout : Z)
| ClearMessage
| SetEnabled (w : widget) (enabled : bool)
| ComboClear
| ComboAddItems (items : list string)
| SetSelectedLabel (text : string)
| MessageBox (i : icon) (title : string) (msg : page_message)
| AppendPlainText (line : string)
| Launched (ev : event)
| Installed (ev : install_event)
| WorkerStarted (command : worker_command) (env_name : string).

(** *** The worker on either kind of command *)

(** [subprocess.Popen(command, ...)]: an argument that is neither a string
    nor a sequence raises [TypeError] before anything is started. *)
Definition Popen (popen : list string -> outcome process)
    (command : worker_command) : outcome process :=
  match command with
  | Argv cmd => popen cmd
  | Callable _ => Raise TypeError
  end.

(** [InstallWorker.run], as [run], for a command of either kind. *)
Definition worker_run (popen : list string -> outcome process) (fuel : nat)
    (command : worker_command) (env_name : string)
    : option (list action * outcome unit) :=
  match Popen popen command with
  | Raise e => Some ([], Raise e)
  | Ok process => run_spawned fuel process env_name
  end.

(** *** [InstallPythonPage] *)

Definition handle_python_install_completion (return_code : Z) (version : string)
    : list page_event :=
  [ClearMessage; SetEnabled install_btn true]
  ++ (if (return_code =? 0)%Z then
        [MessageBox Information "Installation Complete" (PythonInstalled version);
         PageLog SUCCESS (PythonInstalled version);
         ShowMessage InstallationComplete 3000;
         SetEnabled install_btn false]
      else
        [MessageBox Critical "Installation Failed" (FailedToInstall version);
         PageLog ERROR (FailedToInstall version);
         ShowMessage InstallationFailed 5000])%list.

(** The slots connected to the two signals of the worker; the handler takes
    the version of the page, not the label the signal carries. *)
Definition install_page_slot (version : string) (sig : signal) : list page_event :=
  match sig with
  | output_signal line => [AppendPlainText line]
  | finished_signal code _ => handle_python_install_completion code version
  end.

(** [start_python_installation], followed by what the slots do with the
    signals of the worker it starts.  The second component is how [run]
    ended inside the worker thread. *)
Definition start_python_installation
    (popen : list string -> outcome process) (fuel : nat)
    (get : fetched) (urlretrieve : string -> string -> option string)
    (spawn_wait : list string -> outcome Z) (os_remove : string -> option string)
    (version : string) : option (list page_event * outcome unit) :=
  let command :=
    Callable (fun _ => download_and_install_python get urlretrieve spawn_wait
                         os_remove version) in
  let started :=
    [SetEnabled install_btn false;
     PageLog INFO (DownloadingAndInstalling version);
     ShowMessage DownloadingInstallerStatus 0;
     WorkerStarted command version] in
  match worker_run popen fuel command version with
  | None => None
  | Some (trace, ended) =>
      Some ((started ++ flat_map (install_page_slot version) (signals trace))%list,
            ended)
  end.

(** *** [CreateVenvPage] *)

Section VenvPage.
Variables (nt : bool) (path_join : list string -> string)
  (popen : list string -> Z -> option exn).

(** [dialog_open] tells whether the dialog was closed with the button that
    launches the terminal. *)
Definition show_activation_info (dialog_open : bool) (venv_name : string)
    : list page_event :=
  MessageBox Information "Launching Activated Terminal" (LaunchingTerminal venv_name)
  :: (if dialog_open
      then map Launched (snd (launch_activated_cmd nt path_join popen "venv" venv_name))
      else []).

(** The five lines that follow [create_virtual_env] in both places where it
    is called: the new state of the file system and what is shown. *)
Definition venv_created (dialog_open : bool) (final_name : string)
    (fs : filesystem) : filesystem * list page_event :=
  (save_selected_env nt "venv" final_name fs,
   PageLog SUCCESS (VenvCreated final_name)
   :: ShowMessage (VenvCreated final_name) 3000
   :: show_activation_info dialog_open final_name).

(** [create_and_show_info].  [spawn_output] answers the version check;
    [exists_] and [spawn_wait] answer [create_virtual_env] in the [try]
    block, [exists_after] and [spawn_wait_after] answer it after the
    installer has run; [install_answer] tells whether the question was
    answered with Yes.  The second handler for [CalledProcessError] is never
    entered, the first one takes the exception, and is left out.  The
    result is how the slot ended, the file system, and what the page did.
    The file system follows the one file the slot itself writes, the
    settings file; the directory [py -m venv] makes, the installer that is
    downloaded and removed, and what the installer does to the machine are
    the work of other programs and show as events only. *)
Definition create_and_show_info
    (spawn_output : list string -> outcome (Z * string))
    (exists_ : string -> bool) (spawn_wait : list string -> outcome Z)
    (install_answer : bool)
    (get : fetched) (urlretrieve : string -> string -> option string)
    (installer_wait : list string -> outcome Z)
    (os_remove : string -> option string)
    (exists_after : string -> bool) (spawn_wait_after : list string -> outcome Z)
    (dialog_open : bool) (fuel : nat)
    (text version_display : string) (fs : filesystem)
    : option (outcome unit * filesystem * list page_event) :=
  let name := strip text in
  let tried : option (outcome (filesystem * list page_event)) :=
    match check_output spawn_output ["py"; "-" +:+ version_display; "--version"] with
    | Raise e => Some (Raise e)
    | Ok _ =>
        match create_virtual_env exists_ spawn_wait fuel name version_display with
        | None => None
        | Some (Raise e) => Some (Raise e)
        | Some (Ok final_name) => Some (Ok (venv_created dialog_open final_name fs))
        end
    end in
  match tried with
  | None => None
  | Some (Ok (fs', shown)) => Some (Ok tt, fs', shown)
  | Some (Raise (CalledProcessError _)) =>
      let ask :=
        MessageBox Question "Python Not Found" (PythonNotInstalledAsk version_display) in
      if install_answer then
        let (installed, did) :=
          download_and_install_python get urlretrieve installer_wait os_remove
            version_display in
        let before :=
          ask :: PageLog INFO (UserChoseInstall version_display)
          :: map Installed did in
        match installed with
        | Raise e => Some (Raise e, fs, before)
        | Ok true =>
            let proceeding :=
              (before ++ [PageLog SUCCESS (InstalledProceeding version_display)])%list in
            match create_virtual_env exists_after spawn_wait_after fuel name
                    version_display with
            | None => None
            | Some (Ok final_name) =>
                let (fs', shown) := venv_created dialog_open final_name fs in
                Some (Ok tt, fs', (proceeding ++ shown)%list)
            | Some (Raise (CalledProcessError rc)) =>
                let e_venv := CalledProcessError rc in
                Some (Ok tt, fs,
                      (proceeding ++ [PageLog ERROR (FailedVenvAfterInstall e_venv);
                                      ShowMessage (FailedVenvAfterInstall e_venv) 5000])%list)
            | Some (Raise e) => Some (Raise e, fs, proceeding)
            end
        | Ok false =>
            Some (Ok tt, fs,
                  (before ++ [PageLog ERROR (InstallFailedAborted version_display);
                              ShowMessage (InstallFailedAborted version_display) 5000])%list)
        end
      else
        Some (Ok tt, fs,
              [ask; PageLog INFO (InstallCancelled version_display);
               ShowMessage (InstallCancelled version_display) 3000])
  | Some (Raise e) => Some (Raise e, fs, [])
  end.

End VenvPage.

(** *** [CreateCondaPage] *)

(** The entry of the list of environments when there is none. *)
Definition NO_CONDA_ENVS : string := "No conda envs found.".

Section CondaPage.
Variables (nt : bool) (path_join : list string -> string)
  (popen : list string -> Z -> option exn).

(** [load_conda_envs]: [spawn_output] answers [conda env list]. *)
Definition load_conda_envs (spawn_output : list string -> outcome (Z * string))
    : outcome unit * list page_event :=
  match list_conda_envs spawn_output with
  | Raise e => (Raise e, [ComboClear])
  | Ok [] =>
      (Ok tt,
       [ComboClear; ComboAddItems [NO_CONDA_ENVS];
        SetEnabled conda_env_combo false; SetEnabled activate_btn false])
  | Ok envs =>
      (Ok tt,
       [ComboClear; SetEnabled conda_env_combo true; SetEnabled activate_btn true;
        ComboAddItems envs])
  end.

(** [show_existing_activation_info]: [selected] is the current text of the
    list of environments, [dialog_open] tells whether the dialog was closed
    with the button that launches a terminal. *)
Definition show_existing_activation_info (selected : string) (dialog_open : bool)
    (fs : filesystem) : outcome unit * filesystem * list page_event :=
  if String.eqb selected NO_CONDA_ENVS then (Ok tt, fs, [])
  else
    let fs' := save_selected_env nt "conda" selected fs in
    match conda_load_and_display fs' with
    | Raise e => (Raise e, fs', [])
    | Ok label =>
        (Ok tt, fs',
         SetSelectedLabel label
         :: MessageBox Information "Activation Instructions" (CondaSelected selected)
         :: (if dialog_open
             then map Launched
                    (snd (launch_activated_cmd nt path_join popen "conda" selected))
             else []))
    end.







End CondaPage.


(** The names the venv page reports as created. *)
Definition created_names (did : list page_event) : list string :=
  flat_map (fun ev => match ev with
                      | PageLog SUCCESS (VenvCreated final_name) => [final_name]
                      | _ => []
                      end) did.

(** The downloads a page started. *)
Definition downloads (did : list page_event) : list (string * string) :=
  flat_map (fun ev => match ev with
                      | Installed (Urlretrieve download_url installer_path) =>
                          [(download_url, installer_path)]
                      | _ => []
                      end) did.

(* ================================================================== *)
(** * Properties *)

(** ** The file system *)

Lemma fs_lookup_insert_eq (fs : filesystem) (path data : string) :
  (<[path := data]> fs) !! path = Some data.
Proof. apply (lookup_insert_eq (contents fs)). Qed.


Lemma fs_insert_insert_eq (fs : filesystem) (path a b : string) :
  <[path := a]> (<[path := b]> fs) = <[path := a]> fs.
Proof.
  unfold insert, filesystem_insert. cbn [contents undecodable]. f_equal.
  - apply insert_insert_eq.
  - apply leibniz_equiv. intros q. rewrite !elem_of_difference. tauto.
Qed.

Lemma fs_insert_decodes (fs : filesystem) (path data : string) :
  decodes path (<[path := data]> fs) = true.
Proof.
  unfold decodes. apply negb_true_iff, bool_decide_eq_false.
  unfold insert, filesystem_insert. cbn [undecodable].
  rewrite elem_of_difference, elem_of_singleton. tauto.
Qed.

Lemma open_r_insert (fs : filesystem) (path data : string) :
  open_r path (<[path := data]> fs) = Ok (universal_newlines data).
Proof. unfold open_r. now rewrite fs_lookup_insert_eq, fs_insert_decodes. Qed.

(** ** Strings *)

Lemma append_empty_r (s : string) : s +:+ "" = s.
Proof. induction s as [|c s IH]; simpl; [reflexivity|now rewrite IH]. Qed.

(** ** Lists *)

Lemma forallb_false {A : Type} (f : A -> bool) (l : list A) :
  forallb f l = false -> exists x, In x l /\ f x = false.
Proof.
  induction l as [|a l IH]; simpl; [discriminate|].
  destruct (f a) eqn:E; simpl.
  - intros H. destruct (IH H) as [x [Hx Hf]]. exists x. auto.
  - intros _. exists a. auto.
Qed.

(** ** Environment registry *)

Lemma numbered_zero (b : string) : numbered b 0 = b.
Proof. reflexivity. Qed.

Lemma numbered_succ (b : string) (n : nat) :
  numbered b (S n) = b +:+ "_" +:+ str_of_nat (S n).
Proof. reflexivity. Qed.

Section NameLoop.
Variable taken : string -> bool.
Variable b : string.

(** The loop started at candidate [num] stops at the first free candidate
    [num + k], provided the fuel covers the [k] occupied ones. *)
Lemma name_loop_first_free :
  forall (k fuel num : nat),
    (forall i, (i < k)%nat -> taken (numbered b (num + i)) = true) ->
    taken (numbered b (num + k)) = false ->
    (k < fuel)%nat ->
    name_loop taken b fuel num (numbered b num) = Some (numbered b (num + k)).
Proof.
  induction k as [|k IH]; intros fuel num Hlt Hfree Hfuel.
  - destruct fuel as [|fuel]; [lia|]. simpl.
    rewrite Nat.add_0_r in Hfree. rewrite Hfree. now rewrite Nat.add_0_r.
  - destruct fuel as [|fuel]; [lia|]. simpl.
    pose proof (Hlt 0%nat ltac:(lia)) as H0. rewrite Nat.add_0_r in H0.
    rewrite H0.
    rewrite (IH fuel (num + 1)%nat).
    + f_equal. f_equal. lia.
    + intros i Hi. replace (num + 1 + i)%nat with (num + S i)%nat by lia.
      apply Hlt. lia.
    + replace (num + 1 + k)%nat with (num + S k)%nat by lia. exact Hfree.
    + lia.
Qed.

(** Below a free candidate there is a least free one. *)
Lemma least_free :
  forall j, taken (numbered b j) = false ->
    exists k, (k <= j)%nat /\ taken (numbered b k) = false /\
              forall i, (i < k)%nat -> taken (numbered b i) = true.
Proof.
  induction j as [j IH] using lt_wf_ind. intros Hj.
  destruct (forallb (fun i => taken (numbered b i)) (seq 0 j)) eqn:Hall.
  - exists j. split; [lia|]. split; [exact Hj|].
    intros i Hi. rewrite forallb_forall in Hall. apply Hall.
    apply in_seq. lia.
  - apply forallb_false in Hall as [i [Hi Hf]]. apply in_seq in Hi.
    destruct (IH i ltac:(lia) Hf) as [k [Hk [Hkf Hkl]]].
    exists k. split; [lia|]. split; assumption.
Qed.
End NameLoop.

Lemma str_of_nat_inj (i j : nat) : str_of_nat i = str_of_nat j -> i = j.
Proof.
  unfold str_of_nat. intros H.
  assert (Some (Nat.to_uint i) = Some (Nat.to_uint j)) as Hu.
  { rewrite <- !NilEmpty.usu. now rewrite H. }
  injection Hu as Hu.
  rewrite <- (Unsigned.of_to i), <- (Unsigned.of_to j). now rewrite Hu.
Qed.

(** The candidates of one base name are pairwise different. *)
Lemma numbered_inj (b : string) (i j : nat) :
  numbered b i = numbered b j -> i = j.
Proof.
  destruct i as [|i], j as [|j]; [reflexivity| | |].
  - rewrite numbered_zero, numbered_succ. intros H.
    rewrite <- (append_empty_r b) in H at 1.
    apply String.app_inj in H. discriminate H.
  - rewrite numbered_zero, numbered_succ. intros H.
    symmetry in H. rewrite <- (append_empty_r b) in H at 1.
    apply String.app_inj in H. discriminate H.
  - rewrite !numbered_succ. intros H.
    apply String.app_inj in H. injection H as H.
    now apply str_of_nat_inj.
Qed.

Lemma in_list_In (x : string) (l : list string) : in_list x l = true <-> In x l.
Proof.
  unfold in_list. rewrite existsb_exists. split.
  - intros [y [Hy E]]. apply String.eqb_eq in E. now subst y.
  - intros H. exists x. split; [exact H|apply String.eqb_refl].
Qed.

(** A finite list of names cannot hold every candidate. *)
Lemma candidate_free (b : string) (envs : list string) :
  exists j, in_list (numbered b j) envs = false.
Proof.
  destruct (forallb (fun j => in_list (numbered b j) envs)
                    (seq 0 (S (length envs)))) eqn:Hall.
  - exfalso.
    assert (NoDup (numbered b <$> seq 0 (S (length envs)))) as Hnd.
    { apply NoDup_fmap_2; [|apply NoDup_seq]. intros i j. apply numbered_inj. }
    assert (numbered b <$> seq 0 (S (length envs)) ⊆+ envs) as Hsub.
    { apply NoDup_submseteq; [exact Hnd|].
      intros x Hx. apply list_elem_of_fmap in Hx as [j [-> Hj]].
      apply list_elem_of_In, in_list_In.
      rewrite forallb_forall in Hall. apply Hall. now apply list_elem_of_In. }
    apply submseteq_length in Hsub.
    rewrite length_fmap, length_seq in Hsub. lia.
  - apply forallb_false in Hall as [j [_ Hj]]. exists j. exact Hj.
Qed.

(** [create_virtual_env] once the loop is known to stop at candidate [k]. *)
Lemma create_virtual_env_at (exists_ : string -> bool)
    (spawn_wait : list string -> outcome Z) (env_name python_version : string)
    (k fuel : nat) :
  let b := base_name_of env_name in
  exists_ (numbered b k) = false ->
  (forall i, (i < k)%nat -> exists_ (numbered b i) = true) ->
  (k < fuel)%nat ->
  create_virtual_env exists_ spawn_wait fuel env_name python_version
  = Some (match check_call spawn_wait
                  ["py"; "-" +:+ python_version; "-m"; "venv"; numbered b k]
          with
          | Raise e => Raise e
          | Ok _ => Ok (numbered b k)
          end).
Proof.
  intros b Hfree Hbelow Hfuel.
  pose proof (name_loop_first_free exists_ b k fuel 0 Hbelow Hfree Hfuel) as Hloop.
  rewrite numbered_zero in Hloop. change (0 + k)%nat with k in Hloop.
  unfold create_virtual_env. cbv zeta. subst b. rewrite Hloop.
  destruct (check_call spawn_wait _); reflexivity.
Qed.

(** C8. The base name is ["myenv"] when the given name is empty.  For every
    existence predicate that leaves some candidate of the sequence
    [b, b_1, b_2, ...] free, the loop of [create_virtual_env] settles on the
    first candidate that does not exist: every candidate with a smaller
    number exists, and none was skipped.  When the names that exist are
    finitely many, the paths present for [create_virtual_env] and the list
    [list_conda_envs()] returns for [create_conda_env], some candidate is
    always free and the function returns the first one. *)
Theorem unique_name_is_first_free (env_name : string) :
  let b := base_name_of env_name in
  (env_name = "" -> b = "myenv") /\
  (env_name <> "" -> b = env_name) /\
  (forall (exists_ : string -> bool),
      (exists j, exists_ (numbered b j) = false) ->
      exists k,
        exists_ (numbered b k) = false /\
        (forall i, (i < k)%nat -> exists_ (numbered b i) = true) /\
        forall fuel spawn_wait python_version, (k < fuel)%nat ->
          create_virtual_env exists_ spawn_wait fuel env_name python_version
          = Some (match check_call spawn_wait
                          ["py"; "-" +:+ python_version; "-m"; "venv"; numbered b k]
                  with
                  | Raise e => Raise e
                  | Ok _ => Ok (numbered b k)
                  end)) /\
  (forall (existing_paths : list string),
      exists k,
        in_list (numbered b k) existing_paths = false /\
        (forall i, (i < k)%nat -> in_list (numbered b i) existing_paths = true) /\
        forall fuel spawn_wait python_version, (k < fuel)%nat ->
          create_virtual_env (fun path => in_list path existing_paths)
            spawn_wait fuel env_name python_version
          = Some (match check_call spawn_wait
                          ["py"; "-" +:+ python_version; "-m"; "venv"; numbered b k]
                  with
                  | Raise e => Raise e
                  | Ok _ => Ok (numbered b k)
                  end)) /\
  (forall (list_conda_envs : list string),
      exists k,
        in_list (numbered b k) list_conda_envs = false /\
        (forall i, (i < k)%nat -> in_list (numbered b i) list_conda_envs = true) /\
        forall fuel, (k < fuel)%nat ->
          create_conda_env list_conda_envs fuel env_name = Some (numbered b k)).
Proof.
  intros b. split; [|split; [|split; [|split]]].
  - intros ->. reflexivity.
  - intros Hne. subst b. destruct env_name; [congruence|reflexivity].
  - intros exists_ [j Hj].
    destruct (least_free exists_ b j Hj) as [k [_ [Hfree Hbelow]]].
    exists k. split; [exact Hfree|]. split; [exact Hbelow|].
    intros fuel spawn_wait python_version Hfuel.
    now apply create_virtual_env_at.
  - intros paths. destruct (candidate_free b paths) as [j Hj].
    destruct (least_free (fun n => in_list n paths) b j Hj) as [k [_ [Hfree Hbelow]]].
    exists k. split; [exact Hfree|]. split; [exact Hbelow|].
    intros fuel spawn_wait python_version Hfuel.
    now apply (create_virtual_env_at (fun n => in_list n paths)).
  - intros envs. destruct (candidate_free b envs) as [j Hj].
    destruct (least_free (fun n => in_list n envs) b j Hj) as [k [_ [Hfree Hbelow]]].
    exists k. split; [exact Hfree|]. split; [exact Hbelow|].
    intros fuel Hfuel.
    exact (name_loop_first_free (fun n => in_list n envs) b k fuel 0 Hbelow Hfree Hfuel).
Qed.

Lemma unique_name_is_first_free_witness :
  exists k,
    String.eqb "myenv" (numbered "myenv" k)
    || String.eqb "myenv_1" (numbered "myenv" k) = false /\
    (forall i, (i < k)%nat ->
       String.eqb "myenv" (numbered "myenv" i)
       || String.eqb "myenv_1" (numbered "myenv" i) = true) /\
    forall fuel spawn_wait python_version, (k < fuel)%nat ->
      create_virtual_env
        (fun path => String.eqb "myenv" path || String.eqb "myenv_1" path)
        spawn_wait fuel "" python_version
      = Some (match check_call spawn_wait
                      ["py"; "-" +:+ python_version; "-m"; "venv"; numbered "myenv" k]
              with
              | Raise e => Raise e
              | Ok _ => Ok (numbered "myenv" k)
              end).
Proof.
  apply (proj1 (proj2 (proj2 (unique_name_is_first_free "")))
           (fun path => String.eqb "myenv" path || String.eqb "myenv_1" path)).
  exists 2%nat. reflexivity.
Defined.

(** ** Process runner *)





Lemma concat_empty_cons (x : string) (l : list string) :
  String.concat "" (x :: l) = x +:+ String.concat "" l.
Proof. destruct l; simpl; [now rewrite append_empty_r|reflexivity]. Qed.









Lemma signals_app (t1 t2 : list action) :
  signals (t1 ++ t2) = (signals t1 ++ signals t2)%list.
Proof.
  induction t1 as [|a t1 IH]; [reflexivity|].
  destruct a; simpl; now rewrite IH.
Qed.






(** C7. A job whose executable cannot be started: [Popen] raises inside
    [run], before any signal is emitted, and no handler turns the exception
    into a signal.  A job that ran and exited with code 1 ends with its one
    terminal event. *)
Theorem run_spawn_failure_emits_nothing :
  (exists trace,
     run (fun _ => Raise FileNotFoundError) 1 ["no-such-tool"; "create"] "env1"
     = Some (trace, Raise FileNotFoundError) /\
     signals trace = []) /\
  (exists trace,
     run (fun _ => Ok {| stdout := ""; garbled := false; returncode := 1 |}) 1
         ["conda"; "create"] "env1" = Some (trace, Ok tt) /\
     signals trace = [finished_signal 1 "env1"]).
Proof. split; eexists; split; reflexivity. Qed.

(** ** Activation launcher *)

(** C6, as the code has it.  With an empty name the launcher logs an error,
    returns normally and starts nothing.  With a name and an environment
    kind other than ["venv"] and ["conda"] it raises nothing either: it
    hands the shell the command
    [echo Error: Unknown environment type && pause] and starts it. *)
Theorem launch_rejects_only_empty_name
    (nt : bool) (path_join : list string -> string)
    (popen : list string -> Z -> option exn) (env_type env_name : string) :
  (env_name = "" ->
   launch_activated_cmd nt path_join popen env_type env_name
   = (Ok tt, [Log ERROR NoEnvironmentName])) /\
  (env_name <> "" -> env_type <> "venv" -> env_type <> "conda" ->
   let cmd := if nt
              then ["cmd.exe"; "/K"; "echo Error: Unknown environment type && pause"]
              else ["/bin/bash"; "-c"; "echo Error: Unknown environment type && pause"] in
   let creationflags := if nt then CREATE_NEW_CONSOLE else 0%Z in
   launch_activated_cmd nt path_join popen env_type env_name
   = (Ok tt,
      [Log INFO (LaunchingCmd env_name env_type); Log INFO (ExecutingCommand cmd)]
      ++ match popen cmd creationflags with
         | None => [Spawned cmd creationflags; Log SUCCESS PopenCalled]
         | Some e => [Log ERROR (ErrorLaunching e);
                      MessageBoxCritical "Activation Error" (ErrorLaunching e)]
         end)%list).
Proof.
  split.
  - intros ->. reflexivity.
  - intros Hname Hvenv Hconda cmd creationflags.
    unfold launch_activated_cmd.
    destruct env_name as [|c name]; [congruence|]. simpl truthy. simpl negb.
    cbv iota.
    apply String.eqb_neq in Hvenv, Hconda. rewrite Hvenv, Hconda.
    subst cmd creationflags. destruct nt; reflexivity.
Qed.

Lemma launch_rejects_only_empty_name_witness :
  launch_activated_cmd true (String.concat "\") (fun _ _ => None) "docker" ""
  = (Ok tt, [Log ERROR NoEnvironmentName]) /\
  spawns (snd (launch_activated_cmd true (String.concat "\") (fun _ _ => None)
                 "docker" "env1"))
  = [["cmd.exe"; "/K"; "echo Error: Unknown environment type && pause"]].
Proof.
  split.
  - apply (proj1 (launch_rejects_only_empty_name true (String.concat "\")
                    (fun _ _ => None) "docker" "")). reflexivity.
  - rewrite (proj2 (launch_rejects_only_empty_name true (String.concat "\")
                      (fun _ _ => None) "docker" "env1"));
      [reflexivity | discriminate | discriminate | discriminate].
Defined.

(** The launcher called with a name and the kind ["docker"]: no failure is
    signalled and a shell is started. *)
Lemma launch_unknown_kind_spawns :
  let r := launch_activated_cmd true (String.concat "\") (fun _ _ => None)
             "docker" "env1" in
  r = (Ok tt,
       [Log INFO (LaunchingCmd "env1" "docker");
        Log INFO (ExecutingCommand
                    ["cmd.exe"; "/K"; "echo Error: Unknown environment type && pause"]);
        Spawned ["cmd.exe"; "/K"; "echo Error: Unknown environment type && pause"] 16;
        Log SUCCESS PopenCalled]) /\
  ~ (is_raise (fst r) = true /\ spawns (snd r) = []).
Proof.
  split; [reflexivity|]. intros [H _]. discriminate H.
Qed.

(** ** Version resolver *)

Lemma insert_desc_In (v x : string) (l : list string) :
  In v (insert_desc x l) -> v = x \/ In v l.
Proof.
  induction l as [|y l IH]; simpl.
  - intros [->|[]]. now left.
  - destruct (String.ltb y x); simpl.
    + intros [->|[->|H]]; auto.
    + intros [->|H]; auto. destruct (IH H); auto.
Qed.

Lemma sort_reverse_In (v : string) (l : list string) :
  In v (sort_reverse l) -> In v l.
Proof.
  induction l as [|x l IH]; simpl; [auto|].
  intros H. apply insert_desc_In in H. destruct H as [->|H]; auto.
Qed.

(** A key no version maps to stays absent from [version_map]. *)
Lemma build_version_map_absent (versions : list string) (key : string) :
  (forall v, In v versions -> major_minor_of v <> key) ->
  build_version_map versions !! key = None.
Proof.
  unfold build_version_map.
  assert (forall (m : gmap string string),
             m !! key = None ->
             (forall v, In v versions -> major_minor_of v <> key) ->
             fold_left (fun version_map full_version =>
                          <[major_minor_of full_version := full_version]> version_map)
                       versions m !! key = None) as Hgen.
  { induction versions as [|x versions IH]; intros m Hm Habs; [exact Hm|].
    simpl. apply IH.
    - rewrite lookup_insert_ne; [exact Hm|]. apply Habs. now left.
    - intros v Hv. apply Habs. now right. }
  intros Habs. apply Hgen; [apply lookup_empty|exact Habs].
Qed.

(** C9. When the request raises, when the status is an error status, or
    when no release of the index has the requested [major.minor],
    [get_full_version] returns the string it was given. *)
Theorem get_full_version_falls_back (get : fetched) (version_display : string) :
  match get with
  | GetRaised _ => True
  | GetReturned r =>
      raise_for_status r <> None \/
      forall v, In v (findall (text r)) -> major_minor_of v <> version_display
  end ->
  get_full_version get version_display = version_display.
Proof.
  destruct get as [e|r]; simpl; [reflexivity|].
  intros H. destruct (raise_for_status r) eqn:Hst; [reflexivity|].
  destruct H as [H|H]; [congruence|].
  rewrite build_version_map_absent; [reflexivity|].
  intros v Hv. apply H. now apply sort_reverse_In.
Qed.

Lemma get_full_version_falls_back_witness :
  get_full_version (GetRaised Timeout) "3.11" = "3.11" /\
  get_full_version
    (GetReturned {| status_code := 503; text := index_page ["9.9.1"] |}) "9.9"
  = "9.9" /\
  get_full_version
    (GetReturned {| status_code := 200;
                    text := index_page ["3.11.0"; "3.11.9"; "3.11.2"; "3.10.8"] |})
    "9.9"
  = "9.9".
Proof.
  split; [|split].
  - apply (get_full_version_falls_back (GetRaised Timeout) "3.11"). exact I.
  - apply (get_full_version_falls_back
             (GetReturned {| status_code := 503; text := index_page ["9.9.1"] |})
             "9.9").
    left. vm_compute. discriminate.
  - apply (get_full_version_falls_back
             (GetReturned {| status_code := 200;
                             text := index_page ["3.11.0"; "3.11.9"; "3.11.2"; "3.10.8"] |})
             "9.9").
    right. intros v Hv. vm_compute in Hv.
    destruct Hv as [<-|[<-|[<-|[<-|[]]]]]; vm_compute; discriminate.
Defined.

Lemma ltb_trans (x y z : string) :
  String.ltb x y = true -> String.ltb y z = true -> String.ltb x z = true.
Proof.
  unfold String.ltb. intros H1 H2.
  destruct (String.compare x y) eqn:Hxy; try discriminate H1.
  destruct (String.compare y z) eqn:Hyz; try discriminate H2.
  pose proof (@transitivity _ _
                (@StrictOrder_Transitive _ _ String_as_OT.lt_strorder)
                x y z Hxy Hyz) as H.
  change (String.compare x z = Lt) in H. now rewrite H.
Qed.

Lemma ltb_false_leb (x y : string) : String.ltb x y = false -> String.leb y x = true.
Proof.
  unfold String.ltb, String.leb. rewrite (String.compare_antisym x y).
  destruct (String.compare y x); simpl; congruence.
Qed.

Lemma ltb_asym (x y : string) : String.ltb y x = true -> String.ltb x y = false.
Proof.
  unfold String.ltb. rewrite (String.compare_antisym x y).
  destruct (String.compare y x); simpl; congruence.
Qed.

Lemma ltb_irrefl (x : string) : String.ltb x x = false.
Proof.
  destruct (String.ltb x x) eqn:E; [|reflexivity].
  pose proof (ltb_asym x x E). congruence.
Qed.

Lemma insert_desc_In_iff (v x : string) (l : list string) :
  In v (insert_desc x l) <-> v = x \/ In v l.
Proof.
  split; [apply insert_desc_In|].
  induction l as [|y l IH]; simpl.
  - intros [->|[]]. now left.
  - destruct (String.ltb y x); simpl; intros [->|[->|H]]; auto.
Qed.

Lemma insert_desc_descending (x : string) (l : list string) :
  descending l -> descending (insert_desc x l).
Proof.
  unfold descending. induction 1 as [|y l Hs IH Hy]; simpl.
  - constructor; constructor.
  - destruct (String.ltb y x) eqn:E.
    + constructor; [constructor; assumption|].
      constructor.
      * now apply ltb_asym.
      * rewrite List.Forall_forall in *. intros z Hz.
        destruct (String.ltb x z) eqn:Hxz; [|reflexivity].
        pose proof (ltb_trans y x z E Hxz) as Hyz.
        specialize (Hy z Hz). congruence.
    + constructor; [exact IH|].
      rewrite List.Forall_forall in *. intros z Hz.
      apply insert_desc_In in Hz. destruct Hz as [->|Hz]; [exact E|auto].
Qed.

Lemma sort_reverse_descending (l : list string) : descending (sort_reverse l).
Proof.
  induction l as [|x l IH]; simpl; [constructor|].
  now apply insert_desc_descending.
Qed.

Lemma sort_reverse_In_iff (v : string) (l : list string) :
  In v (sort_reverse l) <-> In v l.
Proof.
  induction l as [|x l IH]; simpl; [tauto|].
  rewrite insert_desc_In_iff, IH. intuition congruence.
Qed.

(** What the loop leaves under [key]: the last version of the list with that
    [major.minor], or the earlier content of the map. *)
Lemma version_map_fold_app (versions : list string) (v : string)
    (m : gmap string string) :
  fold_left (fun version_map full_version =>
               <[major_minor_of full_version := full_version]> version_map)
            (versions ++ [v]) m
  = <[major_minor_of v := v]>
      (fold_left (fun version_map full_version =>
                    <[major_minor_of full_version := full_version]> version_map)
                 versions m).
Proof. now rewrite fold_left_app. Qed.

Lemma version_map_lookup (versions : list string) (key : string) :
  descending versions ->
  forall r, build_version_map versions !! key = Some r ->
    In r versions /\ major_minor_of r = key /\
    forall v, In v versions -> major_minor_of v = key -> String.ltb v r = false.
Proof.
  unfold build_version_map.
  induction versions as [|x versions IH] using rev_ind; intros Hd r Hr.
  - simpl in Hr. rewrite lookup_empty in Hr. discriminate.
  - rewrite version_map_fold_app in Hr.
    assert (descending versions /\ Forall (fun y => String.ltb y x = false) versions)
      as [Hd' Hx].
    { clear IH Hr. unfold descending in *. induction versions as [|y l IHl]; simpl in *.
      - split; constructor.
      - inversion Hd as [|? ? Hs Hy]; subst.
        destruct (IHl Hs) as [H1 H2]. split.
        + constructor; [exact H1|]. rewrite List.Forall_forall in *.
          intros z Hz. apply Hy. apply in_or_app. now left.
        + constructor; [|exact H2]. rewrite List.Forall_forall in Hy.
          apply Hy. apply in_or_app. right. now left. }
    destruct (decide (major_minor_of x = key)) as [E|E].
    + rewrite E, lookup_insert_eq in Hr. injection Hr as <-.
      split; [apply in_or_app; right; now left|]. split; [exact E|].
      intros v Hv _. apply in_app_or in Hv. destruct Hv as [Hv|[<-|[]]].
      * rewrite List.Forall_forall in Hx. now apply Hx.
      * apply ltb_irrefl.
    + rewrite lookup_insert_ne in Hr by exact E.
      destruct (IH Hd' r Hr) as [Hin [Hmm Hmin]].
      split; [apply in_or_app; now left|]. split; [exact Hmm|].
      intros v Hv Hvk. apply in_app_or in Hv. destruct Hv as [Hv|[<-|[]]].
      * now apply Hmin.
      * congruence.
Qed.

Lemma version_map_present (versions : list string) (key : string) :
  (exists v, In v versions /\ major_minor_of v = key) ->
  exists r, build_version_map versions !! key = Some r.
Proof.
  unfold build_version_map.
  induction versions as [|x versions IH] using rev_ind; intros [v [Hv Hk]].
  - destruct Hv.
  - rewrite version_map_fold_app.
    destruct (decide (major_minor_of x = key)) as [E|E].
    + exists x. rewrite E. apply lookup_insert_eq.
    + rewrite lookup_insert_ne by exact E. apply IH.
      apply in_app_or in Hv. destruct Hv as [Hv|[<-|[]]]; [eauto|congruence].
Qed.

(** X8.  What [get_full_version] computes when the index has releases of the
    requested [major.minor]: one of them, and none of them sorts before it
    as a string. *)
Lemma get_full_version_least (r : response) (version_display : string) :
  raise_for_status r = None ->
  (exists v, In v (findall (text r)) /\ major_minor_of v = version_display) ->
  let found := get_full_version (GetReturned r) version_display in
  In found (findall (text r)) /\
  major_minor_of found = version_display /\
  forall v, In v (findall (text r)) -> major_minor_of v = version_display ->
    String.leb found v = true.
Proof.
  intros Hst [v [Hv Hk]]. simpl. rewrite Hst.
  destruct (version_map_present (sort_reverse (findall (text r))) version_display)
    as [found Hfound].
  { exists v. split; [now apply sort_reverse_In_iff|exact Hk]. }
  rewrite Hfound. simpl.
  destruct (version_map_lookup _ _ (sort_reverse_descending _) found Hfound)
    as [Hin [Hmm Hmin]].
  split; [now apply sort_reverse_In_iff|]. split; [exact Hmm|].
  intros w Hw Hwk. apply ltb_false_leb. apply Hmin; [|exact Hwk].
  now apply sort_reverse_In_iff.
Qed.

(** C1. On the index holding 3.11.0, 3.11.9, 3.11.2 and 3.10.8 the releases
    found are sorted in descending string order and written to [version_map]
    in that order, each replacing the one before: what is left for 3.11 is
    the release sorted last, 3.11.0, not 3.11.9. *)
Theorem get_full_version_returns_lowest_patch :
  let page := index_page ["3.11.0"; "3.11.9"; "3.11.2"; "3.10.8"] in
  findall page = ["3.11.0"; "3.11.9"; "3.11.2"; "3.10.8"] /\
  sort_reverse (findall page) = ["3.11.9"; "3.11.2"; "3.11.0"; "3.10.8"] /\
  get_full_version (GetReturned {| status_code := 200; text := page |}) "3.11"
  = "3.11.0" /\
  get_full_version (GetReturned {| status_code := 200; text := page |}) "3.11"
  <> "3.11.9".
Proof.
  repeat split; try (vm_compute; reflexivity).
  vm_compute. discriminate.
Qed.

(** ** Text files and the selection store *)

Lemma occurs_app (c : ascii) (s t : string) :
  occurs c (s +:+ t) = occurs c s || occurs c t.
Proof.
  induction s as [|d s IH]; simpl; [reflexivity|].
  rewrite IH. now rewrite orb_assoc.
Qed.

(** Text without carriage returns is read back as it was written, on either
    platform. *)
Lemma universal_write (nt : bool) (s : string) :
  occurs CR s = false -> universal_newlines (write_translate nt s) = s.
Proof.
  induction s as [|c s IH]; simpl; [reflexivity|].
  intros H. apply orb_false_elim in H as [Hc Hs]. specialize (IH Hs).
  destruct (nt && Ascii.eqb c LF) eqn:E.
  - apply andb_prop in E as [_ E]. apply Ascii.eqb_eq in E. subst c.
    simpl. now rewrite IH.
  - cbn [universal_newlines]. rewrite Hc. now rewrite IH.
Qed.

Lemma readline_line (t r : string) :
  occurs LF t = false -> readline (t +:+ NL +:+ r) = (t +:+ NL, r).
Proof.
  induction t as [|c t IH]; [reflexivity|].
  intros H. simpl in H. apply orb_false_elim in H as [Hc Ht].
  change (String c t +:+ NL +:+ r) with (String c (t +:+ NL +:+ r)).
  cbn [readline]. rewrite Hc, (IH Ht). reflexivity.
Qed.

Lemma readline_last (t : string) :
  occurs LF t = false -> readline t = (t, EmptyString).
Proof.
  induction t as [|c t IH]; simpl; [reflexivity|].
  intros H. apply orb_false_elim in H as [Hc Ht].
  rewrite Hc, (IH Ht). reflexivity.
Qed.

Lemma rstrip_line (t : string) : rstrip (t +:+ NL) = rstrip t.
Proof.
  induction t as [|c t IH]; [reflexivity|].
  change (String c t +:+ NL) with (String c (t +:+ NL)).
  cbn [rstrip]. now rewrite IH.
Qed.

Lemma strip_line (t : string) : strip (t +:+ NL) = strip t.
Proof. unfold strip. now rewrite rstrip_line. Qed.

(** [save_selected_env] leaves the settings file holding the two-line
    record, whatever it held before, and touches no other path. *)
Lemma save_selected_env_result (nt : bool) (env_type env_name : string)
    (fs : filesystem) :
  save_selected_env nt env_type env_name fs
  = <[SETTINGS_FILE := write_translate nt (env_type +:+ NL +:+ env_name)]> fs.
Proof.
  unfold save_selected_env, save_selected_env_ops, run_ops.
  cbn [fold_left exec_op]. apply fs_insert_insert_eq.
Qed.

Lemma load_selected_env_present (fs : filesystem) (raw : string) :
  fs !! SETTINGS_FILE = Some raw ->
  decodes SETTINGS_FILE fs = true ->
  load_selected_env fs
  = Ok (Some (strip (fst (readline (universal_newlines raw)))),
        Some (strip (fst (readline (snd (readline (universal_newlines raw))))))).
Proof.
  intros H Hd. unfold load_selected_env, open_r. rewrite H, Hd.
  destruct (readline (universal_newlines raw)) as [l1 r1]. simpl.
  destruct (readline r1) as [l2 r2]. reflexivity.
Qed.

Lemma load_selected_env_written (fs : filesystem) (raw : string) :
  load_selected_env (<[SETTINGS_FILE := raw]> fs)
  = Ok (Some (strip (fst (readline (universal_newlines raw)))),
        Some (strip (fst (readline (snd (readline (universal_newlines raw))))))).
Proof.
  apply load_selected_env_present;
    [apply fs_lookup_insert_eq|apply fs_insert_decodes].
Qed.




(** A carriage return inside the name ends the line when the file is read
    back. *)
Lemma save_then_load_cuts_at_carriage_return :
  load_selected_env (save_selected_env false "venv" (String "a" (String CR "b")) ∅)
  = Ok (Some "venv", Some "a").
Proof. vm_compute. reflexivity. Qed.




(** C10, as the code has it.  [save_selected_env] opens the settings file
    itself for writing, which empties it, and writes the record afterwards:
    between the two steps the file is empty and a reader gets a pair of
    empty strings; after the second step the file holds exactly the new
    record. *)
Theorem save_selected_env_overwrites_in_place (nt : bool) (fs : filesystem)
    (env_type env_name : string) :
  let ops := save_selected_env_ops env_type env_name in
  let opened := run_ops nt (firstn 1 ops) fs in
  length ops = 2%nat /\
  opened = <[SETTINGS_FILE := ""]> fs /\
  load_selected_env opened = Ok (Some "", Some "") /\
  run_ops nt ops fs
  = <[SETTINGS_FILE := write_translate nt (env_type +:+ NL +:+ env_name)]> fs.
Proof.
  intros ops opened. split; [reflexivity|]. split; [reflexivity|]. split.
  - subst opened ops. simpl.
    now rewrite load_selected_env_written.
  - apply save_selected_env_result.
Qed.

(** A reader that runs between the two steps of a save sees neither the old
    record nor the new one. *)
Lemma save_selected_env_torn_read :
  let old := save_selected_env true "venv" "old" ∅ in
  let opened := run_ops true (firstn 1 (save_selected_env_ops "conda" "new")) old in
  let new := save_selected_env true "conda" "new" old in
  load_selected_env old = Ok (Some "venv", Some "old") /\
  load_selected_env new = Ok (Some "conda", Some "new") /\
  load_selected_env opened = Ok (Some "", Some "") /\
  ~ (load_selected_env opened = load_selected_env old \/
     load_selected_env opened = load_selected_env new).
Proof.
  repeat split; try (vm_compute; reflexivity).
  vm_compute. intros [H|H]; discriminate H.
Qed.

(** ** The settings dictionary in the same file *)





Lemma save_setting_result (nt : bool) (settings : json) (fs : filesystem) :
  run_ops nt (save_setting_ops settings) fs
  = <[SETTINGS_FILE := write_translate nt (dumps settings)]> fs.
Proof.
  unfold run_ops, save_setting_ops. cbn [fold_left exec_op].
  apply fs_insert_insert_eq.
Qed.

(** The encoder never emits a carriage return: inside strings it is written
    as an escape. *)
Lemma escape_char_no_cr (c : ascii) : occurs CR (escape_char c) = false.
Proof. destruct c as [[] [] [] [] [] [] [] []]; reflexivity. Qed.

Lemma escape_no_cr (s : string) : occurs CR (escape s) = false.
Proof.
  induction s as [|c s IH]; [reflexivity|].
  cbn [escape]. now rewrite occurs_app, escape_char_no_cr, IH.
Qed.

Lemma encode_string_no_cr (s : string) : occurs CR (encode_string s) = false.
Proof.
  unfold encode_string. cbn [String.append]. cbn [occurs].
  rewrite occurs_app, escape_no_cr. reflexivity.
Qed.

Lemma string_of_uint_no_cr (d : Decimal.uint) :
  occurs CR (NilEmpty.string_of_uint d) = false.
Proof. induction d; simpl; auto. Qed.

Lemma str_of_Z_no_cr (n : Z) : occurs CR (str_of_Z n) = false.
Proof.
  unfold str_of_Z. destruct (Z.to_int n); simpl; apply string_of_uint_no_cr.
Qed.

Lemma spaces_no_cr (n : nat) : occurs CR (spaces n) = false.
Proof. induction n; simpl; auto. Qed.

Lemma newline_indent_no_cr (level : nat) : occurs CR (newline_indent level) = false.
Proof. unfold newline_indent. rewrite occurs_app, spaces_no_cr. reflexivity. Qed.

Lemma concat_no_cr (sep : string) (l : list string) :
  occurs CR sep = false -> Forall (fun x : string => occurs CR x = false) l ->
  occurs CR (String.concat sep l) = false.
Proof.
  intros Hsep H. induction H as [|x l Hx Hl IH]; [reflexivity|].
  destruct l as [|y l]; [exact Hx|].
  cbn [String.concat]. rewrite !occurs_app, Hx, Hsep. exact IH.
Qed.

Lemma encode_no_cr : forall (v : json) (level : nat), occurs CR (encode level v) = false.
Proof.
  fix IH 1. intros v level. destruct v as [|b|n|s|items|pairs].
  - reflexivity.
  - destruct b; reflexivity.
  - apply str_of_Z_no_cr.
  - apply encode_string_no_cr.
  - destruct items as [|x items]; [reflexivity|].
    cbn [encode]. rewrite !occurs_app, !newline_indent_no_cr.
    rewrite concat_no_cr; [reflexivity| |].
    + rewrite occurs_app, newline_indent_no_cr. reflexivity.
    + apply Forall_map. 
      assert (forall l : list json, Forall (fun x : json => occurs CR (encode (S level) x) = false) l) as H.
      { induction l; constructor; [apply IH|assumption]. }
      apply H.
  - destruct pairs as [|x pairs]; [reflexivity|].
    cbn [encode]. rewrite !occurs_app, !newline_indent_no_cr.
    rewrite concat_no_cr; [reflexivity| |].
    + rewrite occurs_app, newline_indent_no_cr. reflexivity.
    + apply Forall_map.
      assert (forall l : list (string * json), Forall (fun p : string * json => occurs CR (let (k, x) := p in encode_string k +:+ ": " +:+ encode (S level) x) = false) l) as H.
      { induction l as [|[k y] l IHl]; constructor; [|assumption].
        rewrite !occurs_app, encode_string_no_cr, IH. reflexivity. }
      apply H.
Qed.





(* ================================================================== *)
(** * Further properties of the backend and of the pages that use it *)

(** ** Stripping *)

Lemma lstrip_idem (s : string) : lstrip (lstrip s) = lstrip s.
Proof.
  induction s as [|c s IH]; [reflexivity|].
  simpl. destruct (isspace c) eqn:E; [exact IH|].
  simpl. now rewrite E.
Qed.

Lemma rstrip_idem (s : string) : rstrip (rstrip s) = rstrip s.
Proof.
  induction s as [|c s IH]; [reflexivity|].
  cbn [rstrip]. destruct (rstrip s) as [|d r] eqn:E.
  - destruct (isspace c) eqn:Ec; [reflexivity|].
    cbn [rstrip]. now rewrite Ec.
  - cbn [rstrip]. cbn [rstrip] in IH. rewrite IH. reflexivity.
Qed.

Lemma rstrip_fixed_tail (c : ascii) (s : string) :
  rstrip (String c s) = String c s -> s = "" \/ rstrip s = s.
Proof.
  cbn [rstrip]. destruct (rstrip s) as [|d r] eqn:E.
  - destruct (isspace c); [discriminate|]. intros [= <-]. now left.
  - intros [= <-]. now right.
Qed.

Lemma rstrip_lstrip_fixed (t : string) :
  rstrip t = t -> rstrip (lstrip t) = lstrip t.
Proof.
  induction t as [|c s IH]; [reflexivity|].
  intros H. simpl lstrip. destruct (isspace c); [|exact H].
  destruct (rstrip_fixed_tail c s H) as [-> | Hs]; [reflexivity|now apply IH].
Qed.

(** What [strip] returns has nothing left to strip. *)
Lemma strip_idem (s : string) : strip (strip s) = strip s.
Proof.
  unfold strip.
  rewrite (rstrip_lstrip_fixed (rstrip s) (rstrip_idem s)).
  apply lstrip_idem.
Qed.

Lemma occurs_lstrip (c : ascii) (s : string) :
  occurs c s = false -> occurs c (lstrip s) = false.
Proof.
  induction s as [|d s IH]; [reflexivity|].
  intros H. simpl. destruct (isspace d); [|exact H].
  simpl in H. apply orb_false_elim in H as [_ H]. now apply IH.
Qed.

Lemma occurs_rstrip (c : ascii) (s : string) :
  occurs c s = false -> occurs c (rstrip s) = false.
Proof.
  induction s as [|d s IH]; [reflexivity|].
  intros H. simpl in H. apply orb_false_elim in H as [Hd H].
  specialize (IH H). cbn [rstrip].
  destruct (rstrip s) as [|e r].
  - destruct (isspace d); [reflexivity|]. simpl. now rewrite Hd.
  - cbn [occurs]. cbn [occurs] in IH. now rewrite Hd, IH.
Qed.

Lemma occurs_strip (c : ascii) (s : string) :
  occurs c s = false -> occurs c (strip s) = false.
Proof. intros H. unfold strip. now apply occurs_lstrip, occurs_rstrip. Qed.

(** A line as [readline] returns it: text without a line feed, followed by
    one line feed or by the end of the stream. *)
Lemma readline_shape (s : string) :
  exists body, occurs LF body = false /\
    (fst (readline s) = body \/ fst (readline s) = body +:+ NL).
Proof.
  induction s as [|c s IH].
  - exists "". split; [reflexivity|now left].
  - cbn [readline]. destruct (Ascii.eqb c LF) eqn:E.
    + exists "". split; [reflexivity|]. right. simpl.
      apply Ascii.eqb_eq in E. now subst c.
    + destruct IH as [body [Hb Hl]]. exists (String c body). split.
      * simpl. now rewrite E, Hb.
      * destruct (readline s) as [l r]. simpl in *.
        destruct Hl as [-> | ->]; [now left|now right].
Qed.

Lemma strip_readline_no_lf (s : string) :
  occurs LF (strip (fst (readline s))) = false.
Proof.
  destruct (readline_shape s) as [body [Hb [-> | ->]]].
  - now apply occurs_strip.
  - rewrite strip_line. now apply occurs_strip.
Qed.

Lemma occurs_readline (c : ascii) (s : string) :
  occurs c s = false ->
  occurs c (fst (readline s)) = false /\ occurs c (snd (readline s)) = false.
Proof.
  induction s as [|d s IH]; [now split|].
  intros H. simpl in H. apply orb_false_elim in H as [Hd H].
  cbn [readline]. destruct (Ascii.eqb d LF).
  - simpl. now rewrite Hd.
  - destruct (IH H) as [H1 H2]. destruct (readline s) as [l r]. simpl in *.
    now rewrite Hd, H1.
Qed.

(** Reading never yields a carriage return. *)
Lemma universal_newlines_no_cr (s : string) :
  occurs CR (universal_newlines s) = false.
Proof.
  assert (forall n s, (String.length s <= n)%nat ->
                      occurs CR (universal_newlines s) = false) as H.
  { induction n as [|n IH]; intros [|c t] Hlen; try reflexivity;
      simpl in Hlen; [lia|].
    cbn [universal_newlines]. destruct (Ascii.eqb c CR) eqn:E.
    - destruct t as [|d t']; [reflexivity|].
      destruct (Ascii.eqb d LF).
      + cbn [occurs]. simpl in Hlen. rewrite IH by lia. reflexivity.
      + cbn [occurs]. rewrite IH by lia. reflexivity.
    - cbn [occurs]. rewrite E. rewrite IH by lia. reflexivity. }
  apply (H (String.length s)). lia.
Qed.

(** ** What the worker emits *)

Lemma run_loop_outputs (fuel : nat) :
  forall (more : bool) (pending : string) (trace : list action)
         (ended : outcome unit),
    run_loop fuel more pending = Some (trace, ended) ->
    forall line, In (output_signal line) (signals trace) ->
      exists s, line = strip (fst (readline s)).
Proof.
  induction fuel as [|fuel IH]; intros more pending trace ended Hrun line Hin;
    [discriminate|].
  cbn [run_loop] in Hrun.
  destruct (readline pending) as [l r] eqn:Hr.
  destruct (more && negb (occurs LF l)).
  { injection Hrun as <- _. destruct Hin. }
  destruct (truthy l).
  - destruct (run_loop fuel more r) as [[rest ended']|] eqn:Hrest; [|discriminate].
    injection Hrun as <- _. simpl in Hin. destruct Hin as [Hin|Hin].
    + injection Hin as <-. exists pending. now rewrite Hr.
    + exact (IH more r rest ended' Hrest line Hin).
  - injection Hrun as <- _. destruct Hin.
Qed.

(** X1.  Whatever the child prints, every output line the listener receives
    is free of leading and trailing whitespace and holds no line feed: the
    indentation of the child's output is not passed on. *)
Theorem run_output_lines_are_stripped
    (popen : list string -> outcome process) (fuel : nat)
    (command : list string) (env_name : string)
    (trace : list action) (ended : outcome unit) :
  run popen fuel command env_name = Some (trace, ended) ->
  forall line, In (output_signal line) (signals trace) ->
    strip line = line /\ occurs LF line = false.
Proof.
  unfold run, run_spawned. intros Hrun line Hin.
  destruct (popen command) as [p|e].
  - destruct (run_loop fuel (garbled p) (pipe_text p)) as [[tr [u|e]]|] eqn:Hloop;
      [| |discriminate].
    + injection Hrun as <- <-. rewrite signals_app in Hin.
      apply in_app_or in Hin. destruct Hin as [Hin|Hin].
      * destruct (run_loop_outputs fuel _ _ _ _ Hloop line Hin) as [s ->].
        split; [apply strip_idem|apply strip_readline_no_lf].
      * simpl in Hin. destruct Hin as [Hin|[]]. discriminate Hin.
    + injection Hrun as <- <-.
      destruct (run_loop_outputs fuel _ _ _ _ Hloop line Hin) as [s ->].
      split; [apply strip_idem|apply strip_readline_no_lf].
  - injection Hrun as <- <-. destruct Hin.
Qed.

Lemma run_output_lines_are_stripped_witness :
  strip "done" = "done" /\ occurs LF "done" = false.
Proof.
  apply (run_output_lines_are_stripped
           (fun _ => Ok {| stdout := "  done  " +:+ NL; garbled := false;
                           returncode := 0 |})
           5 ["conda"; "create"] "env1"
           [Readline ("  done  " +:+ NL); Emit (output_signal "done");
            Readline ""; Wait 0; Emit (finished_signal 0 "env1")] (Ok tt)).
  - reflexivity.
  - simpl. now left.
Defined.

(** ** The selection that is read back *)

(** The round trip through the settings file for strings that hold no line
    end and nothing to strip. *)
Lemma selection_roundtrip (nt : bool) (fs : filesystem) (env_type env_name : string) :
  occurs LF env_type = false -> occurs CR env_type = false ->
  occurs LF env_name = false -> occurs CR env_name = false ->
  strip env_type = env_type -> strip env_name = env_name ->
  load_selected_env (save_selected_env nt env_type env_name fs)
  = Ok (Some env_type, Some env_name).
Proof.
  intros Hlt Hct Hln Hcn Hst Hsn.
  rewrite save_selected_env_result.
  rewrite load_selected_env_written.
  rewrite universal_write.
  - rewrite (readline_line env_type env_name Hlt). simpl fst. simpl snd.
    rewrite (readline_last env_name Hln). simpl fst.
    now rewrite strip_line, Hst, Hsn.
  - rewrite !occurs_app, Hct, Hcn. reflexivity.
Qed.

(** X2.  Whatever the settings file holds, the two strings
    [load_selected_env] returns can be saved again and are then read back
    unchanged, on either platform and over any previous content. *)
Theorem loaded_selection_is_stable (nt : bool) (fs fs' : filesystem)
    (env_type env_name : string) :
  load_selected_env fs = Ok (Some env_type, Some env_name) ->
  load_selected_env (save_selected_env nt env_type env_name fs')
  = Ok (Some env_type, Some env_name).
Proof.
  intros Hload.
  destruct (fs !! SETTINGS_FILE) as [raw|] eqn:E.
  - destruct (decodes SETTINGS_FILE fs) eqn:Ed;
      [|unfold load_selected_env, open_r in Hload; rewrite E, Ed in Hload;
        discriminate].
    rewrite (load_selected_env_present fs raw E Ed) in Hload.
    injection Hload as <- <-.
    pose proof (universal_newlines_no_cr raw) as Hcr.
    destruct (occurs_readline CR _ Hcr) as [Hc1 Hc2].
    destruct (occurs_readline CR _ Hc2) as [Hc3 _].
    apply selection_roundtrip.
    + apply strip_readline_no_lf.
    + now apply occurs_strip.
    + apply strip_readline_no_lf.
    + now apply occurs_strip.
    + apply strip_idem.
    + apply strip_idem.
  - unfold load_selected_env, open_r in Hload. rewrite E in Hload. discriminate.
Qed.

Lemma loaded_selection_is_stable_witness :
  load_selected_env (save_selected_env true "{" (String dquote "theme" +:+ String dquote ": 1") ∅)
  = Ok (Some "{", Some (String dquote "theme" +:+ String dquote ": 1")).
Proof.
  apply (loaded_selection_is_stable true
           {[ SETTINGS_FILE := dumps (JObj [("theme", JInt 1)]) ]} ∅).
  vm_compute. reflexivity.
Defined.

(** ** The selection labels *)

Lemma truthy_nonempty (s : string) : s <> "" -> truthy s = true.
Proof. destruct s; [congruence|reflexivity]. Qed.



(** ** Names typed into the venv page *)

Lemma name_char_not_space (c : ascii) : name_char c = true -> isspace c = false.
Proof. destruct c as [[] [] [] [] [] [] [] []]; intros H; try reflexivity; discriminate H. Qed.

Lemma format_char_idem (c : ascii) :
  let f := fun c => if name_char (lower_char c) then lower_char c else "_"%char in
  f (f c) = f c /\ name_char (f c) = true.
Proof. destruct c as [[] [] [] [] [] [] [] []]; split; reflexivity. Qed.

Lemma format_venv_name_cons (c : ascii) (s : string) :
  format_venv_name (String c s)
  = String (if name_char (lower_char c) then lower_char c else "_"%char)
           (format_venv_name s).
Proof. reflexivity. Qed.

Lemma all_chars_app (p : ascii -> bool) (s t : string) :
  all_chars p (s +:+ t) = all_chars p s && all_chars p t.
Proof.
  induction s as [|c s IH]; [reflexivity|].
  simpl. rewrite IH. now rewrite andb_assoc.
Qed.

Lemma all_chars_occurs (p : ascii -> bool) (c : ascii) (s : string) :
  p c = false -> all_chars p s = true -> occurs c s = false.
Proof.
  intros Hc. induction s as [|d s IH]; [reflexivity|].
  simpl. intros H. apply andb_prop in H as [Hd Hs].
  rewrite (IH Hs), orb_false_r. apply Ascii.eqb_neq. intros ->. congruence.
Qed.

Lemma rstrip_no_space (s : string) :
  all_chars not_space s = true -> rstrip s = s.
Proof.
  induction s as [|c s IH]; [reflexivity|].
  simpl. intros H. apply andb_prop in H as [Hc Hs]. rewrite (IH Hs).
  unfold not_space in Hc. apply negb_true_iff in Hc.
  destruct s; [now rewrite Hc|reflexivity].
Qed.

Lemma strip_no_space (s : string) :
  all_chars not_space s = true -> strip s = s.
Proof.
  intros H. unfold strip. rewrite (rstrip_no_space s H).
  destruct s as [|c s]; [reflexivity|].
  simpl in H. apply andb_prop in H as [Hc _].
  unfold not_space in Hc. apply negb_true_iff in Hc. simpl. now rewrite Hc.
Qed.

Lemma all_chars_impl (p q : ascii -> bool) (s : string) :
  (forall c, p c = true -> q c = true) ->
  all_chars p s = true -> all_chars q s = true.
Proof.
  intros Hpq. induction s as [|c s IH]; [reflexivity|].
  simpl. intros H. apply andb_prop in H as [Hc Hs].
  now rewrite (Hpq c Hc), (IH Hs).
Qed.

Lemma name_chars_no_space (s : string) :
  all_chars name_char s = true -> all_chars not_space s = true.
Proof.
  apply all_chars_impl. intros c Hc. unfold not_space.
  now rewrite (name_char_not_space c Hc).
Qed.

Lemma format_venv_name_chars (text : string) :
  all_chars name_char (format_venv_name text) = true.
Proof.
  induction text as [|c s IH]; [reflexivity|].
  rewrite format_venv_name_cons. cbn [all_chars].
  now rewrite (proj2 (format_char_idem c)), IH.
Qed.

Lemma strip_format_venv_name (text : string) :
  strip (format_venv_name text) = format_venv_name text.
Proof. apply strip_no_space, name_chars_no_space, format_venv_name_chars. Qed.

(** X4.  For a text of code points below 256, the name [format_venv_name]
    puts back into the line edit has the length of the text typed, consists
    of alphanumeric characters and underscores only, is left unchanged by a
    second formatting, and has nothing for [strip] to remove. *)
Theorem format_venv_name_is_clean (text : string) :
  String.length (format_venv_name text) = String.length text /\
  all_chars name_char (format_venv_name text) = true /\
  format_venv_name (format_venv_name text) = format_venv_name text /\
  strip (format_venv_name text) = format_venv_name text.
Proof.
  split; [|split; [|split]].
  - induction text as [|c s IH]; [reflexivity|].
    rewrite format_venv_name_cons. simpl. now rewrite IH.
  - apply format_venv_name_chars.
  - induction text as [|c s IH]; [reflexivity|].
    rewrite !format_venv_name_cons, IH.
    now rewrite (proj1 (format_char_idem c)).
  - apply strip_format_venv_name.
Qed.









(** ** The versions found in the index *)

Lemma span_digits_spec (s : string) :
  all_chars isdigit (fst (span_digits s)) = true /\
  s = fst (span_digits s) +:+ snd (span_digits s).
Proof.
  induction s as [|c s [IH1 IH2]]; [now split|].
  cbn [span_digits]. destruct (isdigit c) eqn:E.
  - destruct (span_digits s) as [d r]. simpl in *. rewrite E, IH1.
    split; [reflexivity|congruence].
  - now split.
Qed.

Lemma match_version_shape (s v r : string) :
  match_version s = Some (v, r) ->
  exists a b c,
    v = a +:+ "." +:+ b +:+ "." +:+ c /\
    a <> "" /\ b <> "" /\ c <> "" /\
    all_chars isdigit a = true /\ all_chars isdigit b = true /\
    all_chars isdigit c = true.
Proof.
  unfold match_version. intros H.
  pose proof (span_digits_spec s) as [Ha _].
  destruct (span_digits s) as [a r1]. simpl in Ha.
  destruct a as [|a0 a]; [discriminate|]. cbn [truthy] in H.
  destruct (expect "." r1) as [r2|]; [|discriminate].
  pose proof (span_digits_spec r2) as [Hb _].
  destruct (span_digits r2) as [b r3]. simpl in Hb.
  destruct b as [|b0 b]; [discriminate|]. cbn [truthy] in H.
  destruct (expect "." r3) as [r4|]; [|discriminate].
  pose proof (span_digits_spec r4) as [Hc _].
  destruct (span_digits r4) as [c r5]. simpl in Hc.
  destruct c as [|c0 c]; [discriminate|]. cbn [truthy] in H.
  injection H as <- <-.
  exists (String a0 a), (String b0 b), (String c0 c).
  repeat split; try discriminate; assumption.
Qed.

Lemma findall_from_shape (s : string) :
  forall (skip : nat) (v : string),
    In v (findall_from skip s) ->
    exists a b c,
      v = a +:+ "." +:+ b +:+ "." +:+ c /\
      a <> "" /\ b <> "" /\ c <> "" /\
      all_chars isdigit a = true /\ all_chars isdigit b = true /\
      all_chars isdigit c = true.
Proof.
  induction s as [|ch s IH]; intros skip v Hin; [destruct Hin|].
  cbn [findall_from] in Hin. destruct skip as [|k]; [|exact (IH _ _ Hin)].
  unfold match_href in Hin.
  destruct (expect _ (String ch s)) as [r|]; [|exact (IH _ _ Hin)].
  destruct (match_version r) as [[w r']|] eqn:Hm; [|exact (IH _ _ Hin)].
  destruct (expect _ r'); [|exact (IH _ _ Hin)].
  destruct Hin as [<-|Hin]; [exact (match_version_shape _ _ _ Hm)|exact (IH _ _ Hin)].
Qed.

Lemma split_char_last (sep : ascii) (s : string) :
  occurs sep s = false -> split_char sep s = [s].
Proof.
  induction s as [|c s IH]; [reflexivity|].
  simpl. intros H. apply orb_false_elim in H as [Hc Hs].
  now rewrite Hc, (IH Hs).
Qed.

Lemma split_char_field (sep : ascii) (a rest : string) :
  occurs sep a = false ->
  split_char sep (a +:+ String sep rest) = a :: split_char sep rest.
Proof.
  induction a as [|c a IH].
  - intros _. simpl. now rewrite Ascii.eqb_refl.
  - simpl. intros H. apply orb_false_elim in H as [Hc Ha].
    now rewrite Hc, (IH Ha).
Qed.

Lemma digits_no_dot (a : string) :
  all_chars isdigit a = true -> occurs "." a = false.
Proof. apply all_chars_occurs. reflexivity. Qed.

Lemma major_minor_of_shape (a b c : string) :
  all_chars isdigit a = true -> all_chars isdigit b = true ->
  all_chars isdigit c = true ->
  split_char "." (a +:+ "." +:+ b +:+ "." +:+ c) = [a; b; c] /\
  major_minor_of (a +:+ "." +:+ b +:+ "." +:+ c) = a +:+ "." +:+ b /\
  split_char "." (a +:+ "." +:+ b) = [a; b].
Proof.
  intros Ha Hb Hc.
  apply digits_no_dot in Ha, Hb, Hc.
  assert (split_char "." (a +:+ "." +:+ b +:+ "." +:+ c) = [a; b; c]) as H3.
  { change (a +:+ "." +:+ b +:+ "." +:+ c)
      with (a +:+ String "." (b +:+ String "." c)).
    now rewrite (split_char_field _ a _ Ha), (split_char_field _ b _ Hb),
      (split_char_last _ c Hc). }
  split; [exact H3|]. split.
  - unfold major_minor_of. rewrite H3. reflexivity.
  - change (a +:+ "." +:+ b) with (a +:+ String "." b).
    now rewrite (split_char_field _ a _ Ha), (split_char_last _ b Hb).
Qed.

(** X6.  Every version [get_full_version] extracts from the index page
    consists of three non-empty runs of digits separated by dots, and the
    key it is filed under in [version_map] is the first two runs. *)
Theorem findall_versions_are_triples (text v : string) :
  In v (findall text) ->
  exists a b c,
    v = a +:+ "." +:+ b +:+ "." +:+ c /\
    a <> "" /\ b <> "" /\ c <> "" /\
    all_chars isdigit a = true /\ all_chars isdigit b = true /\
    all_chars isdigit c = true /\
    major_minor_of v = a +:+ "." +:+ b.
Proof.
  intros Hin.
  destruct (findall_from_shape text 0 v Hin)
    as [a [b [c [-> [Ha [Hb [Hc [Da [Db Dc]]]]]]]]].
  exists a, b, c. repeat split; try assumption.
  apply (major_minor_of_shape a b c Da Db Dc).
Qed.

Lemma findall_versions_are_triples_witness :
  exists a b c,
    "3.10.8" = a +:+ "." +:+ b +:+ "." +:+ c /\
    a <> "" /\ b <> "" /\ c <> "" /\
    all_chars isdigit a = true /\ all_chars isdigit b = true /\
    all_chars isdigit c = true /\
    major_minor_of "3.10.8" = a +:+ "." +:+ b.
Proof.
  apply (findall_versions_are_triples (index_page ["3.11.0"; "3.10.8"])).
  vm_compute. right. now left.
Defined.

(** A full version is not the key of any version found. *)
Lemma full_version_is_no_key (v w : string) :
  (exists a b c, v = a +:+ "." +:+ b +:+ "." +:+ c /\
     all_chars isdigit a = true /\ all_chars isdigit b = true /\
     all_chars isdigit c = true) ->
  (exists a b c, w = a +:+ "." +:+ b +:+ "." +:+ c /\
     all_chars isdigit a = true /\ all_chars isdigit b = true /\
     all_chars isdigit c = true) ->
  major_minor_of w <> v.
Proof.
  intros [a [b [c [-> [Da [Db Dc]]]]]] [a' [b' [c' [-> [Da' [Db' Dc']]]]]] E.
  destruct (major_minor_of_shape a b c Da Db Dc) as [H3 _].
  destruct (major_minor_of_shape a' b' c' Da' Db' Dc') as [_ [Hmm H2]].
  rewrite Hmm in E. rewrite <- E, H2 in H3. discriminate H3.
Qed.

Lemma build_version_map_member (versions : list string) (key r : string) :
  build_version_map versions !! key = Some r -> In r versions.
Proof.
  unfold build_version_map.
  induction versions as [|x versions IH] using rev_ind; intros Hr.
  - simpl in Hr. rewrite lookup_empty in Hr. discriminate.
  - rewrite version_map_fold_app in Hr. apply in_or_app.
    destruct (decide (major_minor_of x = key)) as [E|E].
    + rewrite E, lookup_insert_eq in Hr. injection Hr as <-. right. now left.
    + rewrite lookup_insert_ne in Hr by exact E. left. now apply IH.
Qed.

(** X7.  Resolving a version that was already resolved against the same
    index changes nothing: [download_and_install_python] resolves again what
    the install page has resolved, and gets the same full version. *)
Theorem get_full_version_idempotent (get : fetched) (version_display : string) :
  get_full_version get (get_full_version get version_display)
  = get_full_version get version_display.
Proof.
  destruct get as [e|r]; [reflexivity|].
  simpl. destruct (raise_for_status r); [reflexivity|].
  set (versions := sort_reverse (findall (text r))).
  destruct (build_version_map versions !! version_display) as [v|] eqn:E.
  - simpl. rewrite build_version_map_absent; [reflexivity|].
    assert (forall w, In w versions ->
              exists a b c, w = a +:+ "." +:+ b +:+ "." +:+ c /\
                all_chars isdigit a = true /\ all_chars isdigit b = true /\
                all_chars isdigit c = true) as Hshape.
    { intros w Hw. apply sort_reverse_In in Hw.
      destruct (findall_from_shape _ 0 w Hw)
        as [a [b [c [-> [_ [_ [_ [Da [Db Dc]]]]]]]]].
      exists a, b, c. auto. }
    intros w Hw. apply full_version_is_no_key.
    + apply Hshape. exact (build_version_map_member _ _ _ E).
    + now apply Hshape.
  - simpl. now rewrite E.
Qed.

Lemma get_full_version_least_witness :
  let r := {| status_code := 200;
              text := index_page ["3.11.0"; "3.11.9"; "3.11.10"; "3.10.8"] |} in
  let found := get_full_version (GetReturned r) "3.11" in
  In found (findall (text r)) /\
  major_minor_of found = "3.11" /\
  forall v, In v (findall (text r)) -> major_minor_of v = "3.11" ->
    String.leb found v = true.
Proof.
  apply (get_full_version_least
           {| status_code := 200;
              text := index_page ["3.11.0"; "3.11.9"; "3.11.10"; "3.10.8"] |}
           "3.11").
  - reflexivity.
  - exists "3.11.9". split; [vm_compute; right; now left|reflexivity].
Defined.

(** ** The conda environments listed *)

Lemma split_ws_fields (s : string) :
  forall f, In f (split_ws s) -> f <> "" /\ all_chars not_space f = true.
Proof.
  induction s as [|c s IH]; intros f Hin; [destruct Hin|].
  cbn [split_ws] in Hin. destruct (isspace c) eqn:Ec; [exact (IH f Hin)|].
  assert (not_space c = true) as Hc by (unfold not_space; now rewrite Ec).
  destruct s as [|d s'].
  - destruct Hin as [<-|[]]. split; [discriminate|]. simpl. now rewrite Hc.
  - destruct (isspace d).
    + destruct Hin as [<-|Hin]; [|exact (IH f Hin)].
      split; [discriminate|]. simpl. now rewrite Hc.
    + destruct (split_ws (String d s')) as [|h t].
      * destruct Hin as [<-|[]]. split; [discriminate|]. simpl. now rewrite Hc.
      * destruct Hin as [<-|Hin].
        -- split; [discriminate|]. simpl. rewrite Hc.
           apply (IH h). now left.
        -- apply (IH f). now right.
Qed.

Lemma conda_env_step_names (P : string -> Prop) (envs : list string) (line : string) :
  (forall f, In f (split_ws line) -> P (strip f)) ->
  Forall P envs -> Forall P (conda_env_step envs line).
Proof.
  intros Hf Hen. unfold conda_env_step.
  destruct (_ && _ && _); [|exact Hen].
  destruct (split_ws line) as [|field rest]; [exact Hen|].
  apply Forall_app. split; [exact Hen|]. constructor; [|constructor].
  apply Hf. now left.
Qed.

Lemma conda_env_loop_names (lines : list string) :
  forall envs,
    Forall (fun n => n <> "" /\ all_chars not_space n = true) envs ->
    Forall (fun n => n <> "" /\ all_chars not_space n = true)
           (fold_left conda_env_step lines envs).
Proof.
  induction lines as [|line lines IH]; intros envs H; [exact H|].
  simpl. apply IH. apply conda_env_step_names; [|exact H].
  intros f Hf. destruct (split_ws_fields line f Hf) as [Hne Hns].
  now rewrite (strip_no_space f Hns).
Qed.

(** X9.  Every name [list_conda_envs] returns is non-empty and free of
    whitespace, whatever [conda env list] printed. *)
Theorem list_conda_envs_names_are_fields
    (spawn_output : list string -> outcome (Z * string)) (envs : list string) :
  list_conda_envs spawn_output = Ok envs ->
  forall n, In n envs -> n <> "" /\ all_chars not_space n = true.
Proof.
  unfold list_conda_envs. intros H n Hn.
  assert (Forall (fun n => n <> "" /\ all_chars not_space n = true) envs) as HF.
  { destruct (check_output spawn_output _) as [result|[]];
      try discriminate; injection H as <-;
      [apply conda_env_loop_names|..]; constructor. }
  rewrite List.Forall_forall in HF. now apply HF.
Qed.

Lemma list_conda_envs_names_are_fields_witness :
  "base" <> "" /\ all_chars not_space "base" = true.
Proof.
  apply (list_conda_envs_names_are_fields
           (fun _ => Ok (0%Z, "  base  *  /opt/conda" +:+ NL)) ["base"]).
  - reflexivity.
  - now left.
Defined.

Lemma splitlines_line (l t : string) :
  all_chars not_linebreak l = true ->
  splitlines (l +:+ NL +:+ t) = l :: splitlines t.
Proof.
  induction l as [|c l IH]; [reflexivity|].
  simpl all_chars. intros H. apply andb_prop in H as [Hc Hl].
  specialize (IH Hl).
  change (String c l +:+ NL +:+ t) with (String c (l +:+ NL +:+ t)).
  cbn [splitlines]. unfold not_linebreak in Hc. apply negb_true_iff in Hc.
  rewrite Hc. destruct (l +:+ NL +:+ t); [discriminate IH|].
  now rewrite IH.
Qed.

Lemma rstrip_cons_nonspace (c : ascii) (x : string) :
  isspace c = false -> exists y, rstrip (String c x) = String c y.
Proof.
  intros Hc. cbn [rstrip]. destruct (rstrip x) as [|d r].
  - rewrite Hc. now exists "".
  - now exists (String d r).
Qed.

Lemma split_ws_first (n : string) (d : ascii) (r : string) :
  n <> "" -> all_chars not_space n = true -> isspace d = true ->
  split_ws (n +:+ String d r) = n :: split_ws (String d r).
Proof.
  induction n as [|c n IH]; [congruence|].
  intros _ H Hd. simpl all_chars in H. apply andb_prop in H as [Hc Hn].
  unfold not_space in Hc. apply negb_true_iff in Hc.
  change (String c n +:+ String d r) with (String c (n +:+ String d r)).
  remember (split_ws (String d r)) as fields eqn:Hfields.
  cbn [split_ws]. rewrite Hc.
  destruct n as [|e n'].
  - simpl String.append. cbv iota. rewrite Hd. now subst fields.
  - specialize (IH ltac:(discriminate) Hn Hd).
    change (String e n' +:+ String d r) with (String e (n' +:+ String d r)) in *.
    simpl all_chars in Hn. apply andb_prop in Hn as [He _].
    unfold not_space in He. apply negb_true_iff in He.
    rewrite He, IH. reflexivity.
Qed.

Lemma conda_env_step_comment (envs : list string) (c : string) :
  conda_env_step envs ("#" +:+ c) = envs.
Proof.
  unfold conda_env_step.
  replace (starts_with "#" ("#" +:+ c)) with true by reflexivity.
  now rewrite andb_false_r.
Qed.

Lemma conda_env_step_row (envs : list string) (row : string * string) :
  conda_row_ok row = true ->
  conda_env_step envs (fst row +:+ " " +:+ snd row) = (envs ++ [fst row])%list.
Proof.
  destruct row as [n rest]. unfold conda_row_ok. simpl fst. simpl snd.
  intros H. apply andb_prop in H as [H Hrest].
  apply andb_prop in H as [H Hhash]. apply andb_prop in H as [Hne Hns].
  destruct n as [|c n]; [discriminate|].
  assert (isspace c = false) as Hc.
  { simpl in Hns. apply andb_prop in Hns as [Hc _].
    unfold not_space in Hc. now apply negb_true_iff in Hc. }
  unfold conda_env_step.
  assert (truthy (strip (String c n +:+ " " +:+ rest)) = true) as ->.
  { unfold strip.
    change (String c n +:+ " " +:+ rest) with (String c (n +:+ " " +:+ rest)).
    destruct (rstrip_cons_nonspace c (n +:+ " " +:+ rest) Hc) as [y ->].
    simpl. now rewrite Hc. }
  assert (starts_with "#" (String c n +:+ " " +:+ rest) = false) as ->.
  { apply negb_true_iff in Hhash. revert Hhash. unfold starts_with.
    change (String c n +:+ " " +:+ rest) with (String c (n +:+ " " +:+ rest)).
    cbn [expect]. destruct (Ascii.eqb "#" c); [discriminate|reflexivity]. }
  assert (occurs " " (String c n +:+ " " +:+ rest) = true) as ->.
  { rewrite occurs_app. simpl (occurs " " (" " +:+ rest)). apply orb_true_r. }
  cbn [andb negb].
  change (" " +:+ rest) with (String " " rest).
  rewrite (split_ws_first (String c n) " " rest ltac:(discriminate) Hns eq_refl).
  now rewrite (strip_no_space _ Hns).
Qed.

Lemma append_assoc (a b c : string) : (a +:+ b) +:+ c = a +:+ b +:+ c.
Proof. induction a as [|x a IH]; simpl; [reflexivity|now rewrite IH]. Qed.

Lemma splitlines_lines (ls : list string) (t : string) :
  Forall (fun l => all_chars not_linebreak l = true) ls ->
  splitlines (String.concat "" (map (fun l => l +:+ NL) ls) +:+ t)
  = (ls ++ splitlines t)%list.
Proof.
  induction 1 as [|l ls Hl _ IH]; [reflexivity|].
  cbn [map]. rewrite concat_empty_cons, !append_assoc.
  rewrite (splitlines_line l _ Hl). now rewrite IH.
Qed.

Lemma not_space_not_linebreak (s : string) :
  all_chars not_space s = true -> all_chars not_linebreak s = true.
Proof.
  apply all_chars_impl. intros c.
  destruct c as [[] [] [] [] [] [] [] []]; intros H; try reflexivity; discriminate H.
Qed.

Lemma conda_env_loop_comments (comments : list string) (envs : list string) :
  fold_left conda_env_step (map (fun c => "#" +:+ c) comments) envs = envs.
Proof.
  induction comments as [|c comments IH]; [reflexivity|].
  cbn [map fold_left]. now rewrite conda_env_step_comment.
Qed.

Lemma conda_env_loop_rows (rows : list (string * string)) :
  Forall (fun row => conda_row_ok row = true) rows ->
  forall envs,
    fold_left conda_env_step (map (fun row => fst row +:+ " " +:+ snd row) rows) envs
    = (envs ++ map fst rows)%list.
Proof.
  induction 1 as [|row rows Hrow _ IH]; intros envs.
  - simpl. now rewrite app_nil_r.
  - cbn [map fold_left]. rewrite (conda_env_step_row envs row Hrow), IH.
    now rewrite <- app_assoc.
Qed.

Lemma conda_listing_lines (comments : list string) (rows : list (string * string)) :
  Forall (fun c => all_chars not_linebreak c = true) comments ->
  Forall (fun row => conda_row_ok row = true) rows ->
  splitlines (conda_listing comments rows)
  = (map (fun c => "#" +:+ c) comments
     ++ map (fun row => fst row +:+ " " +:+ snd row) rows ++ [""])%list.
Proof.
  intros Hc Hr. unfold conda_listing.
  assert (map conda_comment_line comments
          = map (fun l => l +:+ NL) (map (fun c => "#" +:+ c) comments)) as ->.
  { rewrite map_map. apply map_ext. intros c. unfold conda_comment_line.
    now rewrite append_assoc. }
  assert (map conda_env_line rows
          = map (fun l => l +:+ NL)
                (map (fun row => fst row +:+ " " +:+ snd row) rows)) as ->.
  { rewrite map_map. apply map_ext. intros row. unfold conda_env_line.
    now rewrite !append_assoc. }
  rewrite splitlines_lines.
  - rewrite splitlines_lines; [reflexivity|].
    apply List.Forall_forall. intros l Hl. apply in_map_iff in Hl as [row [<- Hrow]].
    rewrite List.Forall_forall in Hr. specialize (Hr row Hrow).
    unfold conda_row_ok in Hr.
    apply andb_prop in Hr as [Hr Hrest]. apply andb_prop in Hr as [Hr _].
    apply andb_prop in Hr as [_ Hns].
    rewrite !all_chars_app, (not_space_not_linebreak _ Hns), Hrest. reflexivity.
  - apply List.Forall_forall. intros l Hl. apply in_map_iff in Hl as [c [<- Hin]].
    rewrite List.Forall_forall in Hc. simpl. exact (Hc c Hin).
Qed.

(** X10.  On a listing as [conda env list] prints it, comment lines first,
    then one line per environment with the name in the first column and at
    least one space behind it, then an empty line, [list_conda_envs] returns
    exactly the names, in the order listed. *)
Theorem list_conda_envs_reads_listing
    (spawn_output : list string -> outcome (Z * string))
    (comments : list string) (rows : list (string * string)) :
  spawn_output ["conda"; "env"; "list"] = Ok (0%Z, conda_listing comments rows) ->
  Forall (fun c => all_chars not_linebreak c = true) comments ->
  Forall (fun row => conda_row_ok row = true) rows ->
  list_conda_envs spawn_output = Ok (map fst rows).
Proof.
  intros Hspawn Hc Hr. unfold list_conda_envs, check_output. rewrite Hspawn.
  rewrite (conda_listing_lines comments rows Hc Hr).
  rewrite !fold_left_app, conda_env_loop_comments, (conda_env_loop_rows rows Hr).
  simpl. reflexivity.
Qed.

Lemma list_conda_envs_reads_listing_witness :
  list_conda_envs
    (fun _ => Ok (0%Z, conda_listing [" conda environments:"; ""]
                         [("base", "                 *  /opt/conda");
                          ("env_1", "                   /opt/conda/envs/env_1")]))
  = Ok ["base"; "env_1"].
Proof.
  apply (list_conda_envs_reads_listing _ [" conda environments:"; ""]
           [("base", "                 *  /opt/conda");
            ("env_1", "                   /opt/conda/envs/env_1")]).
  - reflexivity.
  - repeat constructor.
  - repeat constructor.
Defined.

(** A line that holds the name alone, with no space behind it, is not taken
    for an environment. *)
Lemma conda_env_step_bare_name (envs : list string) :
  conda_env_step envs "base" = envs.
Proof. reflexivity. Qed.



(** ** How far the name loop goes *)

(** Among the first [length envs + 1] candidates one is not in the list. *)
Lemma candidate_free_within (b : string) (envs : list string) :
  exists j, (j <= length envs)%nat /\ in_list (numbered b j) envs = false.
Proof.
  destruct (forallb (fun j => in_list (numbered b j) envs)
                    (seq 0 (S (length envs)))) eqn:Hall.
  - exfalso.
    assert (NoDup (numbered b <$> seq 0 (S (length envs)))) as Hnd.
    { apply NoDup_fmap_2; [|apply NoDup_seq]. intros i j. apply numbered_inj. }
    assert (numbered b <$> seq 0 (S (length envs)) ⊆+ envs) as Hsub.
    { apply NoDup_submseteq; [exact Hnd|].
      intros x Hx. apply list_elem_of_fmap in Hx as [j [-> Hj]].
      apply list_elem_of_In, in_list_In.
      rewrite forallb_forall in Hall. apply Hall. now apply list_elem_of_In. }
    apply submseteq_length in Hsub.
    rewrite length_fmap, length_seq in Hsub. lia.
  - apply forallb_false in Hall as [j [Hin Hj]]. exists j.
    apply in_seq in Hin. split; [lia|exact Hj].
Qed.

(** X12.  [create_conda_env] always comes to an end: with [n] environments
    listed it asks for the list at most [n + 1] times, and the name it
    returns is not in the list and carries a number of at most [n]. *)
Theorem create_conda_env_terminates (envs : list string) (env_name : string) :
  exists k,
    (k <= length envs)%nat /\
    in_list (numbered (base_name_of env_name) k) envs = false /\
    create_conda_env envs (S (length envs)) env_name
    = Some (numbered (base_name_of env_name) k).
Proof.
  set (b := base_name_of env_name).
  destruct (candidate_free_within b envs) as [j [Hj Hfree]].
  destruct (least_free (fun n => in_list n envs) b j Hfree)
    as [k [Hk [Hkfree Hbelow]]].
  exists k. split; [lia|]. split; [exact Hkfree|].
  exact (name_loop_first_free (fun n => in_list n envs) b k
           (S (length envs)) 0 Hbelow Hkfree ltac:(lia)).
Qed.

(** ** What the launcher starts *)

Ltac find_event := simpl; repeat (first [left; reflexivity | right]).

(** X13.  [launch_activated_cmd] never raises and starts at most one process.
    With a name given it hands exactly one command line to [Popen], built of
    the shell, its flag and one script; if [Popen] raises, nothing is
    started, the error is logged and shown in a message box. *)
Theorem launch_starts_at_most_one_shell
    (nt : bool) (path_join : list string -> string)
    (popen : list string -> Z -> option exn) (env_type env_name : string) :
  let r := launch_activated_cmd nt path_join popen env_type env_name in
  fst r = Ok tt /\
  (length (spawns (snd r)) <= 1)%nat /\
  (env_name <> "" ->
   exists script,
     let cmd := if nt then ["cmd.exe"; "/K"; script]
                else ["/bin/bash"; "-c"; script] in
     let creationflags := if nt then CREATE_NEW_CONSOLE else 0%Z in
     match popen cmd creationflags with
     | None => spawns (snd r) = [cmd]
     | Some e =>
         spawns (snd r) = [] /\
         In (Log ERROR (ErrorLaunching e)) (snd r) /\
         In (MessageBoxCritical "Activation Error" (ErrorLaunching e)) (snd r)
     end).
Proof.
  unfold launch_activated_cmd.
  destruct env_name as [|c name].
  - simpl. split; [reflexivity|]. split; [lia|]. congruence.
  - cbn [truthy negb].
    set (flags := if nt then CREATE_NEW_CONSOLE else 0%Z).
    destruct (String.eqb env_type "venv").
    + set (script := "call " +:+ _ +:+ _).
      set (cmd := if nt then _ else _).
      cbn [fst snd]. split; [reflexivity|].
      destruct (popen cmd flags) as [e|] eqn:Hp.
      * split; [simpl; lia|]. intros _. exists script. fold cmd.
        cbv zeta. rewrite Hp.
        split; [reflexivity|split; find_event].
      * split; [simpl; lia|]. intros _. exists script. fold cmd.
        cbv zeta. rewrite Hp. reflexivity.
    + destruct (String.eqb env_type "conda").
      * set (script := "conda activate " +:+ _ +:+ _).
        set (cmd := if nt then _ else _).
        cbn [fst snd]. split; [reflexivity|].
        destruct (popen cmd flags) as [e|] eqn:Hp.
        -- split; [simpl; lia|]. intros _. exists script. fold cmd.
           cbv zeta. rewrite Hp.
           split; [reflexivity|split; find_event].
        -- split; [simpl; lia|]. intros _. exists script. fold cmd.
           cbv zeta. rewrite Hp. reflexivity.
      * set (script := "echo Error: Unknown environment type && pause").
        set (cmd := if nt then _ else _).
        cbn [fst snd]. split; [reflexivity|].
        destruct (popen cmd flags) as [e|] eqn:Hp.
        -- split; [simpl; lia|]. intros _. exists script. fold cmd.
           cbv zeta. rewrite Hp.
        split; [reflexivity|split; find_event].
        -- split; [simpl; lia|]. intros _. exists script. fold cmd.
           cbv zeta. rewrite Hp. reflexivity.
Qed.

Lemma launch_starts_at_most_one_shell_witness :
  exists script,
    spawns (snd (launch_activated_cmd false (String.concat "/") (fun _ _ => None)
                   "conda" "env1"))
    = [["/bin/bash"; "-c"; script]].
Proof.
  destruct (proj2 (proj2 (launch_starts_at_most_one_shell false (String.concat "/")
                            (fun _ _ => None) "conda" "env1")) ltac:(discriminate))
    as [script H].
  exists script. exact H.
Defined.

(** ** Downloading and installing Python *)

Section Install.
Variable get : fetched.
Variable urlretrieve : string -> string -> option string.
Variable spawn_wait : list string -> outcome Z.
Variable os_remove : string -> option string.
Variable version_display : string.

Let version_full := get_full_version get version_display.
Let download_url := PYTHON_DOWNLOAD_URL version_full.
Let installer_path := "python-" +:+ version_full +:+ "-installer.exe".
Let cmd := [installer_path; "/passive"; "/norestart"].
Let r := download_and_install_python get urlretrieve spawn_wait os_remove
           version_display.

(** X14.  [download_and_install_python] returns [True] exactly when the
    download went through and the installer exited with code 0.  A failed
    download and an installer that exits with another code give [False];
    an installer that cannot be started is not handled and its exception
    leaves the function. *)
Theorem install_succeeds_iff :
  (fst r = Ok true <->
   urlretrieve download_url installer_path = None /\ spawn_wait cmd = Ok 0%Z) /\
  (forall e, urlretrieve download_url installer_path = Some e -> fst r = Ok false) /\
  (forall rc, urlretrieve download_url installer_path = None ->
              spawn_wait cmd = Ok rc -> rc <> 0%Z -> fst r = Ok false) /\
  (urlretrieve download_url installer_path = None ->
   spawn_wait cmd = Raise FileNotFoundError -> fst r = Raise FileNotFoundError).
Proof.
  subst r. unfold download_and_install_python.
  fold version_full. fold download_url. fold installer_path. cbv zeta. fold cmd.
  destruct (urlretrieve download_url installer_path) as [e|].
  - cbn [fst]. split; [|split; [|split]].
    + split; [discriminate|]. intros [H _]. discriminate H.
    + reflexivity.
    + discriminate.
    + discriminate.
  - unfold check_call. destruct (spawn_wait cmd) as [[| p | p]|[]]; cbn [fst];
      (split; [|split; [|split]]);
      try (split; [try discriminate; auto | intros [_ H]; try discriminate H; reflexivity]);
      try discriminate; try reflexivity;
      try (intros rc _ [= <-] H; congruence);
      try (intros rc _ H; discriminate H).
Qed.

(** X15.  When the download fails, the installer is neither run nor removed
    and a "Download Error" box is shown.  When it succeeds, the installer
    is run and the downloaded file is removed afterwards, whether the
    installer succeeded, failed, or could not be started. *)
Theorem installer_is_removed_after_run :
  (forall e, urlretrieve download_url installer_path = Some e ->
     ~ In (RunInstaller cmd) (snd r) /\ ~ In (OsRemove installer_path) (snd r) /\
     In (InstallMessageBox "Download Error" (ErrorDownloading e)) (snd r)) /\
  (urlretrieve download_url installer_path = None ->
     exists before after,
       snd r = (before ++ OsRemove installer_path :: after)%list /\
       In (RunInstaller cmd) before /\
       after = match os_remove installer_path with
               | Some e => [InstallLog ERROR (ErrorDeletingInstaller e)]
               | None => []
               end).
Proof.
  subst r. unfold download_and_install_python.
  fold version_full. fold download_url. fold installer_path. cbv zeta. fold cmd.
  destruct (urlretrieve download_url installer_path) as [e0|].
  - split; [|discriminate]. intros e [= <-]. cbn [snd].
    split; [|split].
    + simpl. intros [H|[H|[H|[H|[]]]]]; discriminate H.
    + simpl. intros [H|[H|[H|[H|[]]]]]; discriminate H.
    + find_event.
  - split; [discriminate|]. intros _.
    set (started := [InstallLog INFO (DownloadingInstaller version_full download_url);
                     Urlretrieve download_url installer_path]).
    set (downloaded := (started ++ _)%list).
    assert (In (RunInstaller cmd) downloaded) as Hrun by find_event.
    set (after := match os_remove installer_path with
                  | Some e => [InstallLog ERROR (ErrorDeletingInstaller e)]
                  | None => []
                  end).
    destruct (check_call spawn_wait cmd) as [u|e]; cbn [snd].
    + exists (downloaded ++ [InstallLog SUCCESS (InstalledSuccessfully version_full)])%list,
        after.
      split; [now rewrite <- !app_assoc|]. split; [|reflexivity].
      apply in_or_app. now left.
    + destruct e as [| | |rc| |]; try (exists downloaded, after; auto; fail).
      exists (downloaded
              ++ [InstallLog ERROR (ErrorInstalling version_full rc);
                  InstallMessageBox "Installation Error"
                    (ErrorInstalling version_full rc)])%list, after.
      split; [now rewrite <- !app_assoc|]. split; [|reflexivity].
      apply in_or_app. now left.
Qed.
End Install.

Lemma install_succeeds_iff_witness :
  fst (download_and_install_python (GetRaised Timeout) (fun _ _ => None)
         (fun _ => Ok 0%Z) (fun _ => None) "3.11") = Ok true.
Proof.
  apply (proj1 (install_succeeds_iff (GetRaised Timeout) (fun _ _ => None)
                  (fun _ => Ok 0%Z) (fun _ => None) "3.11")).
  split; reflexivity.
Defined.

Lemma installer_is_removed_after_run_witness :
  exists before after,
    snd (download_and_install_python (GetRaised Timeout) (fun _ _ => None)
           (fun _ => Raise FileNotFoundError) (fun _ => Some "in use") "3.11")
    = (before ++ OsRemove "python-3.11-installer.exe" :: after)%list /\
    In (RunInstaller ["python-3.11-installer.exe"; "/passive"; "/norestart"]) before /\
    after = [InstallLog ERROR (ErrorDeletingInstaller "in use")].
Proof.
  apply (proj2 (installer_is_removed_after_run (GetRaised Timeout) (fun _ _ => None)
                  (fun _ => Raise FileNotFoundError) (fun _ => Some "in use") "3.11")).
  reflexivity.
Defined.

(** * Settings written by [save_setting] are read back by [load_settings] *)

(** ** Numbers in the settings file *)

Lemma digits_value_acc (u : Decimal.uint) :
  forall acc : positive,
    digits_value (Z.pos acc) (NilEmpty.string_of_uint u)
    = Z.pos (Pos.of_uint_acc u acc).
Proof.
  induction u; intros acc; cbn [NilEmpty.string_of_uint digits_value Pos.of_uint_acc];
    try reflexivity;
    match goal with
    | |- digits_value ?x _ = _ =>
        match goal with
        | |- _ = Z.pos (Pos.of_uint_acc _ ?a) =>
            replace x with (Z.pos a) by (unfold code; simpl; lia)
        end
    end; apply IHu.
Qed.

Lemma digits_value_uint (u : Decimal.uint) :
  digits_value 0 (NilEmpty.string_of_uint u) = Z.of_N (Pos.of_uint u).
Proof.
  induction u; cbn [NilEmpty.string_of_uint digits_value Pos.of_uint];
    try reflexivity; try exact IHu;
    match goal with
    | |- digits_value ?x _ = Z.of_N (N.pos (Pos.of_uint_acc _ ?a)) =>
        replace x with (Z.pos a) by (unfold code; simpl; lia)
    end; apply digits_value_acc.
Qed.

Lemma digits_value_pos (p : positive) :
  digits_value 0 (NilEmpty.string_of_uint (Pos.to_uint p)) = Z.pos p.
Proof. now rewrite digits_value_uint, DecimalPos.Unsigned.of_to. Qed.

Lemma string_of_uint_digits (u : Decimal.uint) :
  all_chars isdigit (NilEmpty.string_of_uint u) = true.
Proof. induction u; simpl; auto. Qed.

(** The digits of a positive number start with a digit other than 0. *)
Lemma to_uint_head (p : positive) :
  exists c t, NilEmpty.string_of_uint (Pos.to_uint p) = String c t /\
              isdigit c = true /\ c <> "0"%char.
Proof.
  pose proof (DecimalPos.Unsigned.to_of (Pos.to_uint p)) as Hn.
  rewrite DecimalPos.Unsigned.of_to in Hn. simpl in Hn.
  pose proof (DecimalPos.Unsigned.to_uint_nonzero p) as Hz.
  assert (Decimal.nzhead (Pos.to_uint p) <> Decimal.Nil) as Hnz.
  { intros E. apply DecimalFacts.unorm_0 in E. congruence. }
  rewrite (DecimalFacts.unorm_nzhead _ Hnz) in Hn.
  pose proof (DecimalFacts.nzhead_nonzero (Pos.to_uint p)) as H0. rewrite <- Hn in H0, Hnz.
  destruct (Pos.to_uint p) as [|u|u|u|u|u|u|u|u|u|u];
    try congruence; try (exfalso; exact (H0 u eq_refl));
    simpl; eexists; eexists; (split; [reflexivity|split; [reflexivity|discriminate]]).
Qed.

Lemma span_digits_app (d rest : string) :
  all_chars isdigit d = true ->
  match rest with EmptyString => true | String c _ => negb (isdigit c) end = true ->
  span_digits (d +:+ rest) = (d, rest).
Proof.
  intros Hd Hrest. induction d as [|c d IH].
  - simpl. destruct rest as [|c r]; [reflexivity|].
    simpl. apply negb_true_iff in Hrest. now rewrite Hrest.
  - simpl in Hd. apply andb_prop in Hd as [Hc Hd].
    change (String c d +:+ rest) with (String c (d +:+ rest)).
    cbn [span_digits]. now rewrite Hc, (IH Hd).
Qed.

Lemma follows_no_digit (rest : string) :
  follows rest = true ->
  match rest with EmptyString => true | String c _ => negb (isdigit c) end = true.
Proof.
  destruct rest as [|c r]; [reflexivity|]. simpl. intros H.
  apply orb_prop in H as [H|H]; apply Ascii.eqb_eq in H; now subst c.
Qed.

Lemma follows_no_float (rest : string) :
  follows rest = true -> float_follows rest = false.
Proof.
  destruct rest as [|c r]; [reflexivity|]. simpl. intros H.
  apply orb_prop in H as [H|H]; apply Ascii.eqb_eq in H; now subst c.
Qed.

Lemma scan_digits (p : positive) (rest : string) :
  follows rest = true ->
  exists c t,
    NilEmpty.string_of_uint (Pos.to_uint p) = String c t /\
    isdigit c = true /\ c <> "0"%char /\
    span_digits (String c (t +:+ rest)) = (String c t, rest).
Proof.
  intros Hf. destruct (to_uint_head p) as [c [t [E [Hc H0]]]].
  exists c, t. repeat split; try assumption.
  change (String c (t +:+ rest)) with (String c t +:+ rest).
  apply span_digits_app; [|now apply follows_no_digit].
  rewrite <- E. apply string_of_uint_digits.
Qed.

Lemma match_integer_digit (c : ascii) (t : string) :
  isdigit c = true -> c <> "0"%char ->
  match_integer (String c t)
  = let (d, r) := span_digits (String c t) in Some (false, d, r).
Proof.
  intros Hc H0. unfold match_integer.
  destruct c as [[] [] [] [] [] [] [] []]; try discriminate Hc;
    try reflexivity; congruence.
Qed.

Lemma match_integer_minus (c : ascii) (t : string) :
  isdigit c = true -> c <> "0"%char ->
  match_integer (String "-" (String c t))
  = let (d, r) := span_digits (String c t) in Some (true, d, r).
Proof.
  intros Hc H0. unfold match_integer.
  destruct c as [[] [] [] [] [] [] [] []]; try discriminate Hc;
    try reflexivity; congruence.
Qed.

Lemma scan_number_roundtrip (n : Z) (rest : string) :
  int_ok n = true -> follows rest = true ->
  scan_number (str_of_Z n +:+ rest) = Some (Scanned (JInt n) rest).
Proof.
  intros Hok Hf. unfold int_ok in Hok. apply Nat.leb_le in Hok.
  assert (forall d, (String.length d <= 4300)%nat ->
                    (4300 <? String.length d)%nat = false) as Hlim.
  { intros d Hd. apply Nat.ltb_ge. exact Hd. }
  destruct n as [|p|p]; unfold str_of_Z in *; simpl Z.to_int in *;
    simpl Z.abs in *; cbn [NilEmpty.string_of_int] in *.
  - change (NilEmpty.string_of_uint (Decimal.D0 Decimal.Nil) +:+ rest)
      with (String "0" rest).
    unfold scan_number, match_integer. cbv beta iota zeta.
    now rewrite (follows_no_float rest Hf).
  - destruct (scan_digits p rest Hf) as [c [t [E [Hc [H0 Hs]]]]].
    rewrite E in *. change (String c t +:+ rest) with (String c (t +:+ rest)).
    unfold scan_number. rewrite (match_integer_digit c _ Hc H0), Hs. cbv beta iota zeta.
    rewrite (follows_no_float rest Hf), (Hlim _ Hok).
    rewrite <- E, digits_value_pos. reflexivity.
  - destruct (scan_digits p rest Hf) as [c [t [E [Hc [H0 Hs]]]]].
    rewrite E in *.
    change (String "-" (String c t) +:+ rest)
      with (String "-" (String c (t +:+ rest))).
    unfold scan_number. rewrite (match_integer_minus c _ Hc H0), Hs. cbv beta iota zeta.
    rewrite (follows_no_float rest Hf), (Hlim _ Hok).
    rewrite <- E, digits_value_pos. reflexivity.
Qed.
(** ** Strings in the settings file *)

Lemma scanstring_escape_char (c : ascii) (t : string) :
  scanstring (escape_char c +:+ t) = scan_cons c (scanstring t).
Proof.
  destruct c as [[] [] [] [] [] [] [] []]; reflexivity.
Qed.

Lemma scanstring_escape (s rest : string) :
  scanstring (escape s +:+ String dquote rest) = Scanned s rest.
Proof.
  induction s as [|c s IH].
  - reflexivity.
  - cbn [escape]. rewrite append_assoc, scanstring_escape_char, IH.
    reflexivity.
Qed.

Lemma scanstring_encode_string (s rest : string) :
  exists t, encode_string s +:+ rest = String dquote t /\
            scanstring t = Scanned s rest.
Proof.
  exists (escape s +:+ String dquote rest). split.
  - unfold encode_string.
    change (String dquote (escape s) +:+ String dquote "")
      with (String dquote (escape s +:+ String dquote "")).
    change (String dquote (escape s +:+ String dquote "") +:+ rest)
      with (String dquote ((escape s +:+ String dquote "") +:+ rest)).
    now rewrite append_assoc.
  - apply scanstring_escape.
Qed.

(** ** Layout of the encoded text *)

Lemma skip_ws_spaces (n : nat) (t : string) :
  skip_ws (spaces n +:+ t) = skip_ws t.
Proof. induction n; [reflexivity|exact IHn]. Qed.

Lemma skip_ws_newline_indent (level : nat) (t : string) :
  skip_ws (newline_indent level +:+ t) = skip_ws t.
Proof.
  unfold newline_indent, NL. rewrite append_assoc.
  change (skip_ws (spaces (4 * level) +:+ t) = skip_ws t).
  apply skip_ws_spaces.
Qed.

Lemma follows_newline_indent (level : nat) (t : string) :
  follows (newline_indent level +:+ t) = true.
Proof. reflexivity. Qed.

Lemma encode_head (v : json) (level : nat) :
  exists c t, encode level v = String c t /\ opens_value c = true.
Proof.
  destruct v as [|[]|n|s|[|x items]|[|p pairs]];
    try (eexists; eexists; split; [reflexivity|reflexivity]).
  cbn [encode]. unfold str_of_Z.
  destruct n as [|p|p]; simpl Z.to_int; cbn [NilEmpty.string_of_int].
  - eexists; eexists; split; reflexivity.
  - destruct (to_uint_head p) as [c [t [E [Hc _]]]]. rewrite E.
    exists c, t. split; [reflexivity|].
    destruct c as [[] [] [] [] [] [] [] []]; try discriminate Hc; reflexivity.
  - eexists; eexists; split; reflexivity.
Qed.

Lemma skip_ws_head (c : ascii) (t : string) :
  opens_value c = true -> skip_ws (String c t) = String c t.
Proof.
  unfold opens_value. intros H. cbn [skip_ws].
  destruct (is_ws c); [discriminate H|reflexivity].
Qed.
(** ** Reading back what [json.dump] wrote *)

Lemma json_induction (P : json -> Prop) :
  P JNull -> (forall b, P (JBool b)) -> (forall n, P (JInt n)) ->
  (forall s, P (JStr s)) ->
  (forall items, Forall P items -> P (JArr items)) ->
  (forall pairs, Forall (fun p : string * json => P (snd p)) pairs -> P (JObj pairs)) ->
  forall v, P v.
Proof.
  intros Hn Hb Hi Hs Ha Ho. fix IH 1. intros [|b|n|s|items|pairs].
  - exact Hn.
  - apply Hb.
  - apply Hi.
  - apply Hs.
  - apply Ha. induction items; constructor; [apply IH|assumption].
  - apply Ho. induction pairs as [|[k x] pairs]; constructor; [apply IH|assumption].
Qed.

Lemma concat_cons_cons (sep x y : string) (l : list string) :
  String.concat sep (x :: y :: l) = x +:+ sep +:+ String.concat sep (y :: l).
Proof. reflexivity. Qed.

Lemma scan_once_string (fuel depth : nat) (t s rest : string) :
  scanstring t = Scanned s rest ->
  scan_once (S fuel) depth (String dquote t) = Scanned (JStr s) rest.
Proof. intros H. simpl. now rewrite H. Qed.

Lemma scan_once_number (fuel depth : nat) (c : ascii) (t : string)
    (r : scan json) :
  isdigit c || Ascii.eqb c "-" = true ->
  scan_number (String c t) = Some r ->
  scan_once (S fuel) depth (String c t) = r.
Proof.
  intros Hc Hn.
  destruct c as [[] [] [] [] [] [] [] []]; try discriminate Hc;
    cbn [scan_once]; simpl Ascii.eqb; cbv iota;
    unfold starts_with; cbn [expect]; simpl Ascii.eqb; cbv iota;
    now rewrite Hn.
Qed.

Lemma scan_once_array (fuel depth : nat) (t : string) (c : ascii) (t' : string) :
  skip_ws t = String c t' -> opens_value c = true ->
  scan_once (S fuel) (S depth) (String "[" t)
  = match parse_items fuel depth (String c t') with
    | Scanned items rest => Scanned (JArr items) rest
    | DecodeError => DecodeError
    | Unmodelled => Unmodelled
    end.
Proof.
  intros E H. cbn [scan_once]. simpl Ascii.eqb. cbv iota. rewrite E.
  destruct c as [[] [] [] [] [] [] [] []]; try discriminate H; reflexivity.
Qed.

Lemma scan_once_object (fuel depth : nat) (t t' : string) :
  skip_ws t = String dquote t' ->
  scan_once (S fuel) (S depth) (String "{" t)
  = match parse_members fuel depth t' with
    | Scanned pairs rest => Scanned (JObj pairs) rest
    | DecodeError => DecodeError
    | Unmodelled => Unmodelled
    end.
Proof.
  intros E. cbn [scan_once]. simpl Ascii.eqb. cbv iota. rewrite E.
  reflexivity.
Qed.

Lemma parse_items_last (fuel depth : nat) (s : string) (x : json)
    (r1 rest : string) :
  scan_once fuel depth s = Scanned x r1 -> skip_ws r1 = String "]" rest ->
  parse_items (S fuel) depth s = Scanned [x] rest.
Proof. intros H1 H2. cbn [parse_items]. now rewrite H1, H2. Qed.

Lemma parse_items_more (fuel depth : nat) (s : string) (x : json)
    (r2 rest : string) (items : list json) :
  scan_once fuel depth s = Scanned x ("," +:+ r2) ->
  parse_items fuel depth (skip_ws r2) = Scanned items rest ->
  parse_items (S fuel) depth s = Scanned (x :: items) rest.
Proof.
  intros H1 H3. cbn [parse_items]. rewrite H1.
  change (skip_ws ("," +:+ r2)) with (String "," r2). cbv iota.
  now rewrite H3.
Qed.

Lemma parse_members_last (fuel depth : nat) (s key r2 r3 rest : string)
    (x : json) :
  scanstring s = Scanned key (": " +:+ r2) ->
  scan_once fuel depth (skip_ws r2) = Scanned x r3 ->
  skip_ws r3 = String "}" rest ->
  parse_members (S fuel) depth s = Scanned [(key, x)] rest.
Proof.
  intros H1 H3 H4. cbn [parse_members]. rewrite H1.
  change (skip_ws (": " +:+ r2)) with (String ":" (String " " r2)). cbv iota.
  change (skip_ws (String " " r2)) with (skip_ws r2).
  now rewrite H3, H4.
Qed.

Lemma parse_members_more (fuel depth : nat) (s key r2 r4 r5 rest : string)
    (x : json) (pairs : list (string * json)) :
  scanstring s = Scanned key (": " +:+ r2) ->
  scan_once fuel depth (skip_ws r2) = Scanned x ("," +:+ r4) ->
  skip_ws r4 = String dquote r5 ->
  parse_members fuel depth r5 = Scanned pairs rest ->
  parse_members (S fuel) depth s = Scanned ((key, x) :: pairs) rest.
Proof.
  intros H1 H3 H5 H6. cbn [parse_members]. rewrite H1.
  change (skip_ws (": " +:+ r2)) with (String ":" (String " " r2)). cbv iota.
  change (skip_ws (String " " r2)) with (skip_ws r2).
  rewrite H3.
  change (skip_ws ("," +:+ r4)) with (String "," r4). cbv iota.
  rewrite H5. simpl Ascii.eqb. cbv iota. now rewrite H6.
Qed.

Lemma skip_ws_encode (level : nat) (v : json) (t : string) :
  skip_ws (encode level v +:+ t) = encode level v +:+ t.
Proof.
  destruct (encode_head v level) as [c [u [E H]]]. rewrite E.
  change (String c u +:+ t) with (String c (u +:+ t)).
  now apply skip_ws_head.
Qed.

Lemma str_of_Z_head (n : Z) :
  exists c t, str_of_Z n = String c t /\ isdigit c || Ascii.eqb c "-" = true.
Proof.
  unfold str_of_Z.
  destruct n as [|p|p]; simpl Z.to_int; cbn [NilEmpty.string_of_int].
  - eexists; eexists; split; reflexivity.
  - destruct (to_uint_head p) as [c [t [E [Hc _]]]]. rewrite E.
    exists c, t. split; [reflexivity|]. now rewrite Hc.
  - eexists; eexists; split; reflexivity.
Qed.

(** The deepest nesting among the values of a list. *)
Lemma deepest_items (items : list json) (n : nat) :
  (fold_right (fun x acc => Nat.max (nesting x) acc) 0 items <= n)%nat
  <-> Forall (fun x => (nesting x <= n)%nat) items.
Proof.
  induction items as [|x items IH]; cbn [fold_right].
  - split; [constructor|lia].
  - rewrite Forall_cons_iff, <- IH. lia.
Qed.

Lemma deepest_pairs (pairs : list (string * json)) (n : nat) :
  (fold_right (fun (p : string * json) acc =>
                 match p with (_, x) => Nat.max (nesting x) acc end) 0 pairs
   <= n)%nat
  <-> Forall (fun p : string * json => (nesting (snd p) <= n)%nat) pairs.
Proof.
  induction pairs as [|[k x] pairs IH]; cbn [fold_right].
  - split; [constructor|lia].
  - rewrite Forall_cons_iff, <- IH. cbn [snd]. lia.
Qed.

Section Items.
Variables (level depth : nat) (rest : string).

Lemma skip_ws_concat_items (y : json) (items : list json) (t : string) :
  skip_ws (String.concat (item_separator (S level))
             (map (encode (S level)) (y :: items)) +:+ t)
  = String.concat (item_separator (S level))
      (map (encode (S level)) (y :: items)) +:+ t.
Proof.
  cbn [map]. destruct items as [|z items].
  - cbn [map String.concat]. apply skip_ws_encode.
  - cbn [map]. rewrite concat_cons_cons, append_assoc. apply skip_ws_encode.
Qed.

Lemma parse_items_encode (items : list json) :
  Forall reads_back items -> items <> [] ->
  Forall (fun x => (nesting x <= depth)%nat) items ->
  forall fuel : nat,
    (fold_right (fun x acc => S (size x) + acc) 0 items <= fuel)%nat ->
    parse_items fuel depth
      (String.concat (item_separator (S level)) (map (encode (S level)) items)
       +:+ newline_indent level +:+ "]" +:+ rest)
    = Scanned items rest.
Proof.
  induction 1 as [|x items Hx Hitems IH]; [congruence|].
  intros _ Hdeep fuel Hfuel.
  apply Forall_cons_iff in Hdeep as [Hdx Hdeep].
  cbn [fold_right] in Hfuel. destruct fuel as [|fuel]; [lia|].
  destruct items as [|y items].
  - cbn [map String.concat].
    eapply parse_items_last.
    + apply Hx; [lia|exact Hdx|apply follows_newline_indent].
    + rewrite skip_ws_newline_indent. reflexivity.
  - cbn [map]. rewrite concat_cons_cons. unfold item_separator at 1.
    rewrite !append_assoc.
    eapply parse_items_more.
    + apply Hx; [lia|exact Hdx|reflexivity].
    + rewrite skip_ws_newline_indent.
      change (encode (S level) y :: map (encode (S level)) items)
        with (map (encode (S level)) (y :: items)).
      rewrite skip_ws_concat_items. apply IH; [discriminate|exact Hdeep|lia].
Qed.

Lemma concat_pairs_head (q : string * json) (pairs : list (string * json))
    (tail : string) :
  exists t, String.concat (item_separator (S level))
              (map (encode_pair (S level)) (q :: pairs)) +:+ tail
            = String dquote t.
Proof.
  destruct q as [k y]. destruct pairs as [|z pairs].
  - cbn [map String.concat encode_pair]. rewrite !append_assoc.
    match goal with
    | |- context [encode_string k +:+ ?r] =>
        destruct (scanstring_encode_string k r) as [w [Ew _]]
    end.
    rewrite Ew. now exists w.
  - cbn [map]. rewrite concat_cons_cons. cbn [encode_pair]. rewrite !append_assoc.
    match goal with
    | |- context [encode_string k +:+ ?r] =>
        destruct (scanstring_encode_string k r) as [w [Ew _]]
    end.
    rewrite Ew. now exists w.
Qed.

Lemma parse_members_encode (pairs : list (string * json)) :
  Forall (fun p : string * json => reads_back (snd p)) pairs -> pairs <> [] ->
  Forall (fun p : string * json => (nesting (snd p) <= depth)%nat) pairs ->
  forall (fuel : nat) (t : string),
    (fold_right (fun (p : string * json) acc =>
                   match p with (_, x) => S (size x) + acc end) 0 pairs <= fuel)%nat ->
    String dquote t
    = String.concat (item_separator (S level)) (map (encode_pair (S level)) pairs)
      +:+ newline_indent level +:+ "}" +:+ rest ->
    parse_members fuel depth t = Scanned pairs rest.
Proof.
  induction 1 as [|[k x] pairs Hx Hpairs IH]; [congruence|].
  intros _ Hdeep fuel t Hfuel Ht.
  apply Forall_cons_iff in Hdeep as [Hdx Hdeep]. cbn [snd] in Hdx.
  cbn [fold_right] in Hfuel. destruct fuel as [|fuel]; [lia|].
  simpl snd in Hx.
  destruct pairs as [|q pairs].
  - cbn [map String.concat encode_pair] in Ht. rewrite !append_assoc in Ht.
    match type of Ht with
    | _ = encode_string k +:+ ?tail =>
        destruct (scanstring_encode_string k tail) as [u [Eu Hu]]
    end.
    rewrite Eu in Ht. injection Ht as ->.
    eapply parse_members_last.
    + exact Hu.
    + rewrite skip_ws_encode.
      apply Hx; [lia|exact Hdx|apply follows_newline_indent].
    + rewrite skip_ws_newline_indent. reflexivity.
  - change (map (encode_pair (S level)) ((k, x) :: q :: pairs))
      with (encode_pair (S level) (k, x)
            :: encode_pair (S level) q :: map (encode_pair (S level)) pairs) in Ht.
    rewrite concat_cons_cons in Ht.
    change (encode_pair (S level) q :: map (encode_pair (S level)) pairs)
      with (map (encode_pair (S level)) (q :: pairs)) in Ht.
    unfold item_separator in Ht at 1.
    cbn [encode_pair] in Ht. rewrite !append_assoc in Ht.
    match type of Ht with
    | _ = encode_string k +:+ ?tail =>
        destruct (scanstring_encode_string k tail) as [u [Eu Hu]]
    end.
    rewrite Eu in Ht. injection Ht as ->.
    destruct (concat_pairs_head q pairs (newline_indent level +:+ "}" +:+ rest))
      as [t' Et'].
    eapply parse_members_more.
    + exact Hu.
    + rewrite skip_ws_encode. apply Hx; [lia|exact Hdx|reflexivity].
    + rewrite skip_ws_newline_indent, Et'. reflexivity.
    + apply IH; [discriminate|exact Hdeep|lia|]. now rewrite Et'.
Qed.

End Items.
Lemma encode_array (level : nat) (x : json) (items : list json) :
  encode level (JArr (x :: items))
  = String "[" (newline_indent (S level)
      +:+ String.concat (item_separator (S level)) (map (encode (S level)) (x :: items))
      +:+ newline_indent level +:+ "]").
Proof. reflexivity. Qed.

Lemma encode_object (level : nat) (p : string * json) (pairs : list (string * json)) :
  encode level (JObj (p :: pairs))
  = String "{" (newline_indent (S level)
      +:+ String.concat (item_separator (S level))
            (map (encode_pair (S level)) (p :: pairs))
      +:+ newline_indent level +:+ "}").
Proof. reflexivity. Qed.

Lemma concat_items_head (level : nat) (x : json) (items : list json) (t : string) :
  exists c u,
    String.concat (item_separator level) (map (encode level) (x :: items)) +:+ t
    = String c u /\ opens_value c = true.
Proof.
  destruct (encode_head x level) as [c [u [E H]]].
  destruct items as [|y items].
  - cbn [map String.concat]. rewrite E. exists c, (u +:+ t). now split.
  - cbn [map]. rewrite concat_cons_cons, append_assoc, E.
    eexists c, _. split; [reflexivity|exact H].
Qed.

Lemma storable_items (items : list json) :
  Forall (fun x => storable x = true -> reads_back x) items ->
  forallb storable items = true -> Forall reads_back items.
Proof.
  induction 1 as [|x items Hx _ IH]; [constructor|].
  cbn [forallb]. intros H. apply andb_prop in H as [H1 H2].
  constructor; auto.
Qed.

Lemma storable_pairs (pairs : list (string * json)) :
  Forall (fun p : string * json => storable (snd p) = true -> reads_back (snd p)) pairs ->
  forallb (fun p : string * json => match p with (_, x) => storable x end) pairs = true ->
  Forall (fun p : string * json => reads_back (snd p)) pairs.
Proof.
  induction 1 as [|[k x] pairs Hx _ IH]; [constructor|].
  cbn [forallb]. intros H. apply andb_prop in H as [H1 H2].
  constructor; auto.
Qed.

(** The decoder gives back every storable value from its encoded text,
    whatever follows it inside an enclosing array or object. *)
Lemma storable_reads_back (v : json) : storable v = true -> reads_back v.
Proof.
  induction v as [|b|n|s|items IH|pairs IH] using json_induction;
    intros Hv fuel depth level rest Hfuel Hdepth Hrest;
    (destruct fuel as [|fuel]; [cbn [size] in Hfuel; lia|]).
  - reflexivity.
  - destruct b; reflexivity.
  - cbn [encode storable] in *.
    destruct (str_of_Z_head n) as [c [t [E Hc]]].
    pose proof (scan_number_roundtrip n rest Hv Hrest) as Hn.
    rewrite E in *. change (String c t +:+ rest) with (String c (t +:+ rest)) in *.
    now apply scan_once_number.
  - cbn [encode].
    destruct (scanstring_encode_string s rest) as [t [E Ht]]. rewrite E.
    now apply scan_once_string.
  - cbn [nesting] in Hdepth. destruct depth as [|depth]; [lia|].
    destruct items as [|x items]; [reflexivity|].
    rewrite encode_array.
    match goal with
    | |- scan_once _ _ (String "[" ?a +:+ rest) = _ =>
        change (String "[" a +:+ rest) with (String "[" (a +:+ rest))
    end.
    rewrite !append_assoc.
    destruct (concat_items_head (S level) x items
                (newline_indent level +:+ "]" +:+ rest)) as [c [u [E Hc]]].
    rewrite (scan_once_array fuel depth _ c u);
      [| rewrite skip_ws_newline_indent, E; now apply skip_ws_head | exact Hc].
    rewrite <- E, parse_items_encode; [reflexivity| |discriminate| |].
    + cbn [storable] in Hv. now apply storable_items.
    + apply deepest_items. lia.
    + cbn [size] in Hfuel. lia.
  - cbn [nesting] in Hdepth. destruct depth as [|depth]; [lia|].
    destruct pairs as [|p pairs]; [reflexivity|].
    rewrite encode_object.
    match goal with
    | |- scan_once _ _ (String "{" ?a +:+ rest) = _ =>
        change (String "{" a +:+ rest) with (String "{" (a +:+ rest))
    end.
    rewrite !append_assoc.
    destruct (concat_pairs_head level p pairs
                (newline_indent level +:+ "}" +:+ rest)) as [u E].
    rewrite (scan_once_object fuel depth _ u);
      [| now rewrite skip_ws_newline_indent, E].
    rewrite (parse_members_encode level depth rest (p :: pairs));
      [reflexivity| |discriminate| | |].
    + cbn [storable] in Hv. apply andb_prop in Hv as [_ Hv].
      now apply storable_pairs.
    + apply deepest_pairs. lia.
    + cbn [size] in Hfuel. lia.
    + now rewrite E.
Qed.

(** ** Enough fuel *)

Lemma length_append (a b : string) :
  String.length (a +:+ b) = (String.length a + String.length b)%nat.
Proof. induction a as [|c a IH]; simpl; [reflexivity|now rewrite IH]. Qed.

Lemma item_separator_length (level : nat) :
  (2 <= String.length (item_separator level))%nat.
Proof. unfold item_separator, newline_indent, NL. simpl. lia. Qed.

Lemma newline_indent_length (level : nat) :
  (1 <= String.length (newline_indent level))%nat.
Proof. unfold newline_indent, NL. simpl. lia. Qed.

Lemma encode_nonempty (level : nat) (v : json) :
  (1 <= String.length (encode level v))%nat.
Proof.
  destruct (encode_head v level) as [c [t [E _]]]. rewrite E. simpl. lia.
Qed.

Lemma size_le_length (v : json) :
  forall level : nat, (size v <= String.length (encode level v))%nat.
Proof.
  induction v as [|b|n|s|items IH|pairs IH] using json_induction; intros level;
    try (apply encode_nonempty).
  - destruct items as [|x items]; [simpl; lia|].
    rewrite encode_array. cbn [String.length size].
    rewrite !length_append.
    assert (forall l : list json, Forall (fun v => forall level : nat,
                 (size v <= String.length (encode level v))%nat) l ->
            l <> [] ->
            (fold_right (fun x acc => S (size x) + acc) 0 l
             <= 1 + String.length (String.concat (item_separator (S level))
                                 (map (encode (S level)) l)))%nat) as H.
    { induction 1 as [|y l Hy Hl IHl]; [congruence|]. intros _.
      destruct l as [|z l].
      - cbn [fold_right map String.concat]. specialize (Hy (S level)). lia.
      - cbn [map]. rewrite concat_cons_cons, !length_append.
        change (encode (S level) z :: map (encode (S level)) l)
          with (map (encode (S level)) (z :: l)).
        cbn [fold_right] in *. specialize (Hy (S level)).
        assert (z :: l <> []) as Hne by discriminate.
        specialize (IHl Hne). pose proof (item_separator_length (S level)). lia. }
    specialize (H (x :: items) IH). simpl (String.length "]").
    assert (x :: items <> []) as Hne by discriminate. specialize (H Hne).
    pose proof (newline_indent_length (S level)). lia.
  - destruct pairs as [|p pairs]; [simpl; lia|].
    rewrite encode_object. cbn [String.length size].
    rewrite !length_append.
    assert (forall l : list (string * json),
               Forall (fun p : string * json => forall level : nat,
                 (size (snd p) <= String.length (encode level (snd p)))%nat) l ->
            l <> [] ->
            (fold_right (fun (p : string * json) acc =>
                           match p with (_, x) => S (size x) + acc end) 0 l
             <= 1 + String.length (String.concat (item_separator (S level))
                                 (map (encode_pair (S level)) l)))%nat) as H.
    { induction 1 as [|[k y] l Hy Hl IHl]; [congruence|]. intros _.
      simpl snd in Hy. specialize (Hy (S level)).
      destruct l as [|z l].
      - cbn [fold_right map String.concat encode_pair].
        rewrite !length_append. lia.
      - cbn [map]. rewrite concat_cons_cons, !length_append.
        change (encode_pair (S level) z :: map (encode_pair (S level)) l)
          with (map (encode_pair (S level)) (z :: l)).
        cbn [fold_right] in *.
        assert (z :: l <> []) as Hne by discriminate.
        specialize (IHl Hne). pose proof (item_separator_length (S level)).
        cbn [encode_pair]. rewrite !length_append. lia. }
    specialize (H (p :: pairs) IH). simpl (String.length "}").
    assert (p :: pairs <> []) as Hne by discriminate. specialize (H Hne).
    pose proof (newline_indent_length (S level)). lia.
Qed.

(** ** Dictionaries without repeated keys *)

Lemma distinct_NoDup (keys : list string) :
  distinct keys = true <-> List.NoDup keys.
Proof.
  induction keys as [|k keys IH]; cbn [distinct].
  - split; [constructor|reflexivity].
  - rewrite andb_true_iff, negb_true_iff, IH. split.
    + intros [H1 H2]. constructor; [|exact H2].
      intros Hin. apply in_list_In in Hin. congruence.
    + intros H. inversion H as [|? ? Hn Hd]; subst. split; [|exact Hd].
      destruct (in_list k keys) eqn:E; [|reflexivity].
      apply in_list_In in E. contradiction.
Qed.

Lemma dict_set_fresh (k : string) (x : json) (d : list (string * json)) :
  ~ In k (map fst d) -> dict_set k x d = (d ++ [(k, x)])%list.
Proof.
  induction d as [|[k' y] d IH]; [reflexivity|].
  cbn [map fst dict_set]. intros H.
  destruct (String.eqb k' k) eqn:E.
  - apply String.eqb_eq in E. subst k'. exfalso. apply H. now left.
  - cbn [app]. rewrite IH; [reflexivity|]. intros Hin. apply H. now right.
Qed.

Lemma dict_set_keys (k : string) (x : json) (d : list (string * json)) :
  map fst (dict_set k x d)
  = if in_list k (map fst d) then map fst d else (map fst d ++ [k])%list.
Proof.
  induction d as [|[k' y] d IH]; [reflexivity|].
  cbn [map fst dict_set]. unfold in_list in *. cbn [existsb].
  rewrite (String.eqb_sym k k').
  destruct (String.eqb k' k) eqn:E; [reflexivity|].
  cbn [orb map fst]. rewrite IH.
  now destruct (existsb (String.eqb k) (map fst d)).
Qed.

Lemma dict_set_distinct (k : string) (x : json) (d : list (string * json)) :
  distinct (map fst d) = true -> distinct (map fst (dict_set k x d)) = true.
Proof.
  rewrite dict_set_keys. destruct (in_list k (map fst d)) eqn:E; [auto|].
  rewrite !distinct_NoDup. intros H.
  apply List.NoDup_app; [exact H|repeat constructor; intros []|].
  intros y Hy [<-|[]]. apply in_list_In in Hy. congruence.
Qed.

Lemma dict_set_values (P : json -> bool) (k : string) (x : json)
    (d : list (string * json)) :
  P x = true ->
  forallb (fun p : string * json => match p with (_, y) => P y end) d = true ->
  forallb (fun p : string * json => match p with (_, y) => P y end) (dict_set k x d)
  = true.
Proof.
  intros Hx. induction d as [|[k' y] d IH]; cbn [forallb dict_set].
  - now rewrite Hx.
  - intros H. apply andb_prop in H as [H1 H2].
    destruct (String.eqb k' k); cbn [forallb].
    + now rewrite Hx, H2.
    + now rewrite H1, IH.
Qed.

Lemma dict_set_storable (k : string) (x : json) (d : list (string * json)) :
  storable x = true -> storable (JObj d) = true ->
  storable (JObj (dict_set k x d)) = true.
Proof.
  cbn [storable]. intros Hx H. apply andb_prop in H as [H1 H2].
  rewrite dict_set_distinct by exact H1.
  now rewrite (dict_set_values storable) by assumption.
Qed.

Lemma fold_dict_set_distinct (pairs d : list (string * json)) :
  List.NoDup (map fst (d ++ pairs)%list) ->
  fold_left (fun d (p : string * json) => match p with (k, x) => dict_set k x d end)
            pairs d
  = (d ++ pairs)%list.
Proof.
  revert d. induction pairs as [|[k x] pairs IH]; intros d H; cbn [fold_left].
  - now rewrite app_nil_r.
  - rewrite dict_set_fresh.
    + rewrite IH; rewrite <- app_assoc; [reflexivity|exact H].
    + rewrite map_app in H. cbn [map fst] in H.
      apply List.NoDup_remove_2 in H. intros Hin. apply H. apply in_or_app. now left.
Qed.

Lemma as_dicts_storable (v : json) : storable v = true -> as_dicts v = v.
Proof.
  induction v as [|b|n|s|items IH|pairs IH] using json_induction;
    try reflexivity; cbn [storable as_dicts]; intros H.
  - f_equal. induction IH as [|x items Hx _ IHitems]; [reflexivity|].
    cbn [forallb map] in *. apply andb_prop in H as [H1 H2].
    now rewrite Hx, IHitems.
  - apply andb_prop in H as [Hd Hv]. f_equal.
    assert (map (fun p : string * json => match p with (k, x) => (k, as_dicts x) end)
                pairs = pairs) as ->.
    { clear Hd. induction IH as [|[k x] pairs Hx _ IHpairs]; [reflexivity|].
      cbn [forallb map snd] in *. apply andb_prop in Hv as [H1 H2].
      now rewrite Hx, IHpairs. }
    apply (fold_dict_set_distinct pairs []). now apply distinct_NoDup.
Qed.

(** [json.loads(json.dumps(v, indent=4))] is [v] for every storable value
    within the nesting modelled. *)
Lemma loads_dumps (v : json) :
  storable v = true -> (nesting v <= JSON_NESTING)%nat ->
  loads (dumps v) = Some (Ok v).
Proof.
  intros Hv Hdeep. unfold loads, dumps.
  pose proof (skip_ws_encode 0 v "") as Hs. rewrite append_empty_r in Hs.
  rewrite Hs.
  pose proof (storable_reads_back v Hv (2 * String.length (encode 0 v) + 2)
                JSON_NESTING 0 "") as Hr.
  rewrite append_empty_r in Hr. rewrite Hr.
  - cbn [skip_ws]. now rewrite as_dicts_storable.
  - pose proof (size_le_length v 0). lia.
  - exact Hdeep.
  - reflexivity.
Qed.

(** What [load_settings] finds after [json.dump] has written [settings]. *)
Lemma load_settings_written (nt : bool) (settings : json) (fs : filesystem) :
  storable settings = true -> (nesting settings <= JSON_NESTING)%nat ->
  load_settings (<[SETTINGS_FILE := write_translate nt (dumps settings)]> fs)
  = Some (Ok settings).
Proof.
  intros H Hdeep. unfold load_settings, path_exists.
  rewrite open_r_insert, fs_lookup_insert_eq. cbn [negb].
  rewrite universal_write by apply encode_no_cr.
  now apply loads_dumps.
Qed.

(** ** What the decoder returns can be stored again *)

Lemma digits_uint (d : string) :
  all_chars isdigit d = true -> exists u, d = NilEmpty.string_of_uint u.
Proof.
  induction d as [|c d IH]; [now exists Decimal.Nil|].
  cbn [all_chars]. intros H. apply andb_prop in H as [Hc Hd].
  destruct (IH Hd) as [u ->].
  destruct c as [[] [] [] [] [] [] [] []]; try discriminate Hc;
    first [ now exists (Decimal.D0 u) | now exists (Decimal.D1 u)
          | now exists (Decimal.D2 u) | now exists (Decimal.D3 u)
          | now exists (Decimal.D4 u) | now exists (Decimal.D5 u)
          | now exists (Decimal.D6 u) | now exists (Decimal.D7 u)
          | now exists (Decimal.D8 u) | now exists (Decimal.D9 u) ].
Qed.

Lemma string_of_uint_length (u : Decimal.uint) :
  String.length (NilEmpty.string_of_uint u) = Decimal.nb_digits u.
Proof. induction u; simpl; congruence. Qed.

Lemma str_of_Z_of_N (n : N) :
  str_of_Z (Z.of_N n) = NilEmpty.string_of_uint (N.to_uint n).
Proof. destruct n; reflexivity. Qed.

Lemma digits_value_int_ok (d : string) :
  all_chars isdigit d = true -> (String.length d <= 4300)%nat ->
  (0 <= digits_value 0 d)%Z /\ int_ok (digits_value 0 d) = true.
Proof.
  intros Hd Hlen. destruct (digits_uint d Hd) as [u ->].
  rewrite digits_value_uint. split; [apply N2Z.is_nonneg|].
  unfold int_ok. rewrite Z.abs_eq by apply N2Z.is_nonneg. rewrite str_of_Z_of_N.
  change (Pos.of_uint u) with (N.of_uint u).
  rewrite DecimalN.Unsigned.to_of. apply Nat.leb_le.
  rewrite string_of_uint_length in *.
  assert (u = Decimal.Nil \/ u <> Decimal.Nil) as [->|Hn]
    by (destruct u; [now left|right; discriminate..]).
  - simpl. lia.
  - pose proof (DecimalFacts.nb_digits_unorm u Hn). lia.
Qed.

Lemma int_ok_opp (n : Z) : int_ok (- n) = int_ok n.
Proof. unfold int_ok. now rewrite Z.abs_opp. Qed.

Lemma match_integer_digits (s : string) (neg : bool) (d r : string) :
  match_integer s = Some (neg, d, r) -> all_chars isdigit d = true.
Proof.
  unfold match_integer.
  set (q := match s with String "-" s' => (true, s') | _ => (false, s) end).
  destruct q as [neg' s1]. intros H.
  assert (forall c t, isdigit c = true ->
            (let (d0, r0) := span_digits (String c t) in Some (neg', d0, r0))
            = Some (neg, d, r) -> all_chars isdigit d = true) as Hspan.
  { intros c t Hc E. pose proof (span_digits_spec (String c t)) as [Hs _].
    destruct (span_digits (String c t)) as [d0 r0]. injection E as _ <- _.
    exact Hs. }
  destruct s1 as [|c t]; [discriminate|].
  destruct (isdigit c) eqn:Hc.
  - destruct c as [[] [] [] [] [] [] [] []]; try discriminate Hc;
      try (exact (Hspan _ _ Hc H)).
    injection H as _ <- _. reflexivity.
  - destruct c as [[] [] [] [] [] [] [] []]; try discriminate H;
      discriminate Hc.
Qed.

Lemma scan_number_ints_ok (s : string) (v : json) (r : string) :
  scan_number s = Some (Scanned v r) -> ints_ok v = true.
Proof.
  unfold scan_number. destruct (match_integer s) as [[[neg d] r0]|] eqn:E;
    [|discriminate].
  apply match_integer_digits in E.
  destruct (float_follows r0); [discriminate|].
  destruct (4300 <? String.length d)%nat eqn:L; [discriminate|].
  apply Nat.ltb_ge in L. intros H. injection H as <- _.
  destruct (digits_value_int_ok d E L) as [_ Hok].
  cbn [ints_ok]. destruct neg; [now rewrite int_ok_opp|exact Hok].
Qed.

Ltac walk H :=
  repeat match type of H with
         | match ?x with _ => _ end = Scanned _ _ =>
             destruct x eqn:?; try discriminate H
         | (if ?b then _ else _) = Scanned _ _ =>
             destruct b eqn:?; try discriminate H
         end.

Lemma scan_ints_ok (fuel : nat) :
  (forall depth s v r, scan_once fuel depth s = Scanned v r -> ints_ok v = true) /\
  (forall depth s ps r, parse_members fuel depth s = Scanned ps r ->
     forallb (fun p : string * json => match p with (_, x) => ints_ok x end) ps = true) /\
  (forall depth s items r, parse_items fuel depth s = Scanned items r ->
     forallb ints_ok items = true).
Proof.
  induction fuel as [|fuel [IH1 [IH2 IH3]]]; [repeat split; discriminate|].
  repeat split.
  - intros depth s v r H. cbn [scan_once] in H. walk H;
      try (injection H as <- _); try reflexivity;
      try (cbn [ints_ok]; eauto; fail).
    subst. eapply scan_number_ints_ok; eassumption.
  - intros depth s ps r H. cbn [parse_members] in H. walk H;
      injection H as <- _; cbn [forallb];
      repeat match goal with
             | E : scan_once fuel _ _ = Scanned _ _ |- _ => apply IH1 in E; rewrite E
             | E : parse_members fuel _ _ = Scanned _ _ |- _ => apply IH2 in E; rewrite E
             end; reflexivity.
  - intros depth s items r H. cbn [parse_items] in H. walk H;
      injection H as <- _; cbn [forallb];
      repeat match goal with
             | E : scan_once fuel _ _ = Scanned _ _ |- _ => apply IH1 in E; rewrite E
             | E : parse_items fuel _ _ = Scanned _ _ |- _ => apply IH3 in E; rewrite E
             end; reflexivity.
Qed.

(** ** The decoder stays within its nesting bound *)

Lemma scan_number_nesting (s : string) (v : json) (r : string) :
  scan_number s = Some (Scanned v r) -> nesting v = 0%nat.
Proof.
  unfold scan_number. destruct (match_integer s) as [[[neg d] r0]|]; [|discriminate].
  destruct (float_follows r0); [discriminate|].
  destruct (4300 <? String.length d)%nat; [discriminate|].
  intros H. injection H as <- _. reflexivity.
Qed.

Lemma scan_nesting (fuel : nat) :
  (forall depth s v r, scan_once fuel depth s = Scanned v r ->
     (nesting v <= depth)%nat) /\
  (forall depth s ps r, parse_members fuel depth s = Scanned ps r ->
     Forall (fun p : string * json => (nesting (snd p) <= depth)%nat) ps) /\
  (forall depth s items r, parse_items fuel depth s = Scanned items r ->
     Forall (fun x => (nesting x <= depth)%nat) items).
Proof.
  induction fuel as [|fuel [IH1 [IH2 IH3]]]; [repeat split; discriminate|].
  repeat split.
  - intros depth s v r H. cbn [scan_once] in H. walk H;
      try (injection H as <- _); try (cbn [nesting fold_right]; lia);
      try (cbn [nesting]; apply -> Nat.succ_le_mono;
           first [apply deepest_items; eapply IH3
                 |apply deepest_pairs; eapply IH2]; eassumption).
    subst. erewrite scan_number_nesting by eassumption. lia.
  - intros depth s ps r H. cbn [parse_members] in H. walk H;
      injection H as <- _;
      repeat match goal with
             | E : scan_once fuel _ _ = Scanned _ _ |- _ => apply IH1 in E
             | E : parse_members fuel _ _ = Scanned _ _ |- _ => apply IH2 in E
             end;
      repeat constructor; assumption.
  - intros depth s items r H. cbn [parse_items] in H. walk H;
      injection H as <- _;
      repeat match goal with
             | E : scan_once fuel _ _ = Scanned _ _ |- _ => apply IH1 in E
             | E : parse_items fuel _ _ = Scanned _ _ |- _ => apply IH3 in E
             end;
      repeat constructor; assumption.
Qed.

Lemma dict_set_nesting (n : nat) (k : string) (x : json) (d : list (string * json)) :
  (nesting x <= n)%nat ->
  Forall (fun p : string * json => (nesting (snd p) <= n)%nat) d ->
  Forall (fun p : string * json => (nesting (snd p) <= n)%nat) (dict_set k x d).
Proof.
  intros Hx. induction 1 as [|[k' y] d Hy Hd IH]; cbn [dict_set].
  - now repeat constructor.
  - destruct (String.eqb k' k); constructor; assumption.
Qed.

Lemma fold_dict_set_nesting (n : nat) (pairs d : list (string * json)) :
  Forall (fun p : string * json => (nesting (snd p) <= n)%nat) pairs ->
  Forall (fun p : string * json => (nesting (snd p) <= n)%nat) d ->
  Forall (fun p : string * json => (nesting (snd p) <= n)%nat)
         (fold_left (fun d (p : string * json) =>
                       match p with (k, x) => dict_set k x d end) pairs d).
Proof.
  intros Hp. revert d. induction Hp as [|[k x] pairs Hx Hp IH]; intros d Hd;
    [exact Hd|].
  cbn [fold_left]. apply IH. now apply dict_set_nesting.
Qed.

Lemma as_dicts_nesting (v : json) (n : nat) :
  (nesting v <= n)%nat -> (nesting (as_dicts v) <= n)%nat.
Proof.
  revert n. induction v as [|b|m|s|items IH|pairs IH] using json_induction;
    intros n; try (intros H; exact H); cbn [nesting as_dicts]; intros H;
    (destruct n as [|n]; [lia|]); apply -> Nat.succ_le_mono;
    apply Nat.succ_le_mono in H.
  - apply deepest_items. apply deepest_items in H.
    induction IH as [|x items Hx _ IHitems]; [constructor|].
    apply Forall_cons_iff in H as [H1 H2]. cbn [map].
    constructor; [now apply Hx|now apply IHitems].
  - apply deepest_pairs. apply deepest_pairs in H.
    apply fold_dict_set_nesting; [|constructor].
    induction IH as [|[k x] pairs Hx _ IHpairs]; [constructor|].
    apply Forall_cons_iff in H as [H1 H2]. cbn [map snd] in *.
    constructor; [now apply Hx|now apply IHpairs].
Qed.

Lemma loads_nesting (text : string) (v : json) :
  loads text = Some (Ok v) -> (nesting v <= JSON_NESTING)%nat.
Proof.
  unfold loads.
  destruct (scan_once _ _ _) as [obj rest| |] eqn:E; try discriminate.
  destruct (skip_ws rest); [|discriminate]. intros H. injection H as <-.
  apply as_dicts_nesting.
  eapply (proj1 (scan_nesting _)). exact E.
Qed.

Lemma load_settings_nesting (fs : filesystem) (v : json) :
  load_settings fs = Some (Ok v) -> (nesting v <= JSON_NESTING)%nat.
Proof.
  unfold load_settings. destruct (negb (path_exists SETTINGS_FILE fs)).
  - intros H. injection H as <-. cbn [nesting fold_right]. unfold JSON_NESTING. lia.
  - destruct (open_r SETTINGS_FILE fs) as [f|e]; [|discriminate].
    apply loads_nesting.
Qed.

Lemma storable_ints_ok (v : json) : storable v = true -> ints_ok v = true.
Proof.
  induction v as [|b|n|s|items IH|pairs IH] using json_induction;
    try (intros; reflexivity); cbn [ints_ok storable]; intros H.
  - exact H.
  - induction IH as [|x items Hx _ IHitems]; [reflexivity|].
    cbn [forallb] in *. apply andb_prop in H as [H1 H2].
    now rewrite Hx, IHitems.
  - apply andb_prop in H as [_ H].
    induction IH as [|[k x] pairs Hx _ IHpairs]; [reflexivity|].
    cbn [forallb snd] in *. apply andb_prop in H as [H1 H2].
    now rewrite Hx, IHpairs.
Qed.

Lemma fold_dict_set_storable (pairs d : list (string * json)) :
  forallb (fun p : string * json => match p with (_, x) => storable x end) pairs = true ->
  storable (JObj d) = true ->
  storable (JObj (fold_left (fun d (p : string * json) =>
                               match p with (k, x) => dict_set k x d end) pairs d))
  = true.
Proof.
  revert d. induction pairs as [|[k x] pairs IH]; intros d Hp Hd; [exact Hd|].
  cbn [forallb fold_left] in *. apply andb_prop in Hp as [Hx Hp].
  apply IH; [exact Hp|]. now apply dict_set_storable.
Qed.

Lemma as_dicts_is_storable (v : json) :
  ints_ok v = true -> storable (as_dicts v) = true.
Proof.
  induction v as [|b|n|s|items IH|pairs IH] using json_induction;
    try (intros; reflexivity); cbn [ints_ok as_dicts]; intros H.
  - exact H.
  - cbn [storable]. induction IH as [|x items Hx _ IHitems]; [reflexivity|].
    cbn [forallb map] in *. apply andb_prop in H as [H1 H2].
    now rewrite Hx, IHitems.
  - apply fold_dict_set_storable; [|reflexivity].
    induction IH as [|[k x] pairs Hx _ IHpairs]; [reflexivity|].
    cbn [forallb map snd] in *. apply andb_prop in H as [H1 H2].
    now rewrite Hx, IHpairs.
Qed.

Lemma loads_storable (text : string) (v : json) :
  loads text = Some (Ok v) -> storable v = true.
Proof.
  unfold loads.
  destruct (scan_once _ _ _) as [obj rest| |] eqn:E; try discriminate.
  destruct (skip_ws rest); [|discriminate]. intros H. injection H as <-.
  apply as_dicts_is_storable.
  eapply (proj1 (scan_ints_ok _)). exact E.
Qed.

Lemma load_settings_storable (fs : filesystem) (v : json) :
  load_settings fs = Some (Ok v) -> storable v = true.
Proof.
  unfold load_settings. destruct (negb (path_exists SETTINGS_FILE fs)).
  - intros H. injection H as <-. reflexivity.
  - destruct (open_r SETTINGS_FILE fs) as [f|e]; [|discriminate].
    apply loads_storable.
Qed.

Lemma dict_get_set (key k : string) (x : json) (d : list (string * json)) :
  dict_get key (dict_set k x d)
  = if String.eqb k key then Some x else dict_get key d.
Proof.
  induction d as [|[k' y] d IH]; cbn [dict_set dict_get]; [reflexivity|].
  destruct (String.eqb k' k) eqn:E; cbn [dict_get].
  - apply String.eqb_eq in E. subst k'. now destruct (String.eqb k key).
  - rewrite IH. destruct (String.eqb k' key) eqn:E'; [|reflexivity].
    apply String.eqb_eq in E'. subst k'.
    now rewrite (String.eqb_sym k key), E.
Qed.

Lemma dict_get_fold (key : string) (entries d : list (string * json)) :
  dict_get key (fold_left (fun d (p : string * json) =>
                             match p with (k, x) => dict_set k x d end) entries d)
  = match last_saved key entries with
    | Some x => Some x
    | None => dict_get key d
    end.
Proof.
  revert d. induction entries as [|[k x] entries IH]; intros d; [reflexivity|].
  cbn [fold_left last_saved]. rewrite IH, dict_get_set.
  destruct (last_saved key entries); [reflexivity|].
  now destruct (String.eqb k key).
Qed.

Lemma save_setting_written (nt : bool) (key : string) (value : json)
    (fs : filesystem) (pairs : list (string * json)) :
  load_settings fs = Some (Ok (JObj pairs)) ->
  storable value = true ->
  (nesting value < JSON_NESTING)%nat ->
  let fs' := <[SETTINGS_FILE :=
                 write_translate nt (dumps (JObj (dict_set key value pairs)))]> fs in
  save_setting nt key value fs = Some (Ok fs') /\
  load_settings fs' = Some (Ok (JObj (dict_set key value pairs))).
Proof.
  intros Hload Hvalue Hdeep fs'.
  assert (Hs : storable (JObj (dict_set key value pairs)) = true).
  { apply dict_set_storable; [exact Hvalue|].
    exact (load_settings_storable fs _ Hload). }
  assert (Hn : (nesting (JObj (dict_set key value pairs)) <= JSON_NESTING)%nat).
  { pose proof (load_settings_nesting fs _ Hload) as Hp.
    unfold JSON_NESTING in *. cbn [nesting] in *.
    apply -> Nat.succ_le_mono. apply Nat.succ_le_mono in Hp.
    apply deepest_pairs. apply deepest_pairs in Hp.
    apply dict_set_nesting; [lia|exact Hp]. }
  split.
  - unfold save_setting. rewrite Hload. cbv zeta.
    apply Nat.ltb_ge in Hn. rewrite Hn, (storable_ints_ok _ Hs).
    now rewrite save_setting_result.
  - now apply load_settings_written.
Qed.

Lemma save_settings_load (nt : bool) (entries : list (string * json)) :
  forallb (fun p : string * json => match p with (_, x) => storable x end) entries = true ->
  Forall (fun p : string * json => (nesting (snd p) < JSON_NESTING)%nat) entries ->
  forall (fs : filesystem) (d : list (string * json)),
    load_settings fs = Some (Ok (JObj d)) ->
    exists fs',
      save_settings nt entries fs = Some (Ok fs') /\
      load_settings fs'
      = Some (Ok (JObj (fold_left (fun d (p : string * json) =>
                                     match p with (k, x) => dict_set k x d end)
                                  entries d))).
Proof.
  induction entries as [|[k x] entries IH]; intros Hv Hn fs d Hload.
  - exists fs. now split.
  - cbn [forallb] in Hv. apply andb_prop in Hv as [Hx Hv].
    apply Forall_cons_iff in Hn as [Hnx Hn]. cbn [snd] in Hnx.
    destruct (save_setting_written nt k x fs d Hload Hx Hnx) as [H1 H2].
    destruct (IH Hv Hn _ _ H2) as [fs' [H3 H4]].
    exists fs'. cbn [save_settings fold_left]. rewrite H1. now split.
Qed.




(** X17.  Starting without a settings file, any sequence of [save_setting]
    calls with values that can be stored and are nested fewer than
    [JSON_NESTING] deep succeeds, and [load_settings] then returns a
    dictionary in which every key holds the value of the last call made for
    it, and no key that was never saved. *)
Theorem saved_settings_are_loaded (nt : bool) (entries : list (string * json))
    (fs : filesystem) :
  fs !! SETTINGS_FILE = None ->
  forallb (fun p : string * json => match p with (_, x) => storable x end) entries
  = true ->
  forallb (fun p : string * json =>
             match p with (_, x) => (nesting x <? JSON_NESTING)%nat end) entries
  = true ->
  exists fs',
    save_settings nt entries fs = Some (Ok fs') /\
    load_settings fs' = Some (Ok (JObj (dict_of entries))) /\
    forall key, dict_get key (dict_of entries) = last_saved key entries.
Proof.
  intros Hfs Hv Hdeep.
  assert (load_settings fs = Some (Ok (JObj []))) as Hload.
  { unfold load_settings, path_exists. now rewrite Hfs. }
  assert (Forall (fun p : string * json => (nesting (snd p) < JSON_NESTING)%nat)
                 entries) as Hn.
  { clear -Hdeep. induction entries as [|[k x] entries IH]; [constructor|].
    cbn [forallb] in Hdeep. apply andb_prop in Hdeep as [H1 H2].
    constructor; [now apply Nat.ltb_lt in H1|now apply IH]. }
  destruct (save_settings_load nt entries Hv Hn fs [] Hload) as [fs' [H1 H2]].
  exists fs'. split; [exact H1|]. split; [exact H2|].
  intros key. unfold dict_of. rewrite dict_get_fold.
  now destruct (last_saved key entries).
Qed.

Lemma saved_settings_are_loaded_witness :
  exists fs',
    save_settings false
      [("theme", JStr "dark"); ("recent", JArr [JInt 3; JObj []]); ("theme", JStr "light")]
      ∅
    = Some (Ok fs') /\
    load_settings fs'
    = Some (Ok (JObj (dict_of [("theme", JStr "dark"); ("recent", JArr [JInt 3; JObj []]);
                               ("theme", JStr "light")]))) /\
    forall key,
      dict_get key (dict_of [("theme", JStr "dark"); ("recent", JArr [JInt 3; JObj []]);
                             ("theme", JStr "light")])
      = last_saved key [("theme", JStr "dark"); ("recent", JArr [JInt 3; JObj []]);
                        ("theme", JStr "light")].
Proof.
  apply (saved_settings_are_loaded false
           [("theme", JStr "dark"); ("recent", JArr [JInt 3; JObj []]);
            ("theme", JStr "light")] ∅); reflexivity.
Defined.

(** * The pages *)

(** ** The page that installs Python *)

Lemma worker_run_argv (popen : list string -> outcome process) (fuel : nat)
    (cmd : list string) (env_name : string) :
  worker_run popen fuel (Argv cmd) env_name = run popen fuel cmd env_name.
Proof. reflexivity. Qed.

(** X18.  The button of the page that installs Python starts a worker on a
    function where [Popen] needs a command line.  Whatever the network, the
    installer and the operating system would answer, [run] ends with
    [TypeError] before it emits a signal: nothing is downloaded or run, the
    completion handler is never called, no dialog is shown, and the button,
    disabled at the start, stays disabled.  A worker given a list of strings
    behaves as [run] does. *)
Theorem python_installation_never_runs
    (popen : list string -> outcome process) (fuel : nat)
    (get : fetched) (urlretrieve : string -> string -> option string)
    (spawn_wait : list string -> outcome Z) (os_remove : string -> option string)
    (version : string) :
  (forall cmd env_name,
     worker_run popen fuel (Argv cmd) env_name = run popen fuel cmd env_name) /\
  (forall call env_name,
     worker_run popen fuel (Callable call) env_name = Some ([], Raise TypeError)) /\
  exists did,
    start_python_installation popen fuel get urlretrieve spawn_wait os_remove version
    = Some (did, Raise TypeError) /\
    (forall ev, ~ In (Installed ev) did) /\
    (forall i title msg, ~ In (MessageBox i title msg) did) /\
    List.filter (fun ev => match ev with SetEnabled install_btn _ => true | _ => false end)
                did
    = [SetEnabled install_btn false].
Proof.
  split; [reflexivity|]. split; [reflexivity|].
  eexists. split; [reflexivity|]. cbn [app flat_map signals].
  repeat split.
  - intros ev [H|[H|[H|[H|[]]]]]; discriminate H.
  - intros i title msg [H|[H|[H|[H|[]]]]]; discriminate H.
Qed.
(** ** Names the conda page saves *)












Lemma conda_label_after_save (nt : bool) (fs : filesystem) (n : string) :
  n <> "" -> occurs LF n = false -> occurs CR n = false -> strip n = n ->
  load_selected_env (save_selected_env nt "conda" n fs) = Ok (Some "conda", Some n) /\
  conda_load_and_display (save_selected_env nt "conda" n fs)
  = Ok ("Selected conda env: " +:+ n).
Proof.
  intros Hne Hlf Hcr Hs.
  assert (load_selected_env (save_selected_env nt "conda" n fs)
          = Ok (Some "conda", Some n)) as Hload
    by (apply selection_roundtrip; (reflexivity || assumption)).
  split; [exact Hload|].
  unfold conda_load_and_display. rewrite Hload. simpl.
  now rewrite (truthy_nonempty n Hne).
Qed.





(** ** Selecting a conda environment from the list *)

Lemma list_conda_envs_fields
    (spawn_output : list string -> outcome (Z * string)) (envs : list string) :
  list_conda_envs spawn_output = Ok envs ->
  Forall (fun n => n <> "" /\ all_chars not_space n = true) envs.
Proof.
  unfold list_conda_envs. intros H.
  destruct (check_output spawn_output _) as [result|[]];
    try discriminate; injection H as <-;
    [apply conda_env_loop_names|..]; constructor.
Qed.

Lemma load_conda_envs_listed
    (spawn_output : list string -> outcome (Z * string)) (envs : list string) :
  list_conda_envs spawn_output = Ok envs -> envs <> [] ->
  load_conda_envs spawn_output
  = (Ok tt, [ComboClear; SetEnabled conda_env_combo true;
             SetEnabled activate_btn true; ComboAddItems envs]).
Proof.
  intros H Hne. unfold load_conda_envs. rewrite H.
  destruct envs; [congruence|reflexivity].
Qed.

(** X19.  Every environment [list_conda_envs] returns can be selected on the
    conda page: the list shows the names and never the entry that stands for
    an empty list, and with any of them as current text the slot stores it as
    the ["conda"] selection, reads it back unchanged, shows it in the label
    and opens the dialog; the launcher is called only when the dialog is
    closed with its launch button. *)
Theorem listed_conda_env_is_selected
    (nt : bool) (path_join : list string -> string)
    (popen : list string -> Z -> option exn)
    (spawn_output : list string -> outcome (Z * string))
    (envs : list string) (selected : string) (dialog_open : bool)
    (fs : filesystem) :
  list_conda_envs spawn_output = Ok envs ->
  In selected envs ->
  load_conda_envs spawn_output
  = (Ok tt, [ComboClear; SetEnabled conda_env_combo true;
             SetEnabled activate_btn true; ComboAddItems envs]) /\
  ~ In NO_CONDA_ENVS envs /\
  show_existing_activation_info nt path_join popen selected dialog_open fs
  = (Ok tt, save_selected_env nt "conda" selected fs,
     SetSelectedLabel ("Selected conda env: " +:+ selected)
     :: MessageBox Information "Activation Instructions" (CondaSelected selected)
     :: (if dialog_open
         then map Launched
                (snd (launch_activated_cmd nt path_join popen "conda" selected))
         else [])) /\
  load_selected_env (save_selected_env nt "conda" selected fs)
  = Ok (Some "conda", Some selected).
Proof.
  intros Hlist Hin.
  pose proof (list_conda_envs_fields spawn_output envs Hlist) as Hf.
  rewrite List.Forall_forall in Hf.
  assert (~ In NO_CONDA_ENVS envs) as Hno.
  { intros H. destruct (Hf _ H) as [_ Hs]. discriminate Hs. }
  destruct (Hf _ Hin) as [Hne Hns].
  destruct (conda_label_after_save nt fs selected Hne) as [Hload Hlabel].
  { apply (all_chars_occurs not_space); [reflexivity|exact Hns]. }
  { apply (all_chars_occurs not_space); [reflexivity|exact Hns]. }
  { now apply strip_no_space. }
  split; [|split; [exact Hno|split; [|exact Hload]]].
  - apply load_conda_envs_listed; [exact Hlist|]. intros ->. destruct Hin.
  - unfold show_existing_activation_info.
    destruct (String.eqb selected NO_CONDA_ENVS) eqn:E.
    + apply String.eqb_eq in E. subst selected. contradiction.
    + now rewrite Hlabel.
Qed.

Lemma listed_conda_env_is_selected_witness :
  load_conda_envs (fun _ => Ok (0%Z, "# conda environments:" +:+ NL
                                     +:+ "base  *  /opt/conda" +:+ NL))
  = (Ok tt, [ComboClear; SetEnabled conda_env_combo true;
             SetEnabled activate_btn true; ComboAddItems ["base"]]) /\
  ~ In NO_CONDA_ENVS ["base"] /\
  show_existing_activation_info true (String.concat "\") (fun _ _ => None)
    "base" true ∅
  = (Ok tt, save_selected_env true "conda" "base" ∅,
     SetSelectedLabel ("Selected conda env: " +:+ "base")
     :: MessageBox Information "Activation Instructions" (CondaSelected "base")
     :: (if true
         then map Launched
                (snd (launch_activated_cmd true (String.concat "\") (fun _ _ => None)
                        "conda" "base"))
         else [])) /\
  load_selected_env (save_selected_env true "conda" "base" ∅)
  = Ok (Some "conda", Some "base").
Proof.
  apply (listed_conda_env_is_selected true (String.concat "\") (fun _ _ => None)
           (fun _ => Ok (0%Z, "# conda environments:" +:+ NL
                              +:+ "base  *  /opt/conda" +:+ NL))
           ["base"] "base" true ∅).
  - reflexivity.
  - now left.
Defined.

(** ** Creating a conda environment *)

Section CondaCreation.
Variables (nt : bool) (path_join : list string -> string)
  (popen : list string -> Z -> option exn)
  (spawn_output : list string -> outcome (Z * string))
  (spawn_process : list string -> outcome process)
  (spawn_output_after : list string -> outcome (Z * string))
  (fuel : nat) (text version : string) (fs : filesystem)
  (envs : list string) (final_name : string).
Hypothesis listed : list_conda_envs spawn_output = Ok envs.
Hypothesis no_lf : occurs LF text = false.
Hypothesis no_cr : occurs CR text = false.
Hypothesis named : create_conda_env envs fuel (strip text) = Some final_name.







End CondaCreation.
(** ** Creating a virtual environment from the page *)

Lemma created_names_app (a b : list page_event) :
  created_names (a ++ b) = (created_names a ++ created_names b)%list.
Proof. apply flat_map_app. Qed.

Lemma created_names_box (i : icon) (title : string) (msg : page_message)
    (r : list page_event) :
  created_names (MessageBox i title msg :: r) = created_names r.
Proof. reflexivity. Qed.

Lemma created_names_status (msg : page_message) (timeout : Z) (r : list page_event) :
  created_names (ShowMessage msg timeout :: r) = created_names r.
Proof. reflexivity. Qed.

Lemma created_names_log (lv : level) (msg : page_message) (r : list page_event) :
  created_names (PageLog lv msg :: r)
  = (match lv, msg with
     | SUCCESS, VenvCreated final_name => [final_name]
     | _, _ => []
     end ++ created_names r)%list.
Proof. destruct lv, msg; reflexivity. Qed.

Lemma created_names_installed (did : list install_event) :
  created_names (map Installed did) = [].
Proof. induction did as [|ev did IH]; [reflexivity|exact IH]. Qed.




Lemma downloads_app (a b : list page_event) :
  downloads (a ++ b) = (downloads a ++ downloads b)%list.
Proof. apply flat_map_app. Qed.

Lemma downloads_box (i : icon) (title : string) (msg : page_message)
    (r : list page_event) :
  downloads (MessageBox i title msg :: r) = downloads r.
Proof. reflexivity. Qed.

Lemma downloads_status (msg : page_message) (timeout : Z) (r : list page_event) :
  downloads (ShowMessage msg timeout :: r) = downloads r.
Proof. reflexivity. Qed.

Lemma downloads_log (lv : level) (msg : page_message) (r : list page_event) :
  downloads (PageLog lv msg :: r) = downloads r.
Proof. reflexivity. Qed.

Lemma downloads_launched (evs : list event) : downloads (map Launched evs) = [].
Proof. induction evs as [|ev evs IH]; [reflexivity|exact IH]. Qed.

Lemma downloads_created (nt : bool) (path_join : list string -> string)
    (popen : list string -> Z -> option exn) (dialog_open : bool) (n : string)
    (fs : filesystem) :
  downloads (snd (venv_created nt path_join popen dialog_open n fs)) = [].
Proof.
  unfold venv_created, show_activation_info. cbn [snd].
  rewrite downloads_log, downloads_status, downloads_box.
  destruct dialog_open; [|reflexivity]. now rewrite downloads_launched.
Qed.

Lemma install_downloads_once (get : fetched)
    (urlretrieve : string -> string -> option string)
    (spawn_wait : list string -> outcome Z) (os_remove : string -> option string)
    (version_display : string) :
  let version_full := get_full_version get version_display in
  downloads (map Installed
               (snd (download_and_install_python get urlretrieve spawn_wait os_remove
                       version_display)))
  = [(PYTHON_DOWNLOAD_URL version_full,
      "python-" +:+ version_full +:+ "-installer.exe")].
Proof.
  cbv zeta. unfold download_and_install_python. cbv zeta.
  destruct (urlretrieve _ _); [reflexivity|].
  destruct (check_call spawn_wait _) as [[]|[]]; destruct (os_remove _); reflexivity.
Qed.

Ltac page_events :=
  repeat first
    [ rewrite downloads_app | rewrite created_names_app
    | rewrite downloads_box | rewrite downloads_log | rewrite downloads_status
    | rewrite created_names_box | rewrite created_names_log
    | rewrite created_names_status
    | rewrite created_names_installed ];
  cbn [downloads created_names flat_map app].

Section VenvCreation.
Variables (nt : bool) (path_join : list string -> string)
  (popen : list string -> Z -> option exn)
  (spawn_output : list string -> outcome (Z * string))
  (exists_ : string -> bool) (spawn_wait : list string -> outcome Z)
  (install_answer : bool)
  (get : fetched) (urlretrieve : string -> string -> option string)
  (installer_wait : list string -> outcome Z)
  (os_remove : string -> option string)
  (exists_after : string -> bool) (spawn_wait_after : list string -> outcome Z)
  (dialog_open : bool) (fuel : nat)
  (text version_display : string) (fs : filesystem).

(** X22.  A virtual environment that cannot be created is reported as a
    missing Python.  When the version check succeeds and [py -m venv] then
    exits with an error, the slot asks whether Python should be installed,
    although it is there.  With No it logs that the installation was
    cancelled and changes nothing; with Yes it downloads the installer of
    the version [get_full_version] resolves. *)
Theorem venv_failure_is_taken_for_missing_python (out : string) (rc : Z) :
  let slot :=
    create_and_show_info nt path_join popen spawn_output exists_ spawn_wait
      install_answer get urlretrieve installer_wait os_remove exists_after
      spawn_wait_after dialog_open fuel text version_display fs in
  let ask :=
    MessageBox Question "Python Not Found" (PythonNotInstalledAsk version_display) in
  let version_full := get_full_version get version_display in
  check_output spawn_output ["py"; "-" +:+ version_display; "--version"] = Ok out ->
  create_virtual_env exists_ spawn_wait fuel (strip text) version_display
  = Some (Raise (CalledProcessError rc)) ->
  (install_answer = false ->
   slot = Some (Ok tt, fs,
                [ask; PageLog INFO (InstallCancelled version_display);
                 ShowMessage (InstallCancelled version_display) 3000])) /\
  (forall ended fs' did,
     slot = Some (ended, fs', did) ->
     (exists rest, did = ask :: rest) /\
     (install_answer = true ->
      downloads did
      = [(PYTHON_DOWNLOAD_URL version_full,
          "python-" +:+ version_full +:+ "-installer.exe")])).
Proof.
  intros slot ask version_full Hcheck Hcreate. subst slot.
  unfold create_and_show_info. cbv zeta. rewrite Hcheck, Hcreate.
  split; [now intros ->|].
  intros ended fs' did H.
  pose proof (install_downloads_once get urlretrieve installer_wait os_remove
                version_display) as Hd. cbv zeta in Hd.
  destruct install_answer; [|injection H as <- <- <-; split;
                              [eexists; reflexivity|discriminate]].
  destruct (download_and_install_python _ _ _ _ _) as [[[]|e] did0];
    cbn [snd] in Hd.
  - destruct (create_virtual_env exists_after _ _ _ _) as [[n|e_venv]|];
      try discriminate H.
    + pose proof (downloads_created nt path_join popen dialog_open n fs) as Hc.
      destruct (venv_created _ _ _ _ _ _) as [fs1 shown]. cbn [snd] in Hc.
      injection H as <- <- <-. split; [eexists; reflexivity|]. intros _.
      page_events. now rewrite Hd, Hc.
    + destruct e_venv; injection H as <- <- <-;
        (split; [eexists; reflexivity|]); intros _; page_events; now rewrite Hd.
  - injection H as <- <- <-. split; [eexists; reflexivity|]. intros _.
    page_events. now rewrite Hd.
  - injection H as <- <- <-. split; [eexists; reflexivity|]. intros _.
    page_events. now rewrite Hd.
Qed.



End VenvCreation.


Lemma venv_failure_is_taken_for_missing_python_witness :
  create_and_show_info true (String.concat "\") (fun _ _ => None)
    (fun _ => Ok (0%Z, "Python 3.11.4" +:+ NL)) (fun _ => false) (fun _ => Ok 1%Z)
    false (GetRaised Timeout) (fun _ _ => None) (fun _ => Ok 0%Z) (fun _ => None)
    (fun _ => false) (fun _ => Ok 0%Z) false 5 "my_env" "3.11" ∅
  = Some (Ok tt, ∅,
          [MessageBox Question "Python Not Found" (PythonNotInstalledAsk "3.11");
           PageLog INFO (InstallCancelled "3.11");
           ShowMessage (InstallCancelled "3.11") 3000]).
Proof.
  apply (venv_failure_is_taken_for_missing_python true (String.concat "\")
           (fun _ _ => None)
           (fun _ => Ok (0%Z, "Python 3.11.4" +:+ NL)) (fun _ => false)
           (fun _ => Ok 1%Z)
           false (GetRaised Timeout) (fun _ _ => None) (fun _ => Ok 0%Z)
           (fun _ => None) (fun _ => false) (fun _ => Ok 0%Z) false 5 "my_env"
           "3.11" ∅ ("Python 3.11.4" +:+ NL) 1%Z); reflexivity.
Defined.

